(** * Space Action: the simulation-and-progression engine (gameSlice)

    A shallow embedding of the Redux slice that drives the game: the
    per-tick update (steering, gravity, pickups, hazard collisions, pairwise
    collisions, timers, missions, break reminder, unlocks) and the discrete
    command reducers, followed by the properties of the engine.

    Numbers.  The engine works on JavaScript numbers.  Fields that only ever
    hold integers (score, lives, combo, level, counters, point values, mission
    targets) are [Z]; every other number (positions, velocities, timers,
    tuning factors) is an exact rational [Q], which idealises floating-point
    rounding and leaves out NaN and the infinities.  [Math.hypot] and
    [Math.pow] have no rational counterpart, and [Math.random] is not a
    function of the state: the first two are parameters of the engine
    ([Section Engine]), the third is an explicit stream of draws threaded
    through every function that consumes it. *)

From Stdlib Require Import ZArith QArith Qround Qabs Qminmax Bool List.
From Stdlib Require Import Ascii String DecimalString Lia Lqa.
Import ListNotations.

Open Scope string_scope.
Open Scope Z_scope.
Open Scope Q_scope.

(** ** JavaScript numerics *)

Definition Qleb (a b : Q) : bool := Qle_bool a b.
Definition Qltb (a b : Q) : bool := negb (Qle_bool b a).
Definition Qeqb (a b : Q) : bool := Qeq_bool a b.

(** [Math.round]: the nearest integer, halves rounded up. *)
Definition Math_round (q : Q) : Z := Qfloor (q + 0.5).
Definition Math_floor (q : Q) : Z := Qfloor q.

(** Every rational is a finite number. *)
Definition Number_isFinite (_ : Q) : bool := true.

(** Template-literal interpolation of an integer. *)
Definition string_of_Z (z : Z) : string := NilZero.string_of_int (Z.to_int z).

Definition upper_ascii (c : ascii) : ascii :=
  let n := nat_of_ascii c in
  if (Nat.leb 97 n && Nat.leb n 122)%bool then ascii_of_nat (n - 32) else c.

Fixpoint toUpperCase (s : string) : string :=
  match s with
  | EmptyString => EmptyString
  | String c rest => String (upper_ascii c) (toUpperCase rest)
  end.

(** [Math.random]: the stream of draws still to come. *)
Definition Rand : Type := nat -> Q.

Definition Math_random (r : Rand) : Q * Rand := (r O, fun n => r (S n)).

Definition randomBetween (min max : Q) (r : Rand) : Q * Rand :=
  let d := Math_random r in (fst d * (max - min) + min, snd d).

(** ** Data model *)

Inductive Difficulty : Type := Easy | Normal | Hard.
Inductive ControlSide : Type := SideLeft | SideRight.
Inductive RocketSkin : Type := Classic | Neon | Comet | Solar.
Inductive MissionKind : Type := KEarth | KMars | KSun | KSurvive.

(** The nine keys of [PLANET_FACTS], [PlanetCatchStats] and
    [PlanetImpactSource]. *)
Inductive PlanetKey : Type :=
  Mercury | Venus | Earth | Mars | Jupiter | Saturn | Uranus | Neptune | Sun.

Inductive CollectibleId : Type := CEarth | CMars.
Inductive ExtraPlanetId : Type := XMercury | XVenus | XSaturn | XUranus | XNeptune.
Inductive EventKey : Type :=
  EvCollect | EvHit | EvMission | EvBadge | EvLevel | EvUnlock | EvShield.

Definition Difficulty_eqb (a b : Difficulty) : bool :=
  match a, b with
  | Easy, Easy | Normal, Normal | Hard, Hard => true
  | _, _ => false
  end.

Definition RocketSkin_eqb (a b : RocketSkin) : bool :=
  match a, b with
  | Classic, Classic | Neon, Neon | Comet, Comet | Solar, Solar => true
  | _, _ => false
  end.

Definition MissionKind_eqb (a b : MissionKind) : bool :=
  match a, b with
  | KEarth, KEarth | KMars, KMars | KSun, KSun | KSurvive, KSurvive => true
  | _, _ => false
  end.

Definition PlanetKey_eqb (a b : PlanetKey) : bool :=
  match a, b with
  | Mercury, Mercury | Venus, Venus | Earth, Earth | Mars, Mars | Jupiter, Jupiter
  | Saturn, Saturn | Uranus, Uranus | Neptune, Neptune | Sun, Sun => true
  | _, _ => false
  end.

Definition collectibleKey (i : CollectibleId) : PlanetKey :=
  match i with CEarth => Earth | CMars => Mars end.

Definition extraKey (i : ExtraPlanetId) : PlanetKey :=
  match i with
  | XMercury => Mercury | XVenus => Venus | XSaturn => Saturn
  | XUranus => Uranus | XNeptune => Neptune
  end.

Definition extraName (i : ExtraPlanetId) : string :=
  match i with
  | XMercury => "mercury" | XVenus => "venus" | XSaturn => "saturn"
  | XUranus => "uranus" | XNeptune => "neptune"
  end.

Definition difficultyName (d : Difficulty) : string :=
  match d with Easy => "easy" | Normal => "normal" | Hard => "hard" end.

Record Vector : Type := mkVector { vec_x : Q; vec_y : Q }.

Definition zeroVector : Vector := {| vec_x := 0; vec_y := 0 |}.

Module DynamicEntity.
Record t : Type := mk {
  x : Q;
  y : Q;
  vx : Q;
  vy : Q;
  radius : Q;
  visible : bool;
  cooldownMs : Q;
  impactMs : Q
}.

Definition set_x (v : Q) (r : t) : t :=
  {| x := v; y := y r; vx := vx r; vy := vy r; radius := radius r; visible := visible r;
     cooldownMs := cooldownMs r; impactMs := impactMs r |}.
Definition set_y (v : Q) (r : t) : t :=
  {| x := x r; y := v; vx := vx r; vy := vy r; radius := radius r; visible := visible r;
     cooldownMs := cooldownMs r; impactMs := impactMs r |}.
Definition set_vx (v : Q) (r : t) : t :=
  {| x := x r; y := y r; vx := v; vy := vy r; radius := radius r; visible := visible r;
     cooldownMs := cooldownMs r; impactMs := impactMs r |}.
Definition set_vy (v : Q) (r : t) : t :=
  {| x := x r; y := y r; vx := vx r; vy := v; radius := radius r; visible := visible r;
     cooldownMs := cooldownMs r; impactMs := impactMs r |}.
Definition set_radius (v : Q) (r : t) : t :=
  {| x := x r; y := y r; vx := vx r; vy := vy r; radius := v; visible := visible r;
     cooldownMs := cooldownMs r; impactMs := impactMs r |}.
Definition set_visible (v : bool) (r : t) : t :=
  {| x := x r; y := y r; vx := vx r; vy := vy r; radius := radius r; visible := v;
     cooldownMs := cooldownMs r; impactMs := impactMs r |}.
Definition set_cooldownMs (v : Q) (r : t) : t :=
  {| x := x r; y := y r; vx := vx r; vy := vy r; radius := radius r; visible := visible r;
     cooldownMs := v; impactMs := impactMs r |}.
Definition set_impactMs (v : Q) (r : t) : t :=
  {| x := x r; y := y r; vx := vx r; vy := vy r; radius := radius r; visible := visible r;
     cooldownMs := cooldownMs r; impactMs := v |}.
End DynamicEntity.
Abbreviation DynamicEntity := DynamicEntity.t.

Definition entityPos (e : DynamicEntity) : Vector :=
  {| vec_x := DynamicEntity.x e; vec_y := DynamicEntity.y e |}.

Module Collectible.
Record t : Type := mk {
  body : DynamicEntity;
  id : CollectibleId;
  points : Z;
  threshold : Q
}.

Definition set_body (v : DynamicEntity) (r : t) : t :=
  {| body := v; id := id r; points := points r; threshold := threshold r |}.
End Collectible.
Abbreviation Collectible := Collectible.t.

Module HomePortal.
Record t : Type := mk {
  x : Q;
  y : Q;
  radius : Q;
  visible : bool;
  cooldownMs : Q;
  impactMs : Q;
  points : Z;
  threshold : Q
}.

Definition set_x (v : Q) (r : t) : t :=
  {| x := v; y := y r; radius := radius r; visible := visible r; cooldownMs := cooldownMs
     r; impactMs := impactMs r; points := points r; threshold := threshold r |}.
Definition set_y (v : Q) (r : t) : t :=
  {| x := x r; y := v; radius := radius r; visible := visible r; cooldownMs := cooldownMs
     r; impactMs := impactMs r; points := points r; threshold := threshold r |}.
Definition set_visible (v : bool) (r : t) : t :=
  {| x := x r; y := y r; radius := radius r; visible := v; cooldownMs := cooldownMs r;
     impactMs := impactMs r; points := points r; threshold := threshold r |}.
Definition set_cooldownMs (v : Q) (r : t) : t :=
  {| x := x r; y := y r; radius := radius r; visible := visible r; cooldownMs := v;
     impactMs := impactMs r; points := points r; threshold := threshold r |}.
Definition set_impactMs (v : Q) (r : t) : t :=
  {| x := x r; y := y r; radius := radius r; visible := visible r; cooldownMs :=
     cooldownMs r; impactMs := v; points := points r; threshold := threshold r |}.
End HomePortal.
Abbreviation HomePortal := HomePortal.t.

Definition homePos (h : HomePortal) : Vector :=
  {| vec_x := HomePortal.x h; vec_y := HomePortal.y h |}.

Module Hazard.
Record t : Type := mk {
  body : DynamicEntity;
  active : bool
}.

Definition set_body (v : DynamicEntity) (r : t) : t :=
  {| body := v; active := active r |}.
Definition set_active (v : bool) (r : t) : t :=
  {| body := body r; active := v |}.
End Hazard.
Abbreviation Hazard := Hazard.t.

Module ExtraPlanet.
Record t : Type := mk {
  body : DynamicEntity;
  id : ExtraPlanetId;
  points : Z;
  speedFactor : Q
}.

Definition set_body (v : DynamicEntity) (r : t) : t :=
  {| body := v; id := id r; points := points r; speedFactor := speedFactor r |}.
End ExtraPlanet.
Abbreviation ExtraPlanet := ExtraPlanet.t.

Module ParentSettings.
Record t : Type := mk {
  soundVolume : Q;
  vibrationEnabled : bool;
  sessionReminderEnabled : bool;
  sessionReminderMs : Q
}.

Definition set_soundVolume (v : Q) (r : t) : t :=
  {| soundVolume := v; vibrationEnabled := vibrationEnabled r; sessionReminderEnabled :=
     sessionReminderEnabled r; sessionReminderMs := sessionReminderMs r |}.
Definition set_vibrationEnabled (v : bool) (r : t) : t :=
  {| soundVolume := soundVolume r; vibrationEnabled := v; sessionReminderEnabled :=
     sessionReminderEnabled r; sessionReminderMs := sessionReminderMs r |}.
Definition set_sessionReminderEnabled (v : bool) (r : t) : t :=
  {| soundVolume := soundVolume r; vibrationEnabled := vibrationEnabled r;
     sessionReminderEnabled := v; sessionReminderMs := sessionReminderMs r |}.
Definition set_sessionReminderMs (v : Q) (r : t) : t :=
  {| soundVolume := soundVolume r; vibrationEnabled := vibrationEnabled r;
     sessionReminderEnabled := sessionReminderEnabled r; sessionReminderMs := v |}.
End ParentSettings.
Abbreviation ParentSettings := ParentSettings.t.

Module MissionState.
Record t : Type := mk {
  id : string;
  label : string;
  kind : MissionKind;
  target : Z;
  progress : Q;
  rewardPoints : Z;
  timeLimitMs : Q;
  timeLeftMs : Q
}.

Definition set_progress (v : Q) (r : t) : t :=
  {| id := id r; label := label r; kind := kind r; target := target r; progress := v;
     rewardPoints := rewardPoints r; timeLimitMs := timeLimitMs r; timeLeftMs :=
     timeLeftMs r |}.
Definition set_timeLeftMs (v : Q) (r : t) : t :=
  {| id := id r; label := label r; kind := kind r; target := target r; progress :=
     progress r; rewardPoints := rewardPoints r; timeLimitMs := timeLimitMs r; timeLeftMs
     := v |}.
End MissionState.
Abbreviation MissionState := MissionState.t.

Module PlanetCatchStats.
Record t : Type := mk {
  mercury : Z;
  venus : Z;
  earth : Z;
  mars : Z;
  jupiter : Z;
  saturn : Z;
  uranus : Z;
  neptune : Z;
  sun : Z
}.

Definition set_mercury (v : Z) (r : t) : t :=
  {| mercury := v; venus := venus r; earth := earth r; mars := mars r; jupiter := jupiter
     r; saturn := saturn r; uranus := uranus r; neptune := neptune r; sun := sun r |}.
Definition set_venus (v : Z) (r : t) : t :=
  {| mercury := mercury r; venus := v; earth := earth r; mars := mars r; jupiter :=
     jupiter r; saturn := saturn r; uranus := uranus r; neptune := neptune r; sun := sun r
     |}.
Definition set_earth (v : Z) (r : t) : t :=
  {| mercury := mercury r; venus := venus r; earth := v; mars := mars r; jupiter :=
     jupiter r; saturn := saturn r; uranus := uranus r; neptune := neptune r; sun := sun r
     |}.
Definition set_mars (v : Z) (r : t) : t :=
  {| mercury := mercury r; venus := venus r; earth := earth r; mars := v; jupiter :=
     jupiter r; saturn := saturn r; uranus := uranus r; neptune := neptune r; sun := sun r
     |}.
Definition set_jupiter (v : Z) (r : t) : t :=
  {| mercury := mercury r; venus := venus r; earth := earth r; mars := mars r; jupiter :=
     v; saturn := saturn r; uranus := uranus r; neptune := neptune r; sun := sun r |}.
Definition set_saturn (v : Z) (r : t) : t :=
  {| mercury := mercury r; venus := venus r; earth := earth r; mars := mars r; jupiter :=
     jupiter r; saturn := v; uranus := uranus r; neptune := neptune r; sun := sun r |}.
Definition set_uranus (v : Z) (r : t) : t :=
  {| mercury := mercury r; venus := venus r; earth := earth r; mars := mars r; jupiter :=
     jupiter r; saturn := saturn r; uranus := v; neptune := neptune r; sun := sun r |}.
Definition set_neptune (v : Z) (r : t) : t :=
  {| mercury := mercury r; venus := venus r; earth := earth r; mars := mars r; jupiter :=
     jupiter r; saturn := saturn r; uranus := uranus r; neptune := v; sun := sun r |}.
Definition set_sun (v : Z) (r : t) : t :=
  {| mercury := mercury r; venus := venus r; earth := earth r; mars := mars r; jupiter :=
     jupiter r; saturn := saturn r; uranus := uranus r; neptune := neptune r; sun := v |}.
End PlanetCatchStats.
Abbreviation PlanetCatchStats := PlanetCatchStats.t.

Module PlanetCatches.
Definition get (k : PlanetKey) (c : PlanetCatchStats) : Z :=
  match k with
  | Mercury => PlanetCatchStats.mercury c | Venus => PlanetCatchStats.venus c
  | Earth => PlanetCatchStats.earth c | Mars => PlanetCatchStats.mars c
  | Jupiter => PlanetCatchStats.jupiter c | Saturn => PlanetCatchStats.saturn c
  | Uranus => PlanetCatchStats.uranus c | Neptune => PlanetCatchStats.neptune c
  | Sun => PlanetCatchStats.sun c
  end.

Definition set (k : PlanetKey) (v : Z) (c : PlanetCatchStats) : PlanetCatchStats :=
  match k with
  | Mercury => PlanetCatchStats.set_mercury v c | Venus => PlanetCatchStats.set_venus v c
  | Earth => PlanetCatchStats.set_earth v c | Mars => PlanetCatchStats.set_mars v c
  | Jupiter => PlanetCatchStats.set_jupiter v c | Saturn => PlanetCatchStats.set_saturn v c
  | Uranus => PlanetCatchStats.set_uranus v c | Neptune => PlanetCatchStats.set_neptune v c
  | Sun => PlanetCatchStats.set_sun v c
  end.

Definition empty : PlanetCatchStats :=
  PlanetCatchStats.mk 0 0 0 0 0 0 0 0 0.
End PlanetCatches.

Module EventSignal.
Record t : Type := mk {
  collect : Z;
  hit : Z;
  mission : Z;
  badge : Z;
  level : Z;
  unlock : Z;
  shield : Z
}.

Definition set_collect (v : Z) (r : t) : t :=
  {| collect := v; hit := hit r; mission := mission r; badge := badge r; level := level r;
     unlock := unlock r; shield := shield r |}.
Definition set_hit (v : Z) (r : t) : t :=
  {| collect := collect r; hit := v; mission := mission r; badge := badge r; level :=
     level r; unlock := unlock r; shield := shield r |}.
Definition set_mission (v : Z) (r : t) : t :=
  {| collect := collect r; hit := hit r; mission := v; badge := badge r; level := level r;
     unlock := unlock r; shield := shield r |}.
Definition set_badge (v : Z) (r : t) : t :=
  {| collect := collect r; hit := hit r; mission := mission r; badge := v; level := level
     r; unlock := unlock r; shield := shield r |}.
Definition set_level (v : Z) (r : t) : t :=
  {| collect := collect r; hit := hit r; mission := mission r; badge := badge r; level :=
     v; unlock := unlock r; shield := shield r |}.
Definition set_unlock (v : Z) (r : t) : t :=
  {| collect := collect r; hit := hit r; mission := mission r; badge := badge r; level :=
     level r; unlock := v; shield := shield r |}.
Definition set_shield (v : Z) (r : t) : t :=
  {| collect := collect r; hit := hit r; mission := mission r; badge := badge r; level :=
     level r; unlock := unlock r; shield := v |}.
End EventSignal.
Abbreviation EventSignal := EventSignal.t.

Module Events.
Definition get (k : EventKey) (e : EventSignal) : Z :=
  match k with
  | EvCollect => EventSignal.collect e | EvHit => EventSignal.hit e
  | EvMission => EventSignal.mission e | EvBadge => EventSignal.badge e
  | EvLevel => EventSignal.level e | EvUnlock => EventSignal.unlock e
  | EvShield => EventSignal.shield e
  end.

Definition set (k : EventKey) (v : Z) (e : EventSignal) : EventSignal :=
  match k with
  | EvCollect => EventSignal.set_collect v e | EvHit => EventSignal.set_hit v e
  | EvMission => EventSignal.set_mission v e | EvBadge => EventSignal.set_badge v e
  | EvLevel => EventSignal.set_level v e | EvUnlock => EventSignal.set_unlock v e
  | EvShield => EventSignal.set_shield v e
  end.
End Events.

Definition emptyEventSignal : EventSignal := EventSignal.mk 0 0 0 0 0 0 0.

Record DifficultyConfig : Type := mkDifficultyConfig {
  maxSpeed : Q;
  cruiseSpeed : Q;
  windThreshold : Q;
  steeringResponse : Q;
  idleDamping : Q;
  minDriftSpeed : Q;
  playerBounceDamping : Q;
  secondThreshold : Q;
  thirdThreshold : Q;
  sunThreshold : Q;
  earthPoints : Z;
  marsPoints : Z;
  sunPoints : Z;
  baseLives : Z;
  baseShieldCharges : Z;
  hazardUnlockLevel : Z;
  hazardSpeedMultiplier : Q;
  planetSpawnSpeed : Q;
  hazardSpawnSpeed : Q;
  planetMaxSpeed : Q;
  hazardMaxSpeed : Q;
  planetLevelBoostPerLevel : Q;
  hazardLevelBoostPerLevel : Q;
  impactImpulseScale : Q;
  solarInfluence : Q;
  levelScoreStep : Z;
  missionTargetScale : Q;
  missionRewardScale : Q
}.

Record GameState : Type := mkGameState {
  arenaWidth : Q;
  arenaHeight : Q;
  difficulty : Difficulty;
  controlSide : ControlSide;
  input : Vector;
  lastDirection : Vector;
  player : DynamicEntity;
  spark : Collectible;
  comet : Collectible;
  home : HomePortal;
  hazard : Hazard;
  extraPlanets : list ExtraPlanet;
  score : Z;
  highScore : Z;
  combo : Z;
  comboTimerMs : Q;
  level : Z;
  lives : Z;
  shieldCharges : Z;
  invulnerabilityMs : Q;
  secondChanceUsed : bool;
  windMode : bool;
  isPaused : bool;
  isGameOver : bool;
  announcement : string;
  announcementTimerMs : Q;
  planetChainMs : Q;
  missionsCompleted : Z;
  missionSeed : Z;
  currentMission : MissionState;
  planetCatches : PlanetCatchStats;
  learningFact : string;
  learningFactTimerMs : Q;
  unlockedSkins : list RocketSkin;
  selectedSkin : RocketSkin;
  badges : list string;
  settings : ParentSettings;
  sessionElapsedMs : Q;
  showBreakReminder : bool;
  eventSignal : EventSignal
}.

(** Field updates of the root aggregate.  [GameState_eta] spells the record
    out once; the setter of a field is that term with the field's own
    projection replaced by the new value. *)
Definition GameState_eta (r : GameState) : GameState :=
  mkGameState (arenaWidth r) (arenaHeight r) (difficulty r) (controlSide r) (input r)
    (lastDirection r) (player r) (spark r) (comet r) (home r) (hazard r) (extraPlanets r)
    (score r) (highScore r) (combo r) (comboTimerMs r) (level r) (lives r) (shieldCharges r)
    (invulnerabilityMs r) (secondChanceUsed r) (windMode r) (isPaused r) (isGameOver r)
    (announcement r) (announcementTimerMs r) (planetChainMs r) (missionsCompleted r)
    (missionSeed r) (currentMission r) (planetCatches r) (learningFact r)
    (learningFactTimerMs r) (unlockedSkins r) (selectedSkin r) (badges r) (settings r)
    (sessionElapsedMs r) (showBreakReminder r) (eventSignal r).

Ltac field_setter proj :=
  let v := fresh "v" in
  let r := fresh "r" in
  intros v r;
  let e := eval cbv beta delta [GameState_eta] in (GameState_eta r) in
  match eval pattern (proj r) in e with
  | ?f _ => let t := eval cbv beta in (f v) in exact t
  end.

Definition set_arenaWidth : Q -> GameState -> GameState := ltac:(field_setter arenaWidth).
Definition set_arenaHeight : Q -> GameState -> GameState := ltac:(field_setter arenaHeight).
Definition set_difficulty : Difficulty -> GameState -> GameState := ltac:(field_setter difficulty).
Definition set_controlSide : ControlSide -> GameState -> GameState := ltac:(field_setter controlSide).
Definition set_input : Vector -> GameState -> GameState := ltac:(field_setter input).
Definition set_lastDirection : Vector -> GameState -> GameState := ltac:(field_setter lastDirection).
Definition set_player : DynamicEntity -> GameState -> GameState := ltac:(field_setter player).
Definition set_spark : Collectible -> GameState -> GameState := ltac:(field_setter spark).
Definition set_comet : Collectible -> GameState -> GameState := ltac:(field_setter comet).
Definition set_home : HomePortal -> GameState -> GameState := ltac:(field_setter home).
Definition set_hazard : Hazard -> GameState -> GameState := ltac:(field_setter hazard).
Definition set_extraPlanets : list ExtraPlanet -> GameState -> GameState := ltac:(field_setter extraPlanets).
Definition set_score : Z -> GameState -> GameState := ltac:(field_setter score).
Definition set_highScore : Z -> GameState -> GameState := ltac:(field_setter highScore).
Definition set_combo : Z -> GameState -> GameState := ltac:(field_setter combo).
Definition set_comboTimerMs : Q -> GameState -> GameState := ltac:(field_setter comboTimerMs).
Definition set_level : Z -> GameState -> GameState := ltac:(field_setter level).
Definition set_lives : Z -> GameState -> GameState := ltac:(field_setter lives).
Definition set_shieldCharges : Z -> GameState -> GameState := ltac:(field_setter shieldCharges).
Definition set_invulnerabilityMs : Q -> GameState -> GameState := ltac:(field_setter invulnerabilityMs).
Definition set_secondChanceUsed : bool -> GameState -> GameState := ltac:(field_setter secondChanceUsed).
Definition set_windMode : bool -> GameState -> GameState := ltac:(field_setter windMode).
Definition set_isPaused : bool -> GameState -> GameState := ltac:(field_setter isPaused).
Definition set_isGameOver : bool -> GameState -> GameState := ltac:(field_setter isGameOver).
Definition set_announcement : string -> GameState -> GameState := ltac:(field_setter announcement).
Definition set_announcementTimerMs : Q -> GameState -> GameState := ltac:(field_setter announcementTimerMs).
Definition set_planetChainMs : Q -> GameState -> GameState := ltac:(field_setter planetChainMs).
Definition set_missionsCompleted : Z -> GameState -> GameState := ltac:(field_setter missionsCompleted).
Definition set_missionSeed : Z -> GameState -> GameState := ltac:(field_setter missionSeed).
Definition set_currentMission : MissionState -> GameState -> GameState := ltac:(field_setter currentMission).
Definition set_planetCatches : PlanetCatchStats -> GameState -> GameState := ltac:(field_setter planetCatches).
Definition set_learningFact : string -> GameState -> GameState := ltac:(field_setter learningFact).
Definition set_learningFactTimerMs : Q -> GameState -> GameState := ltac:(field_setter learningFactTimerMs).
Definition set_unlockedSkins : list RocketSkin -> GameState -> GameState := ltac:(field_setter unlockedSkins).
Definition set_selectedSkin : RocketSkin -> GameState -> GameState := ltac:(field_setter selectedSkin).
Definition set_badges : list string -> GameState -> GameState := ltac:(field_setter badges).
Definition set_settings : ParentSettings -> GameState -> GameState := ltac:(field_setter settings).
Definition set_sessionElapsedMs : Q -> GameState -> GameState := ltac:(field_setter sessionElapsedMs).
Definition set_showBreakReminder : bool -> GameState -> GameState := ltac:(field_setter showBreakReminder).
Definition set_eventSignal : EventSignal -> GameState -> GameState := ltac:(field_setter eventSignal).

(** State transformers are written state-last and chained left to right, in
    the order of the statements of the source. *)
Notation "s |> f" := (f s) (at level 45, left associativity, only parsing).

(** [if (c) { f }] *)
Definition when (c : GameState -> bool) (f : GameState -> GameState)
  (s : GameState) : GameState :=
  if c s then f s else s.

Definition upd_player (f : DynamicEntity -> DynamicEntity) (s : GameState) : GameState :=
  set_player (f (player s)) s.

Definition upd_home (f : HomePortal -> HomePortal) (s : GameState) : GameState :=
  set_home (f (home s)) s.

Definition Collectible_upd_body (f : DynamicEntity -> DynamicEntity) (c : Collectible)
  : Collectible :=
  Collectible.set_body (f (Collectible.body c)) c.

Definition Hazard_upd_body (f : DynamicEntity -> DynamicEntity) (h : Hazard) : Hazard :=
  Hazard.set_body (f (Hazard.body h)) h.

Definition ExtraPlanet_upd_body (f : DynamicEntity -> DynamicEntity) (p : ExtraPlanet)
  : ExtraPlanet :=
  ExtraPlanet.set_body (f (ExtraPlanet.body p)) p.

Definition upd_sparkBody (f : DynamicEntity -> DynamicEntity) (s : GameState) : GameState :=
  set_spark (Collectible_upd_body f (spark s)) s.

Definition upd_cometBody (f : DynamicEntity -> DynamicEntity) (s : GameState) : GameState :=
  set_comet (Collectible_upd_body f (comet s)) s.

Definition upd_hazardBody (f : DynamicEntity -> DynamicEntity) (s : GameState) : GameState :=
  set_hazard (Hazard_upd_body f (hazard s)) s.

Definition upd_extraPlanets (f : ExtraPlanet -> ExtraPlanet) (s : GameState) : GameState :=
  set_extraPlanets (map f (extraPlanets s)) s.

(** [list_update i f l]: [l] with [f] applied to its element of index [i]. *)
Fixpoint list_update {A : Type} (i : nat) (f : A -> A) (l : list A) : list A :=
  match l, i with
  | [], _ => []
  | a :: rest, O => f a :: rest
  | a :: rest, S j => a :: list_update j f rest
  end.

Definition upd_extraBodyAt (i : nat) (f : DynamicEntity -> DynamicEntity) (s : GameState)
  : GameState :=
  set_extraPlanets (list_update i (ExtraPlanet_upd_body f) (extraPlanets s)) s.

(** [for (const entity of getMovingPlanets(state))] with a body that reads and
    writes [entity] alone: spark, comet, hazard, then the extra planets. *)
Definition upd_movingBodies (f : DynamicEntity -> DynamicEntity) (s : GameState)
  : GameState :=
  s |> upd_sparkBody f |> upd_cometBody f |> upd_hazardBody f
    |> upd_extraPlanets (ExtraPlanet_upd_body f).

(** The two core collectibles, [state.spark] and [state.comet]. *)
Inductive CoreSlot : Type := SlotSpark | SlotComet.

Definition getCollectible (slot : CoreSlot) (s : GameState) : Collectible :=
  match slot with SlotSpark => spark s | SlotComet => comet s end.

Definition upd_collectibleBody (slot : CoreSlot) (f : DynamicEntity -> DynamicEntity)
  (s : GameState) : GameState :=
  match slot with SlotSpark => upd_sparkBody f s | SlotComet => upd_cometBody f s end.

(** ** Constants and tables *)

Definition DEFAULT_ARENA_WIDTH : Q := 960.
Definition DEFAULT_ARENA_HEIGHT : Q := 540.

Definition PLAYER_RADIUS : Q := 18.
Definition HOME_RADIUS : Q := 34.
Definition HAZARD_RADIUS : Q := 21.

Definition COMBO_WINDOW_MS : Q := 3200.
Definition SHIELD_INVULNERABILITY_MS : Q := 1800.
Definition HIT_INVULNERABILITY_MS : Q := 1300.
Definition MAX_SOUND_VOLUME : Q := 0.6.
Definition DEFAULT_SESSION_REMINDER_MS : Q := 20 * 60 * 1000.

Definition DIFFICULTY_CONFIGS (d : Difficulty) : DifficultyConfig :=
  match d with
  | Easy =>
      {| maxSpeed := 7; cruiseSpeed := 6.2; windThreshold := 4; steeringResponse := 0.38;
         idleDamping := 0.92; minDriftSpeed := 1; playerBounceDamping := 0.94;
         secondThreshold := 0; thirdThreshold := 0; sunThreshold := 0;
         earthPoints := 14; marsPoints := 22; sunPoints := 110;
         baseLives := 5; baseShieldCharges := 3; hazardUnlockLevel := 3;
         hazardSpeedMultiplier := 0.88; planetSpawnSpeed := 1.35; hazardSpawnSpeed := 1.7;
         planetMaxSpeed := 2.25; hazardMaxSpeed := 2.8;
         planetLevelBoostPerLevel := 0.018; hazardLevelBoostPerLevel := 0.03;
         impactImpulseScale := 0.55; solarInfluence := 0.5; levelScoreStep := 230;
         missionTargetScale := 0.85; missionRewardScale := 1 |}
  | Normal =>
      {| maxSpeed := 8; cruiseSpeed := 7.2; windThreshold := 4.8; steeringResponse := 0.34;
         idleDamping := 0.9; minDriftSpeed := 1.15; playerBounceDamping := 0.9;
         secondThreshold := 0; thirdThreshold := 0; sunThreshold := 0;
         earthPoints := 16; marsPoints := 24; sunPoints := 120;
         baseLives := 4; baseShieldCharges := 2; hazardUnlockLevel := 2;
         hazardSpeedMultiplier := 1; planetSpawnSpeed := 1.65; hazardSpawnSpeed := 2.1;
         planetMaxSpeed := 2.8; hazardMaxSpeed := 3.4;
         planetLevelBoostPerLevel := 0.022; hazardLevelBoostPerLevel := 0.036;
         impactImpulseScale := 0.64; solarInfluence := 0.62; levelScoreStep := 200;
         missionTargetScale := 1; missionRewardScale := 1.12 |}
  | Hard =>
      {| maxSpeed := 9.3; cruiseSpeed := 8.1; windThreshold := 5.6; steeringResponse := 0.31;
         idleDamping := 0.88; minDriftSpeed := 1.2; playerBounceDamping := 0.86;
         secondThreshold := 0; thirdThreshold := 0; sunThreshold := 0;
         earthPoints := 18; marsPoints := 30; sunPoints := 145;
         baseLives := 3; baseShieldCharges := 1; hazardUnlockLevel := 1;
         hazardSpeedMultiplier := 1.2; planetSpawnSpeed := 2.1; hazardSpawnSpeed := 2.7;
         planetMaxSpeed := 3.5; hazardMaxSpeed := 4.2;
         planetLevelBoostPerLevel := 0.028; hazardLevelBoostPerLevel := 0.045;
         impactImpulseScale := 0.74; solarInfluence := 0.8; levelScoreStep := 170;
         missionTargetScale := 1.2; missionRewardScale := 1.28 |}
  end.

Definition PLANET_FACTS (k : PlanetKey) : string :=
  match k with
  | Mercury => "Merkur, Gunes Sistemindeki en kucuk ve Gunes'e en yakin gezegendir."
  | Venus => "Venus en sicak gezegendir; kalin atmosferi isi hapseder."
  | Earth => "Dunya, yuzeyinde sivisi halde su bulunan tek bilinen gezegendir."
  | Mars => "Mars kizil gorunur; sebebi yuzeyindeki demir oksittir."
  | Jupiter => "Jupiter en buyuk gezegendir ve Buyuk Kirmizi Leke dev bir firtinadir."
  | Saturn => "Saturn, buz ve toz parcaciklarindan olusan belirgin halkalara sahiptir."
  | Uranus => "Uranus neredeyse yana yatmis ekseniyle diger gezegenlerden ayrilir."
  | Neptune => "Neptune cok uzak ve cok ruzgarli bir buz dev gezegendir."
  | Sun => "Gunes, Gunes Sistemi kutlesinin neredeyse tamamina sahiptir."
  end.

Record ExtraPlanetBlueprint : Type := mkBlueprint {
  bp_id : ExtraPlanetId;
  bp_radius : Q;
  bp_points : Z;
  bp_speedFactor : Q
}.

Definition EXTRA_PLANET_BLUEPRINTS : list ExtraPlanetBlueprint :=
  [ mkBlueprint XMercury 9 10 1.35;
    mkBlueprint XVenus 14 14 0.82;
    mkBlueprint XSaturn 18 24 0.96;
    mkBlueprint XUranus 15 18 0.88;
    mkBlueprint XNeptune 16 22 1.08 ].

Record MissionTemplate : Type := mkTemplate {
  tpl_kind : MissionKind;
  tpl_label : string;
  tpl_baseTarget : Z;
  tpl_baseReward : Z;
  tpl_timeMs : Q
}.

Definition MISSION_TEMPLATES : list MissionTemplate :=
  [ mkTemplate KEarth "2 Dunya yakala" 2 50 34000;
    mkTemplate KMars "2 Mars yakala" 2 75 36000;
    mkTemplate KSun "1 Gunes bonusu al" 1 95 35000;
    mkTemplate KSurvive "22 saniye hayatta kal" 22 70 30000 ].

(** ** Construction *)

Definition randomPosition (width height radius : Q) (r : Rand) : Vector * Rand :=
  let px := randomBetween radius (Qmax radius (width - radius)) r in
  let py := randomBetween radius (Qmax radius (height - radius)) (snd px) in
  ({| vec_x := fst px; vec_y := fst py |}, snd py).

Definition clampPosition (value min max : Q) : Q := Qmax min (Qmin max value).

Definition getDifficultyConfig (difficulty : Difficulty) : DifficultyConfig :=
  DIFFICULTY_CONFIGS difficulty.

(** [stored] is the number parsed from local storage: [None] when there is no
    window or the parse is not finite. *)
Definition loadStoredHighScore (stored : option Q) : Z :=
  match stored with
  | None => 0
  | Some parsed => Z.max 0 (Math_floor parsed)
  end.

Definition createCollectible (id : CollectibleId) (points : Z)
  (threshold radius width height spawnSpeed : Q) (r : Rand) : Collectible * Rand :=
  let position := randomPosition width height radius r in
  let dvx := randomBetween (- spawnSpeed) spawnSpeed (snd position) in
  let dvy := randomBetween (- spawnSpeed) spawnSpeed (snd dvx) in
  ({| Collectible.body :=
        {| DynamicEntity.x := vec_x (fst position);
           DynamicEntity.y := vec_y (fst position);
           DynamicEntity.vx := fst dvx;
           DynamicEntity.vy := fst dvy;
           DynamicEntity.radius := radius;
           DynamicEntity.visible := false;
           DynamicEntity.cooldownMs := 0;
           DynamicEntity.impactMs := 0 |};
      Collectible.id := id;
      Collectible.points := points;
      Collectible.threshold := threshold |},
   snd dvy).

Definition createHome (points : Z) (threshold width height : Q) (r : Rand)
  : HomePortal * Rand :=
  let position := randomPosition width height HOME_RADIUS r in
  ({| HomePortal.x := vec_x (fst position);
      HomePortal.y := vec_y (fst position);
      HomePortal.radius := HOME_RADIUS;
      HomePortal.visible := false;
      HomePortal.cooldownMs := 0;
      HomePortal.impactMs := 0;
      HomePortal.points := points;
      HomePortal.threshold := threshold |},
   snd position).

Definition createHazard (width height spawnSpeed : Q) (r : Rand) : Hazard * Rand :=
  let position := randomPosition width height HAZARD_RADIUS r in
  let dvx := randomBetween (- spawnSpeed) spawnSpeed (snd position) in
  let dvy := randomBetween (- spawnSpeed) spawnSpeed (snd dvx) in
  ({| Hazard.body :=
        {| DynamicEntity.x := vec_x (fst position);
           DynamicEntity.y := vec_y (fst position);
           DynamicEntity.vx := fst dvx;
           DynamicEntity.vy := fst dvy;
           DynamicEntity.radius := HAZARD_RADIUS;
           DynamicEntity.visible := false;
           DynamicEntity.cooldownMs := 0;
           DynamicEntity.impactMs := 0 |};
      Hazard.active := false |},
   snd dvy).

Definition createExtraPlanet (width height baseSpawnSpeed : Q)
  (planet : ExtraPlanetBlueprint) (r : Rand) : ExtraPlanet * Rand :=
  let position := randomPosition width height (bp_radius planet) r in
  let speed := baseSpawnSpeed * bp_speedFactor planet in
  let dvx := randomBetween (- speed) speed (snd position) in
  let dvy := randomBetween (- speed) speed (snd dvx) in
  ({| ExtraPlanet.body :=
        {| DynamicEntity.x := vec_x (fst position);
           DynamicEntity.y := vec_y (fst position);
           DynamicEntity.vx := fst dvx;
           DynamicEntity.vy := fst dvy;
           DynamicEntity.radius := bp_radius planet;
           DynamicEntity.visible := true;
           DynamicEntity.cooldownMs := 0;
           DynamicEntity.impactMs := 0 |};
      ExtraPlanet.id := bp_id planet;
      ExtraPlanet.points := bp_points planet;
      ExtraPlanet.speedFactor := bp_speedFactor planet |},
   snd dvy).

(** [EXTRA_PLANET_BLUEPRINTS.map(...)], the draws taken in array order. *)
Fixpoint createExtraPlanetsFrom (blueprints : list ExtraPlanetBlueprint)
  (width height baseSpawnSpeed : Q) (r : Rand) : list ExtraPlanet * Rand :=
  match blueprints with
  | [] => ([], r)
  | planet :: rest =>
      let first := createExtraPlanet width height baseSpawnSpeed planet r in
      let others := createExtraPlanetsFrom rest width height baseSpawnSpeed (snd first) in
      (fst first :: fst others, snd others)
  end.

Definition createExtraPlanets (width height baseSpawnSpeed : Q) (r : Rand)
  : list ExtraPlanet * Rand :=
  createExtraPlanetsFrom EXTRA_PLANET_BLUEPRINTS width height baseSpawnSpeed r.

Definition defaultTemplate : MissionTemplate := mkTemplate KEarth "" 0 0 0.

Definition createMission (seed : Z) (difficulty : Difficulty) : MissionState :=
  let template :=
    nth (Z.to_nat (seed mod Z.of_nat (List.length MISSION_TEMPLATES))) MISSION_TEMPLATES
      defaultTemplate in
  let config := getDifficultyConfig difficulty in
  let target :=
    Z.max 1 (Math_round (inject_Z (tpl_baseTarget template) * missionTargetScale config)) in
  let rewardPoints :=
    Z.max 25 (Math_round (inject_Z (tpl_baseReward template) * missionRewardScale config)) in
  {| MissionState.id := "mission-" ++ string_of_Z seed;
     MissionState.kind := tpl_kind template;
     MissionState.label := tpl_label template;
     MissionState.target := target;
     MissionState.progress := 0;
     MissionState.rewardPoints := rewardPoints;
     MissionState.timeLimitMs := tpl_timeMs template;
     MissionState.timeLeftMs := tpl_timeMs template |}.

Definition createInitialState (stored : option Q) (r : Rand) : GameState * Rand :=
  let difficulty := Normal in
  let config := getDifficultyConfig difficulty in
  let dspark :=
    createCollectible CEarth (earthPoints config) (secondThreshold config) 16
      DEFAULT_ARENA_WIDTH DEFAULT_ARENA_HEIGHT (planetSpawnSpeed config) r in
  let dcomet :=
    createCollectible CMars (marsPoints config) (thirdThreshold config) 13
      DEFAULT_ARENA_WIDTH DEFAULT_ARENA_HEIGHT (planetSpawnSpeed config) (snd dspark) in
  let dhome :=
    createHome (sunPoints config) (sunThreshold config)
      DEFAULT_ARENA_WIDTH DEFAULT_ARENA_HEIGHT (snd dcomet) in
  let dhazard :=
    createHazard DEFAULT_ARENA_WIDTH DEFAULT_ARENA_HEIGHT (hazardSpawnSpeed config)
      (snd dhome) in
  let dextra :=
    createExtraPlanets DEFAULT_ARENA_WIDTH DEFAULT_ARENA_HEIGHT (planetSpawnSpeed config)
      (snd dhazard) in
  ({| arenaWidth := DEFAULT_ARENA_WIDTH;
      arenaHeight := DEFAULT_ARENA_HEIGHT;
      difficulty := difficulty;
      controlSide := SideLeft;
      input := zeroVector;
      lastDirection := zeroVector;
      player :=
        {| DynamicEntity.x := DEFAULT_ARENA_WIDTH / 2;
           DynamicEntity.y := DEFAULT_ARENA_HEIGHT / 2;
           DynamicEntity.vx := 0;
           DynamicEntity.vy := 0;
           DynamicEntity.radius := PLAYER_RADIUS;
           DynamicEntity.visible := true;
           DynamicEntity.cooldownMs := 0;
           DynamicEntity.impactMs := 0 |};
      spark := fst dspark;
      comet := fst dcomet;
      home := fst dhome;
      hazard := fst dhazard;
      extraPlanets := fst dextra;
      score := 0;
      highScore := loadStoredHighScore stored;
      combo := 1;
      comboTimerMs := 0;
      level := 1;
      lives := baseLives config;
      shieldCharges := baseShieldCharges config;
      invulnerabilityMs := 0;
      secondChanceUsed := false;
      windMode := false;
      isPaused := false;
      isGameOver := false;
      announcement := "Hazir! Roketini yon tuslariyla hareket ettir.";
      announcementTimerMs := 2200;
      planetChainMs := 0;
      missionsCompleted := 0;
      missionSeed := 0;
      currentMission := createMission 0 difficulty;
      planetCatches := PlanetCatches.empty;
      learningFact := "";
      learningFactTimerMs := 0;
      unlockedSkins := [Classic];
      selectedSkin := Classic;
      badges := [];
      settings :=
        {| ParentSettings.soundVolume := 0.45;
           ParentSettings.vibrationEnabled := true;
           ParentSettings.sessionReminderEnabled := true;
           ParentSettings.sessionReminderMs := DEFAULT_SESSION_REMINDER_MS |};
      sessionElapsedMs := 0;
      showBreakReminder := false;
      eventSignal := emptyEventSignal |},
   snd dextra).

(** ** Scoring, missions, unlocks *)

Definition setAnnouncement (text : string) (timerMs : Q) (s : GameState) : GameState :=
  s |> set_announcement text |> set_announcementTimerMs timerMs.

Definition refreshHighScore (s : GameState) : GameState :=
  if (highScore s <? score s)%Z then set_highScore (score s) s else s.

Definition incrementEvent (key : EventKey) (s : GameState) : GameState :=
  set_eventSignal (Events.set key (Events.get key (eventSignal s) + 1) (eventSignal s)) s.

Definition unlockSkin (skin : RocketSkin) (message : string) (s : GameState) : GameState :=
  if existsb (RocketSkin_eqb skin) (unlockedSkins s) then s
  else
    s |> set_unlockedSkins (unlockedSkins s ++ [skin])%list
      |> incrementEvent EvUnlock
      |> setAnnouncement message 1700.

Definition grantBadge (badgeId message : string) (s : GameState) : GameState :=
  if existsb (String.eqb badgeId) (badges s) then s
  else
    s |> set_badges (badges s ++ [badgeId])%list
      |> incrementEvent EvBadge
      |> setAnnouncement message 1700.

Definition setLearningFact (key : PlanetKey) (s : GameState) : GameState :=
  s |> set_learningFact (PLANET_FACTS key) |> set_learningFactTimerMs 6200.

Definition maybeLevelUp (s : GameState) : GameState :=
  let config := getDifficultyConfig (difficulty s) in
  let nextLevel := (score s / levelScoreStep config + 1)%Z in
  if (level s <? nextLevel)%Z then
    s |> set_level nextLevel
      |> set_shieldCharges (Z.min 5 (shieldCharges s + 1))
      |> incrementEvent EvLevel
      |> setAnnouncement ("Seviye " ++ string_of_Z nextLevel ++ "!") 1400
  else s.

Definition caughtAllPlanets (s : GameState) : bool :=
  let c := planetCatches s in
  ((0 <? PlanetCatchStats.mercury c) && (0 <? PlanetCatchStats.venus c)
   && (0 <? PlanetCatchStats.earth c) && (0 <? PlanetCatchStats.mars c)
   && (0 <? PlanetCatchStats.jupiter c) && (0 <? PlanetCatchStats.saturn c)
   && (0 <? PlanetCatchStats.uranus c) && (0 <? PlanetCatchStats.neptune c))%Z%bool.

Definition checkUnlocksAndBadges (s : GameState) : GameState :=
  s |> when (fun s => (160 <=? score s)%Z)
         (unlockSkin Neon "Yeni roket skini acildi: Neon!")
    |> when (fun s => (3 <=? missionsCompleted s)%Z)
         (unlockSkin Comet "Yeni roket skini acildi: Kuyruklu Yildiz!")
    |> when (fun s => (5 <=? PlanetCatchStats.sun (planetCatches s))%Z)
         (unlockSkin Solar "Yeni roket skini acildi: Solar Core!")
    |> when (fun s => (1 <=? missionsCompleted s)%Z)
         (grantBadge "mission-starter" "Rozet acildi: Gorev Baslangici")
    |> when (fun s => (6 <=? PlanetCatchStats.mars (planetCatches s))%Z)
         (grantBadge "mars-collector" "Rozet acildi: Mars Koleksiyoncusu")
    |> when (fun s => (500 <=? score s)%Z)
         (grantBadge "score-500" "Rozet acildi: 500+ Puan")
    |> when caughtAllPlanets
         (grantBadge "solar-explorer" "Rozet acildi: Gunes Sistemi Kesifcisi")
    |> when (fun s => Qleb (3 * 60 * 1000) (sessionElapsedMs s))
         (grantBadge "space-marathon" "Rozet acildi: Uzay Maratoncusu").

Definition createNextMission (s : GameState) : GameState :=
  s |> set_missionSeed (missionSeed s + 1)
    |> (fun s => set_currentMission (createMission (missionSeed s) (difficulty s)) s).

Definition completeMission (s : GameState) : GameState :=
  let reward := MissionState.rewardPoints (currentMission s) in
  s |> set_score (score s + reward)
    |> refreshHighScore
    |> maybeLevelUp
    |> (fun s => set_missionsCompleted (missionsCompleted s + 1) s)
    |> (fun s => set_shieldCharges (Z.min 5 (shieldCharges s + 1)) s)
    |> (fun s =>
          set_lives
            (Z.min (baseLives (getDifficultyConfig (difficulty s)) + 1) (lives s + 1)) s)
    |> incrementEvent EvMission
    |> setAnnouncement ("Gorev tamamlandi! +" ++ string_of_Z reward) 1600
    |> checkUnlocksAndBadges
    |> createNextMission.

Definition failMission (s : GameState) : GameState :=
  s |> setAnnouncement "Gorev suresi doldu. Yeni gorev geldi!" 1500
    |> createNextMission.

Definition progressMission (kind : MissionKind) (amount : Q) (s : GameState) : GameState :=
  if negb (MissionKind_eqb (MissionState.kind (currentMission s)) kind) then s
  else
    let mission := currentMission s in
    let advanced :=
      MissionState.set_progress
        (Qmin (inject_Z (MissionState.target mission))
              (MissionState.progress mission + amount)) mission in
    s |> set_currentMission advanced
      |> when (fun s => Qleb (inject_Z (MissionState.target (currentMission s)))
                             (MissionState.progress (currentMission s)))
           completeMission.

Definition collectPoints (points : Q) (text : string) (s : GameState) : GameState :=
  let safePoints := Z.max 0 (Math_round points) in
  s |> set_score (score s + safePoints)
    |> refreshHighScore
    |> maybeLevelUp
    |> (fun s => set_combo (Z.min 9 (combo s + 1)) s)
    |> set_comboTimerMs COMBO_WINDOW_MS
    |> incrementEvent EvCollect
    |> setAnnouncement (text ++ " +" ++ string_of_Z safePoints) 1000
    |> checkUnlocksAndBadges.

Definition bumpCatch (key : PlanetKey) (s : GameState) : GameState :=
  set_planetCatches
    (PlanetCatches.set key (PlanetCatches.get key (planetCatches s) + 1) (planetCatches s)) s.

(** ** The engine *)

(** The world a reducer runs in: the state and the random draws to come. *)
Definition W : Type := (GameState * Rand)%type.

Definition liftW (f : GameState -> GameState) (w : W) : W := (f (fst w), snd w).

Section Engine.

(** [Math.hypot] and [Math.pow]. *)
Variable hypot : Q -> Q -> Q.
Variable pow : Q -> Q -> Q.

Definition getDistance (a b : Vector) : Q :=
  hypot (vec_x a - vec_x b) (vec_y a - vec_y b).

(** *** Gravity, impacts, motion, collisions *)

Definition getMovingPlanets (s : GameState) : list DynamicEntity :=
  Collectible.body (spark s) :: Collectible.body (comet s) :: Hazard.body (hazard s)
    :: map ExtraPlanet.body (extraPlanets s).

Definition getPlanetSourcePosition (source : PlanetKey) (s : GameState) : Vector :=
  match source with
  | Earth => entityPos (Collectible.body (spark s))
  | Mars => entityPos (Collectible.body (comet s))
  | Jupiter => entityPos (Hazard.body (hazard s))
  | Sun => homePos (home s)
  | _ =>
      match
        find (fun item => PlanetKey_eqb (extraKey (ExtraPlanet.id item)) source)
          (extraPlanets s)
      with
      | Some planet => entityPos (ExtraPlanet.body planet)
      | None => entityPos (player s)
      end
  end.

(** The body of the impulse loop of [triggerPlanetImpact]. *)
Definition impactPush (config : DifficultyConfig) (sourcePosition : Vector)
  (entity : DynamicEntity) : DynamicEntity :=
  let dx := DynamicEntity.x entity - vec_x sourcePosition in
  let dy := DynamicEntity.y entity - vec_y sourcePosition in
  let distance := hypot dx dy in
  if Qltb distance 1 then entity
  else
    let nx := dx / distance in
    let ny := dy / distance in
    let impulse := Qmax 0.14 (2.1 / Qmax 1 (distance / 45)) * impactImpulseScale config in
    entity |> DynamicEntity.set_vx (DynamicEntity.vx entity + nx * impulse)
           |> DynamicEntity.set_vy (DynamicEntity.vy entity + ny * impulse).

Definition flash (isSource : bool) (strongImpact lightImpact impactMs : Q) : Q :=
  if isSource then strongImpact else Qmax impactMs lightImpact.

Definition triggerPlanetImpact (source : PlanetKey) (s : GameState) : GameState :=
  let config := getDifficultyConfig (difficulty s) in
  let sourcePosition := getPlanetSourcePosition source s in
  let strongImpact := 420 in
  let lightImpact := 180 in
  let mark isSource e :=
    DynamicEntity.set_impactMs
      (flash isSource strongImpact lightImpact (DynamicEntity.impactMs e)) e in
  s |> upd_sparkBody (mark (PlanetKey_eqb source Earth))
    |> upd_cometBody (mark (PlanetKey_eqb source Mars))
    |> upd_home (fun h =>
         HomePortal.set_impactMs
           (flash (PlanetKey_eqb source Sun) strongImpact lightImpact
              (HomePortal.impactMs h)) h)
    |> upd_hazardBody (mark (PlanetKey_eqb source Jupiter))
    |> upd_extraPlanets (fun planet =>
         ExtraPlanet_upd_body
           (mark (PlanetKey_eqb (extraKey (ExtraPlanet.id planet)) source)) planet)
    |> set_planetChainMs 220
    |> upd_movingBodies (impactPush config sourcePosition).

(** The body of the loop of [applySolarInfluence]. *)
Definition solarPull (config : DifficultyConfig) (home : HomePortal) (frameScale : Q)
  (entity : DynamicEntity) : DynamicEntity :=
  let dx := HomePortal.x home - DynamicEntity.x entity in
  let dy := HomePortal.y home - DynamicEntity.y entity in
  let distance := hypot dx dy in
  if Qltb distance 1 then entity
  else
    let nx := dx / distance in
    let ny := dy / distance in
    let gravity :=
      Qmin 0.18 (1600 / Qmax 1100 (distance * distance)) * frameScale
      * solarInfluence config in
    entity |> DynamicEntity.set_vx (DynamicEntity.vx entity + nx * gravity)
           |> DynamicEntity.set_vy (DynamicEntity.vy entity + ny * gravity).

Definition applySolarInfluence (frameScale : Q) (s : GameState) : GameState :=
  let config := getDifficultyConfig (difficulty s) in
  upd_movingBodies (solarPull config (home s) frameScale) s.

Definition clampVelocity (maxSpeed : Q) (entity : DynamicEntity) : DynamicEntity :=
  let speed := hypot (DynamicEntity.vx entity) (DynamicEntity.vy entity) in
  if Qleb speed maxSpeed || Qleb speed 0 then entity
  else
    let ratio := maxSpeed / speed in
    entity |> DynamicEntity.set_vx (DynamicEntity.vx entity * ratio)
           |> DynamicEntity.set_vy (DynamicEntity.vy entity * ratio).

Definition bounceInsideArena (width height movementScale bounceDamping : Q)
  (entity : DynamicEntity) : DynamicEntity :=
  let e :=
    entity
      |> DynamicEntity.set_x
           (DynamicEntity.x entity + DynamicEntity.vx entity * movementScale)
      |> DynamicEntity.set_y
           (DynamicEntity.y entity + DynamicEntity.vy entity * movementScale) in
  let minX := DynamicEntity.radius e in
  let maxX := Qmax (DynamicEntity.radius e) (width - DynamicEntity.radius e) in
  let minY := DynamicEntity.radius e in
  let maxY := Qmax (DynamicEntity.radius e) (height - DynamicEntity.radius e) in
  let e :=
    if Qleb (DynamicEntity.x e) minX then
      e |> DynamicEntity.set_x minX
        |> DynamicEntity.set_vx (Qabs (DynamicEntity.vx e) * bounceDamping)
    else e in
  let e :=
    if Qleb maxX (DynamicEntity.x e) then
      e |> DynamicEntity.set_x maxX
        |> DynamicEntity.set_vx (- Qabs (DynamicEntity.vx e) * bounceDamping)
    else e in
  let e :=
    if Qleb (DynamicEntity.y e) minY then
      e |> DynamicEntity.set_y minY
        |> DynamicEntity.set_vy (Qabs (DynamicEntity.vy e) * bounceDamping)
    else e in
  if Qleb maxY (DynamicEntity.y e) then
    e |> DynamicEntity.set_y maxY
      |> DynamicEntity.set_vy (- Qabs (DynamicEntity.vy e) * bounceDamping)
  else e.

Definition resolvePlanetPair (first second : DynamicEntity)
  : DynamicEntity * DynamicEntity :=
  if negb (DynamicEntity.visible first) || negb (DynamicEntity.visible second)
  then (first, second)
  else
    let dx := DynamicEntity.x second - DynamicEntity.x first in
    let dy := DynamicEntity.y second - DynamicEntity.y first in
    let distance := hypot dx dy in
    let minDistance := DynamicEntity.radius first + DynamicEntity.radius second in
    if Qleb distance 0.001 || Qleb minDistance distance then (first, second)
    else
      let nx := dx / distance in
      let ny := dy / distance in
      let overlap := minDistance - distance in
      let first :=
        first |> DynamicEntity.set_x (DynamicEntity.x first - nx * overlap * 0.5)
              |> DynamicEntity.set_y (DynamicEntity.y first - ny * overlap * 0.5) in
      let second :=
        second |> DynamicEntity.set_x (DynamicEntity.x second + nx * overlap * 0.5)
               |> DynamicEntity.set_y (DynamicEntity.y second + ny * overlap * 0.5) in
      let firstNormalVelocity :=
        DynamicEntity.vx first * nx + DynamicEntity.vy first * ny in
      let secondNormalVelocity :=
        DynamicEntity.vx second * nx + DynamicEntity.vy second * ny in
      let relativeVelocity := secondNormalVelocity - firstNormalVelocity in
      let bounce := relativeVelocity * 0.9 in
      let first :=
        if Qleb relativeVelocity 0 then
          first |> DynamicEntity.set_vx (DynamicEntity.vx first + nx * bounce)
                |> DynamicEntity.set_vy (DynamicEntity.vy first + ny * bounce)
        else first in
      let second :=
        if Qleb relativeVelocity 0 then
          second |> DynamicEntity.set_vx (DynamicEntity.vx second - nx * bounce)
                 |> DynamicEntity.set_vy (DynamicEntity.vy second - ny * bounce)
        else second in
      (DynamicEntity.set_impactMs (Qmax (DynamicEntity.impactMs first) 170) first,
       DynamicEntity.set_impactMs (Qmax (DynamicEntity.impactMs second) 170) second).

(** [resolvePlanetPair(planets[firstIndex], planets[secondIndex])] on the array
    of body references. *)
Definition resolvePairAt (firstIndex secondIndex : nat) (planets : list DynamicEntity)
  : list DynamicEntity :=
  match nth_error planets firstIndex, nth_error planets secondIndex with
  | Some first, Some second =>
      let pair := resolvePlanetPair first second in
      planets |> list_update firstIndex (fun _ => fst pair)
              |> list_update secondIndex (fun _ => snd pair)
  | _, _ => planets
  end.

Definition resolvePlanetList (planets : list DynamicEntity) : list DynamicEntity :=
  let n := List.length planets in
  fold_left
    (fun ps firstIndex =>
       fold_left (fun ps secondIndex => resolvePairAt firstIndex secondIndex ps)
         (seq (S firstIndex) (n - S firstIndex)) ps)
    (seq 0 n) planets.

Fixpoint zipBodies (bodies : list DynamicEntity) (planets : list ExtraPlanet)
  : list ExtraPlanet :=
  match bodies, planets with
  | b :: bs, p :: ps => ExtraPlanet.set_body b p :: zipBodies bs ps
  | _, _ => planets
  end.

(** The bodies of [getMovingPlanets] written back to where they live. *)
Definition putMovingPlanets (planets : list DynamicEntity) (s : GameState) : GameState :=
  match planets with
  | sparkBody :: cometBody :: hazardBody :: extraBodies =>
      s |> upd_sparkBody (fun _ => sparkBody)
        |> upd_cometBody (fun _ => cometBody)
        |> upd_hazardBody (fun _ => hazardBody)
        |> set_extraPlanets (zipBodies extraBodies (extraPlanets s))
  | _ => s
  end.

Definition resolvePlanetCollisions (s : GameState) : GameState :=
  putMovingPlanets (resolvePlanetList (getMovingPlanets s)) s.

(** *** Round setup *)

Definition setupRound (message : string) (w : W) : W :=
  let state := fst w in
  let config := getDifficultyConfig (difficulty state) in
  let width := arenaWidth state in
  let height := arenaHeight state in
  let dspark :=
    createCollectible CEarth (earthPoints config) (secondThreshold config) 16
      width height (planetSpawnSpeed config) (snd w) in
  let dcomet :=
    createCollectible CMars (marsPoints config) (thirdThreshold config) 13
      width height (planetSpawnSpeed config) (snd dspark) in
  let dhome :=
    createHome (sunPoints config) (sunThreshold config) width height (snd dcomet) in
  let dhazard := createHazard width height (hazardSpawnSpeed config) (snd dhome) in
  let dextra := createExtraPlanets width height (planetSpawnSpeed config) (snd dhazard) in
  (state
     |> set_input zeroVector
     |> set_lastDirection zeroVector
     |> set_player
          {| DynamicEntity.x := width / 2;
             DynamicEntity.y := height / 2;
             DynamicEntity.vx := 0;
             DynamicEntity.vy := 0;
             DynamicEntity.radius := PLAYER_RADIUS;
             DynamicEntity.visible := true;
             DynamicEntity.cooldownMs := 0;
             DynamicEntity.impactMs := 0 |}
     |> set_spark (fst dspark)
     |> set_comet (fst dcomet)
     |> set_home (fst dhome)
     |> set_hazard (fst dhazard)
     |> set_extraPlanets (fst dextra)
     |> set_score 0
     |> set_combo 1
     |> set_comboTimerMs 0
     |> set_level 1
     |> set_lives (baseLives config)
     |> set_shieldCharges (baseShieldCharges config)
     |> set_invulnerabilityMs 0
     |> set_secondChanceUsed false
     |> set_windMode false
     |> set_isPaused false
     |> set_isGameOver false
     |> set_planetChainMs 0
     |> set_planetCatches PlanetCatches.empty
     |> set_currentMission (createMission (missionSeed state + 1) (difficulty state))
     |> set_missionSeed (missionSeed state + 1)
     |> set_learningFact ""
     |> set_learningFactTimerMs 0
     |> set_sessionElapsedMs 0
     |> set_showBreakReminder false
     |> set_eventSignal emptyEventSignal
     |> setAnnouncement message 1600,
   snd dextra).

(** *** Core collectibles *)

(** [moveCollectible] up to its cooldown test: the collectible is shown and
    moved. *)
Definition advanceCollectible (slot : CoreSlot) (frameScale : Q) (s : GameState)
  : GameState :=
  let config := getDifficultyConfig (difficulty s) in
  let levelBoost := 0.9 + (inject_Z (level s) - 1) * planetLevelBoostPerLevel config in
  s |> upd_collectibleBody slot (DynamicEntity.set_visible true)
    |> upd_collectibleBody slot (clampVelocity (planetMaxSpeed config))
    |> upd_collectibleBody slot
         (bounceInsideArena (arenaWidth s) (arenaHeight s) (frameScale * levelBoost) 1).

Definition collectibleCoolingDown (slot : CoreSlot) (s : GameState) : bool :=
  Qltb 0 (DynamicEntity.cooldownMs (Collectible.body (getCollectible slot s))).

Definition collectibleTouched (slot : CoreSlot) (s : GameState) : bool :=
  let collectible := Collectible.body (getCollectible slot s) in
  let hitDistance := DynamicEntity.radius (player s) + DynamicEntity.radius collectible in
  Qleb (getDistance (entityPos (player s)) (entityPos collectible)) hitDistance.

(** The pickup branch of [moveCollectible]. *)
Definition pickupCollectible (slot : CoreSlot) (w : W) : W :=
  let s := fst w in
  let collectible := getCollectible slot s in
  let points := (Collectible.points collectible * combo s)%Z in
  let s :=
    match Collectible.id collectible with
    | CEarth =>
        s |> collectPoints (inject_Z points) "Dunya yakalandi!"
          |> bumpCatch Earth
          |> setLearningFact Earth
          |> progressMission KEarth 1
    | CMars =>
        s |> collectPoints (inject_Z points) "Mars yakalandi!"
          |> bumpCatch Mars
          |> setLearningFact Mars
          |> progressMission KMars 1
    end in
  let s := triggerPlanetImpact (collectibleKey (Collectible.id collectible)) s in
  let nextPosition :=
    randomPosition (arenaWidth s) (arenaHeight s)
      (DynamicEntity.radius (Collectible.body (getCollectible slot s))) (snd w) in
  (upd_collectibleBody slot
     (fun e =>
        e |> DynamicEntity.set_x (vec_x (fst nextPosition))
          |> DynamicEntity.set_y (vec_y (fst nextPosition))
          |> DynamicEntity.set_cooldownMs 500) s,
   snd nextPosition).

Definition moveCollectible (slot : CoreSlot) (deltaMs frameScale : Q) (w : W) : W :=
  let s := advanceCollectible slot frameScale (fst w) in
  if collectibleCoolingDown slot s then
    (upd_collectibleBody slot
       (fun e =>
          DynamicEntity.set_cooldownMs (Qmax 0 (DynamicEntity.cooldownMs e - deltaMs)) e)
       s,
     snd w)
  else if collectibleTouched slot s then pickupCollectible slot (s, snd w)
  else (s, snd w).

(** *** Extra planets *)

Definition scaleVelocity (k : Q) (body : DynamicEntity) : DynamicEntity :=
  body |> DynamicEntity.set_vx (DynamicEntity.vx body * k)
       |> DynamicEntity.set_vy (DynamicEntity.vy body * k).

Definition applyExtraPlanetEffect (id : ExtraPlanetId) (s : GameState) : GameState :=
  match id with
  | XMercury =>
      s |> set_comboTimerMs (Qmax (comboTimerMs s) (COMBO_WINDOW_MS + 500))
        |> setAnnouncement "Merkur: mini hiz ivmesi!" 950
  | XVenus =>
      s |> set_shieldCharges (Z.min 5 (shieldCharges s + 1))
        |> setAnnouncement "Venus: kalkan +1" 1100
  | XSaturn =>
      s |> upd_movingBodies (scaleVelocity 0.84)
        |> setAnnouncement "Saturn halkalari: uzay akisina fren!" 1200
  | XUranus =>
      s |> set_lives
             (Z.min (baseLives (getDifficultyConfig (difficulty s)) + 2) (lives s + 1))
        |> setAnnouncement "Uranus: ekstra can +1" 1200
  | XNeptune =>
      s |> set_combo (Z.min 9 (combo s + 1))
        |> set_comboTimerMs (Qmax (comboTimerMs s) (COMBO_WINDOW_MS + 1000))
        |> upd_movingBodies (scaleVelocity 1.06)
        |> setAnnouncement "Neptune: combo uzatildi!" 1150
  end.

(** Planet [index] of the loop of [moveExtraPlanets], up to its cooldown test. *)
Definition advanceExtraPlanet (index : nat) (frameScale : Q) (planet : ExtraPlanet)
  (s : GameState) : GameState :=
  let config := getDifficultyConfig (difficulty s) in
  let levelBoost := 0.88 + (inject_Z (level s) - 1) * planetLevelBoostPerLevel config in
  s |> upd_extraBodyAt index (DynamicEntity.set_visible true)
    |> upd_extraBodyAt index
         (clampVelocity (planetMaxSpeed config * ExtraPlanet.speedFactor planet))
    |> upd_extraBodyAt index
         (bounceInsideArena (arenaWidth s) (arenaHeight s) (frameScale * levelBoost) 1).

Definition extraPlanetCoolingDown (planet : ExtraPlanet) : bool :=
  Qltb 0 (DynamicEntity.cooldownMs (ExtraPlanet.body planet)).

Definition extraPlanetOutOfReach (planet : ExtraPlanet) (s : GameState) : bool :=
  let hitDistance :=
    DynamicEntity.radius (player s) + DynamicEntity.radius (ExtraPlanet.body planet) in
  Qltb hitDistance (getDistance (entityPos (player s)) (entityPos (ExtraPlanet.body planet))).

(** The pickup of planet [index]. *)
Definition pickupExtraPlanet (index : nat) (planet : ExtraPlanet) (w : W) : W :=
  let s := fst w in
  let id := ExtraPlanet.id planet in
  let s :=
    s |> collectPoints (inject_Z (ExtraPlanet.points planet * combo s))
           (toUpperCase (extraName id) ++ " yakalandi!")
      |> setLearningFact (extraKey id)
      |> bumpCatch (extraKey id)
      |> applyExtraPlanetEffect id
      |> triggerPlanetImpact (extraKey id) in
  let nextPosition :=
    randomPosition (arenaWidth s) (arenaHeight s)
      (DynamicEntity.radius (ExtraPlanet.body planet)) (snd w) in
  (upd_extraBodyAt index
     (fun e =>
        e |> DynamicEntity.set_x (vec_x (fst nextPosition))
          |> DynamicEntity.set_y (vec_y (fst nextPosition))
          |> DynamicEntity.set_cooldownMs 650) s,
   snd nextPosition).

(** One iteration of [for (const planet of state.extraPlanets)]. *)
Definition moveExtraPlanetAt (deltaMs frameScale : Q) (w : W) (index : nat) : W :=
  match nth_error (extraPlanets (fst w)) index with
  | None => w
  | Some planet0 =>
      let s := advanceExtraPlanet index frameScale planet0 (fst w) in
      match nth_error (extraPlanets s) index with
      | None => (s, snd w)
      | Some planet =>
          if extraPlanetCoolingDown planet then
            (upd_extraBodyAt index
               (fun e =>
                  DynamicEntity.set_cooldownMs
                    (Qmax 0 (DynamicEntity.cooldownMs e - deltaMs)) e) s,
             snd w)
          else if extraPlanetOutOfReach planet s then (s, snd w)
          else pickupExtraPlanet index planet (s, snd w)
      end
  end.

Definition moveExtraPlanets (deltaMs frameScale : Q) (w : W) : W :=
  fold_left (moveExtraPlanetAt deltaMs frameScale)
    (seq 0 (List.length (extraPlanets (fst w)))) w.

(** *** Home body *)

Definition homeCoolingDown (s : GameState) : bool :=
  Qltb 0 (HomePortal.cooldownMs (home s)).

Definition homeTouched (s : GameState) : bool :=
  let hitDistance := DynamicEntity.radius (player s) + HomePortal.radius (home s) in
  Qleb (getDistance (entityPos (player s)) (homePos (home s))) hitDistance.

Definition pickupHome (w : W) : W :=
  let s := fst w in
  let points := (HomePortal.points (home s) * combo s)%Z in
  let s :=
    s |> collectPoints (inject_Z points) "Gunes bonusu!"
      |> bumpCatch Sun
      |> setLearningFact Sun
      |> progressMission KSun 1
      |> triggerPlanetImpact Sun in
  let nextPosition :=
    randomPosition (arenaWidth s) (arenaHeight s) (HomePortal.radius (home s)) (snd w) in
  (upd_home
     (fun h =>
        h |> HomePortal.set_x (vec_x (fst nextPosition))
          |> HomePortal.set_y (vec_y (fst nextPosition))
          |> HomePortal.set_cooldownMs 1000) s,
   snd nextPosition).

Definition moveHome (deltaMs : Q) (w : W) : W :=
  let s := upd_home (HomePortal.set_visible true) (fst w) in
  if homeCoolingDown s then
    (upd_home
       (fun h => HomePortal.set_cooldownMs (Qmax 0 (HomePortal.cooldownMs h - deltaMs)) h) s,
     snd w)
  else if homeTouched s then pickupHome (s, snd w)
  else (s, snd w).

(** *** Hazard *)

(** [moveHazard] up to its cooldown test. *)
Definition advanceHazard (frameScale : Q) (s : GameState) : GameState :=
  let config := getDifficultyConfig (difficulty s) in
  let levelBoost :=
    (0.9 + (inject_Z (level s) - 1) * hazardLevelBoostPerLevel config)
    * hazardSpeedMultiplier config in
  s |> set_hazard (Hazard.set_active true (hazard s))
    |> upd_hazardBody (DynamicEntity.set_visible true)
    |> upd_hazardBody (clampVelocity (hazardMaxSpeed config))
    |> upd_hazardBody
         (bounceInsideArena (arenaWidth s) (arenaHeight s) (frameScale * levelBoost) 1).

Definition hazardCoolingDown (s : GameState) : bool :=
  Qltb 0 (DynamicEntity.cooldownMs (Hazard.body (hazard s))).

Definition hazardTouched (s : GameState) : bool :=
  let hitDistance :=
    DynamicEntity.radius (player s) + DynamicEntity.radius (Hazard.body (hazard s)) in
  Qleb (getDistance (entityPos (player s)) (entityPos (Hazard.body (hazard s)))) hitDistance.

(** Lives have run out: the one second chance, or game over. *)
Definition outOfLives (s : GameState) : GameState :=
  if negb (secondChanceUsed s) then
    s |> set_secondChanceUsed true
      |> set_lives 1
      |> set_shieldCharges (Z.max (shieldCharges s) 1)
      |> set_invulnerabilityMs 2600
      |> incrementEvent EvShield
      |> setAnnouncement "Son sans devrede! Devam et!" 1800
  else
    s |> set_isGameOver true
      |> set_isPaused true
      |> set_input zeroVector
      |> upd_player (DynamicEntity.set_vx 0)
      |> upd_player (DynamicEntity.set_vy 0)
      |> setAnnouncement "Gorev bitti! Yeniden basla." 2500.

(** The collision branch of [moveHazard]. *)
Definition collideHazard (w : W) : W :=
  let s := fst w |> bumpCatch Jupiter |> triggerPlanetImpact Jupiter in
  if Qltb 0 (invulnerabilityMs s) then
    (upd_hazardBody (DynamicEntity.set_cooldownMs 500) s, snd w)
  else if (0 <? shieldCharges s)%Z then
    let s :=
      s |> set_shieldCharges (shieldCharges s - 1)
        |> set_invulnerabilityMs SHIELD_INVULNERABILITY_MS
        |> incrementEvent EvShield
        |> setAnnouncement "Kalkan seni korudu!" 1100
        |> setLearningFact Jupiter in
    let safePosition :=
      randomPosition (arenaWidth s) (arenaHeight s)
        (DynamicEntity.radius (Hazard.body (hazard s))) (snd w) in
    (upd_hazardBody
       (fun e =>
          e |> DynamicEntity.set_x (vec_x (fst safePosition))
            |> DynamicEntity.set_y (vec_y (fst safePosition))
            |> DynamicEntity.set_cooldownMs 900) s,
     snd safePosition)
  else
    let s :=
      s |> set_lives (lives s - 1)
        |> set_combo 1
        |> set_comboTimerMs 0
        |> set_invulnerabilityMs HIT_INVULNERABILITY_MS
        |> incrementEvent EvHit
        |> setAnnouncement "Dikkat! Jupiter firtinasina carptin." 1200
        |> setLearningFact Jupiter in
    let position :=
      randomPosition (arenaWidth s) (arenaHeight s)
        (DynamicEntity.radius (Hazard.body (hazard s))) (snd w) in
    (s |> upd_hazardBody
            (fun e =>
               e |> DynamicEntity.set_x (vec_x (fst position))
                 |> DynamicEntity.set_y (vec_y (fst position))
                 |> DynamicEntity.set_cooldownMs 1200)
       |> when (fun s => (lives s <=? 0)%Z) outOfLives,
     snd position).

Definition moveHazard (deltaMs frameScale : Q) (w : W) : W :=
  let s := advanceHazard frameScale (fst w) in
  if hazardCoolingDown s then
    (upd_hazardBody
       (fun e =>
          DynamicEntity.set_cooldownMs (Qmax 0 (DynamicEntity.cooldownMs e - deltaMs)) e)
       s,
     snd w)
  else if hazardTouched s then collideHazard (s, snd w)
  else (s, snd w).

(** *** The step function *)

Definition tickBlocked (s : GameState) : bool :=
  isPaused s || isGameOver s || showBreakReminder s.

(** The player part of [tick]: input, steering, idle drift, speed cap,
    bounds, recovery from non-finite numbers, wind mode. *)
Definition steerPlayer (frameScale : Q) (s : GameState) : GameState :=
  let config := getDifficultyConfig (difficulty s) in
  let inputMagnitude := hypot (vec_x (input s)) (vec_y (input s)) in
  let normalizedX :=
    if Qltb 0 inputMagnitude then vec_x (input s) / inputMagnitude else 0 in
  let normalizedY :=
    if Qltb 0 inputMagnitude then vec_y (input s) / inputMagnitude else 0 in
  let targetVx := normalizedX * cruiseSpeed config in
  let targetVy := normalizedY * cruiseSpeed config in
  let steeringBlend := Qmin 1 (steeringResponse config * frameScale) in
  s |> when (fun _ => Qltb 0 inputMagnitude)
         (set_lastDirection {| vec_x := normalizedX; vec_y := normalizedY |})
    |> upd_player (fun p =>
         p |> DynamicEntity.set_vx
                (DynamicEntity.vx p + (targetVx - DynamicEntity.vx p) * steeringBlend)
           |> DynamicEntity.set_vy
                (DynamicEntity.vy p + (targetVy - DynamicEntity.vy p) * steeringBlend))
    |> when (fun _ => Qeqb inputMagnitude 0)
         (fun s =>
            let idleDamping := pow (idleDamping config) frameScale in
            s |> upd_player (scaleVelocity idleDamping)
              |> when (fun s =>
                         let driftSpeed :=
                           hypot (DynamicEntity.vx (player s))
                                 (DynamicEntity.vy (player s)) in
                         let hasLastDirection :=
                           Qltb 0 (Qabs (vec_x (lastDirection s)))
                           || Qltb 0 (Qabs (vec_y (lastDirection s))) in
                         hasLastDirection && Qltb 0 driftSpeed
                         && Qltb driftSpeed (minDriftSpeed config))
                   (fun s =>
                      upd_player (fun p =>
                        p |> DynamicEntity.set_vx
                               (vec_x (lastDirection s) * minDriftSpeed config)
                          |> DynamicEntity.set_vy
                               (vec_y (lastDirection s) * minDriftSpeed config)) s))
    |> when (fun s =>
               let currentSpeed :=
                 hypot (DynamicEntity.vx (player s)) (DynamicEntity.vy (player s)) in
               Qltb (maxSpeed config) currentSpeed && Qltb 0 currentSpeed)
         (fun s =>
            let currentSpeed :=
              hypot (DynamicEntity.vx (player s)) (DynamicEntity.vy (player s)) in
            upd_player (scaleVelocity (maxSpeed config / currentSpeed)) s)
    |> when (fun s => Qltb (Qabs (DynamicEntity.vx (player s))) 0.05)
         (upd_player (DynamicEntity.set_vx 0))
    |> when (fun s => Qltb (Qabs (DynamicEntity.vy (player s))) 0.05)
         (upd_player (DynamicEntity.set_vy 0))
    |> (fun s =>
          upd_player
            (bounceInsideArena (arenaWidth s) (arenaHeight s) frameScale
               (playerBounceDamping config)) s)
    |> when (fun s =>
               negb (Number_isFinite (DynamicEntity.x (player s)))
               || negb (Number_isFinite (DynamicEntity.y (player s)))
               || negb (Number_isFinite (DynamicEntity.vx (player s)))
               || negb (Number_isFinite (DynamicEntity.vy (player s))))
         (fun s =>
            s |> upd_player (fun p =>
                   p |> DynamicEntity.set_x (arenaWidth s / 2)
                     |> DynamicEntity.set_y (arenaHeight s / 2)
                     |> DynamicEntity.set_vx 0
                     |> DynamicEntity.set_vy 0)
              |> set_input zeroVector
              |> set_lastDirection zeroVector)
    |> (fun s =>
          let speed :=
            hypot (DynamicEntity.vx (player s)) (DynamicEntity.vy (player s)) in
          set_windMode (Qleb (windThreshold config) speed) s).

(** The closing part of [tick]: every timer, the mission clock, the break
    reminder and the unlock checks. *)
Definition decayTimers (deltaMs : Q) (s : GameState) : GameState :=
  let decay e :=
    DynamicEntity.set_impactMs (Qmax 0 (DynamicEntity.impactMs e - deltaMs)) e in
  s |> upd_sparkBody decay
    |> upd_cometBody decay
    |> upd_home (fun h =>
         HomePortal.set_impactMs (Qmax 0 (HomePortal.impactMs h - deltaMs)) h)
    |> upd_hazardBody decay
    |> upd_extraPlanets (ExtraPlanet_upd_body decay)
    |> upd_player decay
    |> (fun s => set_planetChainMs (Qmax 0 (planetChainMs s - deltaMs)) s)
    |> when (fun s => Qltb 0 (invulnerabilityMs s))
         (fun s => set_invulnerabilityMs (Qmax 0 (invulnerabilityMs s - deltaMs)) s)
    |> when (fun s => MissionKind_eqb (MissionState.kind (currentMission s)) KSurvive)
         (progressMission KSurvive (deltaMs / 1000))
    |> (fun s =>
          set_currentMission
            (MissionState.set_timeLeftMs
               (Qmax 0 (MissionState.timeLeftMs (currentMission s) - deltaMs))
               (currentMission s)) s)
    |> when (fun s =>
               Qeqb (MissionState.timeLeftMs (currentMission s)) 0
               && Qltb (MissionState.progress (currentMission s))
                       (inject_Z (MissionState.target (currentMission s))))
         failMission
    |> when (fun s => Qltb 0 (comboTimerMs s))
         (fun s =>
            s |> set_comboTimerMs (Qmax 0 (comboTimerMs s - deltaMs))
              |> when (fun s => Qeqb (comboTimerMs s) 0) (set_combo 1))
    |> when (fun s => Qltb 0 (announcementTimerMs s))
         (fun s =>
            s |> set_announcementTimerMs (Qmax 0 (announcementTimerMs s - deltaMs))
              |> when (fun s => Qeqb (announcementTimerMs s) 0 && negb (isGameOver s))
                   (set_announcement ""))
    |> when (fun s => Qltb 0 (learningFactTimerMs s))
         (fun s =>
            s |> set_learningFactTimerMs (Qmax 0 (learningFactTimerMs s - deltaMs))
              |> when (fun s => Qeqb (learningFactTimerMs s) 0) (set_learningFact ""))
    |> when (fun s => ParentSettings.sessionReminderEnabled (settings s))
         (fun s =>
            s |> set_sessionElapsedMs (sessionElapsedMs s + deltaMs)
              |> when (fun s =>
                         Qleb (ParentSettings.sessionReminderMs (settings s))
                              (sessionElapsedMs s))
                   (fun s =>
                      s |> set_showBreakReminder true
                        |> set_isPaused true
                        |> setAnnouncement
                             "Mola zamani! Su icip gozlerini dinlendirelim." 1800))
    |> checkUnlocksAndBadges.

Definition tick (payloadDeltaMs : Q) (w : W) : W :=
  if tickBlocked (fst w) then w
  else
    let deltaMs := Qmin 48 (Qmax 8 payloadDeltaMs) in
    let frameScale := deltaMs / 16.6667 in
    w |> liftW (steerPlayer frameScale)
      |> liftW (applySolarInfluence frameScale)
      |> moveCollectible SlotSpark deltaMs frameScale
      |> moveCollectible SlotComet deltaMs frameScale
      |> moveExtraPlanets deltaMs frameScale
      |> moveHome deltaMs
      |> moveHazard deltaMs frameScale
      |> liftW resolvePlanetCollisions
      |> liftW (decayTimers deltaMs).

(** *** The other reducers *)

Definition setArenaSize (payloadWidth payloadHeight : Q) (s : GameState) : GameState :=
  let width := inject_Z (Math_floor payloadWidth) in
  let height := inject_Z (Math_floor payloadHeight) in
  if Qltb width 320 || Qltb height 220 then s
  else
    let clampBody e :=
      e |> DynamicEntity.set_x
             (clampPosition (DynamicEntity.x e) (DynamicEntity.radius e)
                (width - DynamicEntity.radius e))
        |> DynamicEntity.set_y
             (clampPosition (DynamicEntity.y e) (DynamicEntity.radius e)
                (height - DynamicEntity.radius e)) in
    s |> set_arenaWidth width
      |> set_arenaHeight height
      |> upd_player clampBody
      |> upd_sparkBody clampBody
      |> upd_cometBody clampBody
      |> upd_home (fun h =>
           h |> HomePortal.set_x
                  (clampPosition (HomePortal.x h) (HomePortal.radius h)
                     (width - HomePortal.radius h))
             |> HomePortal.set_y
                  (clampPosition (HomePortal.y h) (HomePortal.radius h)
                     (height - HomePortal.radius h)))
      |> upd_hazardBody clampBody
      |> upd_extraPlanets (ExtraPlanet_upd_body clampBody).

Definition setInput (payload : Vector) (s : GameState) : GameState :=
  set_input payload s.

Definition setDifficulty (payload : Difficulty) (w : W) : W :=
  if Difficulty_eqb (difficulty (fst w)) payload then w
  else
    w |> liftW (set_difficulty payload)
      |> setupRound ("Zorluk ayarlandi: " ++ toUpperCase (difficultyName payload)).

Definition setControlSide (payload : ControlSide) (s : GameState) : GameState :=
  set_controlSide payload s.

Definition setSoundVolume (payload : Q) (s : GameState) : GameState :=
  let clamped := Qmax 0 (Qmin MAX_SOUND_VOLUME payload) in
  set_settings (ParentSettings.set_soundVolume clamped (settings s)) s.

Definition setVibrationEnabled (payload : bool) (s : GameState) : GameState :=
  set_settings (ParentSettings.set_vibrationEnabled payload (settings s)) s.

Definition setSessionReminderEnabled (payload : bool) (s : GameState) : GameState :=
  s |> set_settings (ParentSettings.set_sessionReminderEnabled payload (settings s))
    |> when (fun _ => negb payload) (set_showBreakReminder false).

Definition setSessionReminderMinutes (payload : Q) (s : GameState) : GameState :=
  let safeMinutes := Z.max 10 (Z.min 45 (Math_round payload)) in
  set_settings
    (ParentSettings.set_sessionReminderMs (inject_Z safeMinutes * 60 * 1000) (settings s)) s.

Definition dismissBreakReminder (s : GameState) : GameState :=
  s |> set_showBreakReminder false
    |> set_sessionElapsedMs 0
    |> when (fun s => negb (isGameOver s))
         (fun s =>
            s |> set_isPaused false
              |> setAnnouncement "Mola tamam! Devam ediyoruz." 1200).

Definition selectRocketSkin (payload : RocketSkin) (s : GameState) : GameState :=
  if negb (existsb (RocketSkin_eqb payload) (unlockedSkins s)) then s
  else set_selectedSkin payload s.

Definition nudgePlayer (payload : Vector) (s : GameState) : GameState :=
  if isGameOver s || isPaused s then s
  else
    let config := getDifficultyConfig (difficulty s) in
    s |> upd_player (fun p =>
           p |> DynamicEntity.set_vx (DynamicEntity.vx p + vec_x payload * 1.1)
             |> DynamicEntity.set_vy (DynamicEntity.vy p + vec_y payload * 1.1))
      |> when (fun s =>
                 let tapSpeed :=
                   hypot (DynamicEntity.vx (player s)) (DynamicEntity.vy (player s)) in
                 Qltb (maxSpeed config) tapSpeed && Qltb 0 tapSpeed)
           (fun s =>
              let tapSpeed :=
                hypot (DynamicEntity.vx (player s)) (DynamicEntity.vy (player s)) in
              upd_player (scaleVelocity (maxSpeed config / tapSpeed)) s).

Definition stopPlayer (s : GameState) : GameState :=
  s |> upd_player (DynamicEntity.set_vx 0)
    |> upd_player (DynamicEntity.set_vy 0)
    |> set_lastDirection zeroVector.

Definition resetPlayerPosition (s : GameState) : GameState :=
  s |> upd_player (fun p =>
         p |> DynamicEntity.set_x (arenaWidth s / 2)
           |> DynamicEntity.set_y (arenaHeight s / 2)
           |> DynamicEntity.set_vx 0
           |> DynamicEntity.set_vy 0)
    |> set_input zeroVector
    |> set_lastDirection zeroVector
    |> set_combo 1
    |> set_comboTimerMs 0
    |> setAnnouncement "Roket merkeze alindi." 1000.

Definition togglePause (s : GameState) : GameState :=
  if isGameOver s || showBreakReminder s then s
  else
    s |> set_isPaused (negb (isPaused s))
      |> (fun s => setAnnouncement (if isPaused s then "Duraklatildi" else "Devam!") 700 s).

Definition restartGame (w : W) : W := setupRound "Yeni oyun basladi!" w.

(** The actions of the slice, and its reducer. *)
Inductive Action : Type :=
| SetArenaSize (width height : Q)
| SetInput (payload : Vector)
| SetDifficulty (payload : Difficulty)
| SetControlSide (payload : ControlSide)
| SetSoundVolume (payload : Q)
| SetVibrationEnabled (payload : bool)
| SetSessionReminderEnabled (payload : bool)
| SetSessionReminderMinutes (payload : Q)
| DismissBreakReminder
| SelectRocketSkin (payload : RocketSkin)
| NudgePlayer (payload : Vector)
| StopPlayer
| ResetPlayerPosition
| TogglePause
| RestartGame
| Tick (deltaMs : Q).

Definition reducer (a : Action) (w : W) : W :=
  match a with
  | SetArenaSize width height => liftW (setArenaSize width height) w
  | SetInput payload => liftW (setInput payload) w
  | SetDifficulty payload => setDifficulty payload w
  | SetControlSide payload => liftW (setControlSide payload) w
  | SetSoundVolume payload => liftW (setSoundVolume payload) w
  | SetVibrationEnabled payload => liftW (setVibrationEnabled payload) w
  | SetSessionReminderEnabled payload => liftW (setSessionReminderEnabled payload) w
  | SetSessionReminderMinutes payload => liftW (setSessionReminderMinutes payload) w
  | DismissBreakReminder => liftW dismissBreakReminder w
  | SelectRocketSkin payload => liftW (selectRocketSkin payload) w
  | NudgePlayer payload => liftW (nudgePlayer payload) w
  | StopPlayer => liftW stopPlayer w
  | ResetPlayerPosition => liftW resetPlayerPosition w
  | TogglePause => liftW togglePause w
  | RestartGame => restartGame w
  | Tick deltaMs => tick deltaMs w
  end.

(** A run of the slice: the actions dispatched in order. *)
Definition run (actions : list Action) (w : W) : W :=
  fold_left (fun w a => reducer a w) actions w.

(** The states a session can be in: the initial state, whatever the stored
    high score and the draws were, and every state a reducer produces from one
    of them, whatever the draws still to come. *)
Inductive reachable : GameState -> Prop :=
| reachable_init (stored : option Q) (r : Rand) :
    reachable (fst (createInitialState stored r))
| reachable_step (s : GameState) (a : Action) (r : Rand) :
    reachable s -> reachable (fst (reducer a (s, r))).

End Engine.

(** ** Rational stand-ins for [Math.hypot] and [Math.pow]

    Used to run the engine on concrete states.  [hypotQ] is exact whenever the
    sum of squares is the square of a rational with a small denominator, in
    particular at [(0, 0)]; [powQ] is exact at integer exponents. *)

Definition sqrtQ (q : Q) : Q :=
  let scale := (10 ^ 9)%Z in
  (Z.sqrt (Qnum q * Z.pos (Qden q) * scale * scale)) # (Qden q * Z.to_pos scale).

Definition hypotQ (a b : Q) : Q := Qred (sqrtQ (Qred (a * a + b * b))).

Definition powQ (base exponent : Q) : Q :=
  let n := Qfloor exponent in
  Qred (Qpower base n * (1 + (exponent - inject_Z n) * (base - 1))).

Definition halves : Rand := fun _ => 0.5.

(** * Properties *)

(** Field reads through field updates.  Only projections, setters and the
    one-line update helpers are unfolded; the functions of the engine stay
    folded and are rewritten with their own lemmas. *)
Ltac rd :=
  cbn [
    arenaWidth set_arenaWidth arenaHeight set_arenaHeight difficulty set_difficulty
    controlSide set_controlSide input set_input lastDirection set_lastDirection player
    set_player spark set_spark comet set_comet home set_home hazard set_hazard
    extraPlanets set_extraPlanets score set_score highScore set_highScore combo
    set_combo comboTimerMs set_comboTimerMs level set_level lives set_lives
    shieldCharges set_shieldCharges invulnerabilityMs set_invulnerabilityMs
    secondChanceUsed set_secondChanceUsed windMode set_windMode isPaused set_isPaused
    isGameOver set_isGameOver announcement set_announcement announcementTimerMs
    set_announcementTimerMs planetChainMs set_planetChainMs missionsCompleted
    set_missionsCompleted missionSeed set_missionSeed currentMission set_currentMission
    planetCatches set_planetCatches learningFact set_learningFact learningFactTimerMs
    set_learningFactTimerMs unlockedSkins set_unlockedSkins selectedSkin
    set_selectedSkin badges set_badges settings set_settings sessionElapsedMs
    set_sessionElapsedMs showBreakReminder set_showBreakReminder eventSignal
    set_eventSignal DynamicEntity.x DynamicEntity.set_x DynamicEntity.y
    DynamicEntity.set_y DynamicEntity.vx DynamicEntity.set_vx DynamicEntity.vy
    DynamicEntity.set_vy DynamicEntity.radius DynamicEntity.set_radius
    DynamicEntity.visible DynamicEntity.set_visible DynamicEntity.cooldownMs
    DynamicEntity.set_cooldownMs DynamicEntity.impactMs DynamicEntity.set_impactMs
    Collectible.body Collectible.set_body Collectible.id Collectible.points
    Collectible.threshold HomePortal.x HomePortal.set_x HomePortal.y HomePortal.set_y
    HomePortal.radius HomePortal.visible HomePortal.set_visible HomePortal.cooldownMs
    HomePortal.set_cooldownMs HomePortal.impactMs HomePortal.set_impactMs
    HomePortal.points HomePortal.threshold Hazard.body Hazard.set_body Hazard.active
    Hazard.set_active ExtraPlanet.body ExtraPlanet.set_body ExtraPlanet.id
    ExtraPlanet.points ExtraPlanet.speedFactor ParentSettings.soundVolume
    ParentSettings.set_soundVolume ParentSettings.vibrationEnabled
    ParentSettings.set_vibrationEnabled ParentSettings.sessionReminderEnabled
    ParentSettings.set_sessionReminderEnabled ParentSettings.sessionReminderMs
    ParentSettings.set_sessionReminderMs MissionState.id MissionState.label
    MissionState.kind MissionState.target MissionState.progress
    MissionState.set_progress MissionState.rewardPoints MissionState.timeLimitMs
    MissionState.timeLeftMs MissionState.set_timeLeftMs PlanetCatchStats.mercury
    PlanetCatchStats.set_mercury PlanetCatchStats.venus PlanetCatchStats.set_venus
    PlanetCatchStats.earth PlanetCatchStats.set_earth PlanetCatchStats.mars
    PlanetCatchStats.set_mars PlanetCatchStats.jupiter PlanetCatchStats.set_jupiter
    PlanetCatchStats.saturn PlanetCatchStats.set_saturn PlanetCatchStats.uranus
    PlanetCatchStats.set_uranus PlanetCatchStats.neptune PlanetCatchStats.set_neptune
    PlanetCatchStats.sun PlanetCatchStats.set_sun EventSignal.collect
    EventSignal.set_collect EventSignal.hit EventSignal.set_hit EventSignal.mission
    EventSignal.set_mission EventSignal.badge EventSignal.set_badge EventSignal.level
    EventSignal.set_level EventSignal.unlock EventSignal.set_unlock EventSignal.shield
    EventSignal.set_shield fst snd vec_x vec_y upd_player upd_home upd_sparkBody
    upd_cometBody upd_hazardBody upd_extraPlanets upd_extraBodyAt Collectible_upd_body
    Hazard_upd_body ExtraPlanet_upd_body Events.get Events.set PlanetCatches.get
    PlanetCatches.set bumpCatch liftW getCollectible upd_collectibleBody entityPos
    homePos
  ].

Ltac rd_all :=
  cbn [
    arenaWidth set_arenaWidth arenaHeight set_arenaHeight difficulty set_difficulty
    controlSide set_controlSide input set_input lastDirection set_lastDirection player
    set_player spark set_spark comet set_comet home set_home hazard set_hazard
    extraPlanets set_extraPlanets score set_score highScore set_highScore combo
    set_combo comboTimerMs set_comboTimerMs level set_level lives set_lives
    shieldCharges set_shieldCharges invulnerabilityMs set_invulnerabilityMs
    secondChanceUsed set_secondChanceUsed windMode set_windMode isPaused set_isPaused
    isGameOver set_isGameOver announcement set_announcement announcementTimerMs
    set_announcementTimerMs planetChainMs set_planetChainMs missionsCompleted
    set_missionsCompleted missionSeed set_missionSeed currentMission set_currentMission
    planetCatches set_planetCatches learningFact set_learningFact learningFactTimerMs
    set_learningFactTimerMs unlockedSkins set_unlockedSkins selectedSkin
    set_selectedSkin badges set_badges settings set_settings sessionElapsedMs
    set_sessionElapsedMs showBreakReminder set_showBreakReminder eventSignal
    set_eventSignal DynamicEntity.x DynamicEntity.set_x DynamicEntity.y
    DynamicEntity.set_y DynamicEntity.vx DynamicEntity.set_vx DynamicEntity.vy
    DynamicEntity.set_vy DynamicEntity.radius DynamicEntity.set_radius
    DynamicEntity.visible DynamicEntity.set_visible DynamicEntity.cooldownMs
    DynamicEntity.set_cooldownMs DynamicEntity.impactMs DynamicEntity.set_impactMs
    Collectible.body Collectible.set_body Collectible.id Collectible.points
    Collectible.threshold HomePortal.x HomePortal.set_x HomePortal.y HomePortal.set_y
    HomePortal.radius HomePortal.visible HomePortal.set_visible HomePortal.cooldownMs
    HomePortal.set_cooldownMs HomePortal.impactMs HomePortal.set_impactMs
    HomePortal.points HomePortal.threshold Hazard.body Hazard.set_body Hazard.active
    Hazard.set_active ExtraPlanet.body ExtraPlanet.set_body ExtraPlanet.id
    ExtraPlanet.points ExtraPlanet.speedFactor ParentSettings.soundVolume
    ParentSettings.set_soundVolume ParentSettings.vibrationEnabled
    ParentSettings.set_vibrationEnabled ParentSettings.sessionReminderEnabled
    ParentSettings.set_sessionReminderEnabled ParentSettings.sessionReminderMs
    ParentSettings.set_sessionReminderMs MissionState.id MissionState.label
    MissionState.kind MissionState.target MissionState.progress
    MissionState.set_progress MissionState.rewardPoints MissionState.timeLimitMs
    MissionState.timeLeftMs MissionState.set_timeLeftMs PlanetCatchStats.mercury
    PlanetCatchStats.set_mercury PlanetCatchStats.venus PlanetCatchStats.set_venus
    PlanetCatchStats.earth PlanetCatchStats.set_earth PlanetCatchStats.mars
    PlanetCatchStats.set_mars PlanetCatchStats.jupiter PlanetCatchStats.set_jupiter
    PlanetCatchStats.saturn PlanetCatchStats.set_saturn PlanetCatchStats.uranus
    PlanetCatchStats.set_uranus PlanetCatchStats.neptune PlanetCatchStats.set_neptune
    PlanetCatchStats.sun PlanetCatchStats.set_sun EventSignal.collect
    EventSignal.set_collect EventSignal.hit EventSignal.set_hit EventSignal.mission
    EventSignal.set_mission EventSignal.badge EventSignal.set_badge EventSignal.level
    EventSignal.set_level EventSignal.unlock EventSignal.set_unlock EventSignal.shield
    EventSignal.set_shield fst snd vec_x vec_y upd_player upd_home upd_sparkBody
    upd_cometBody upd_hazardBody upd_extraPlanets upd_extraBodyAt Collectible_upd_body
    Hazard_upd_body ExtraPlanet_upd_body Events.get Events.set PlanetCatches.get
    PlanetCatches.set bumpCatch liftW getCollectible upd_collectibleBody entityPos
    homePos
  ] in *.

Ltac rd_hyps :=
  cbn [
    arenaWidth set_arenaWidth arenaHeight set_arenaHeight difficulty set_difficulty
    controlSide set_controlSide input set_input lastDirection set_lastDirection player
    set_player spark set_spark comet set_comet home set_home hazard set_hazard
    extraPlanets set_extraPlanets score set_score highScore set_highScore combo
    set_combo comboTimerMs set_comboTimerMs level set_level lives set_lives
    shieldCharges set_shieldCharges invulnerabilityMs set_invulnerabilityMs
    secondChanceUsed set_secondChanceUsed windMode set_windMode isPaused set_isPaused
    isGameOver set_isGameOver announcement set_announcement announcementTimerMs
    set_announcementTimerMs planetChainMs set_planetChainMs missionsCompleted
    set_missionsCompleted missionSeed set_missionSeed currentMission set_currentMission
    planetCatches set_planetCatches learningFact set_learningFact learningFactTimerMs
    set_learningFactTimerMs unlockedSkins set_unlockedSkins selectedSkin
    set_selectedSkin badges set_badges settings set_settings sessionElapsedMs
    set_sessionElapsedMs showBreakReminder set_showBreakReminder eventSignal
    set_eventSignal DynamicEntity.x DynamicEntity.set_x DynamicEntity.y
    DynamicEntity.set_y DynamicEntity.vx DynamicEntity.set_vx DynamicEntity.vy
    DynamicEntity.set_vy DynamicEntity.radius DynamicEntity.set_radius
    DynamicEntity.visible DynamicEntity.set_visible DynamicEntity.cooldownMs
    DynamicEntity.set_cooldownMs DynamicEntity.impactMs DynamicEntity.set_impactMs
    Collectible.body Collectible.set_body Collectible.id Collectible.points
    Collectible.threshold HomePortal.x HomePortal.set_x HomePortal.y HomePortal.set_y
    HomePortal.radius HomePortal.visible HomePortal.set_visible HomePortal.cooldownMs
    HomePortal.set_cooldownMs HomePortal.impactMs HomePortal.set_impactMs
    HomePortal.points HomePortal.threshold Hazard.body Hazard.set_body Hazard.active
    Hazard.set_active ExtraPlanet.body ExtraPlanet.set_body ExtraPlanet.id
    ExtraPlanet.points ExtraPlanet.speedFactor ParentSettings.soundVolume
    ParentSettings.set_soundVolume ParentSettings.vibrationEnabled
    ParentSettings.set_vibrationEnabled ParentSettings.sessionReminderEnabled
    ParentSettings.set_sessionReminderEnabled ParentSettings.sessionReminderMs
    ParentSettings.set_sessionReminderMs MissionState.id MissionState.label
    MissionState.kind MissionState.target MissionState.progress
    MissionState.set_progress MissionState.rewardPoints MissionState.timeLimitMs
    MissionState.timeLeftMs MissionState.set_timeLeftMs PlanetCatchStats.mercury
    PlanetCatchStats.set_mercury PlanetCatchStats.venus PlanetCatchStats.set_venus
    PlanetCatchStats.earth PlanetCatchStats.set_earth PlanetCatchStats.mars
    PlanetCatchStats.set_mars PlanetCatchStats.jupiter PlanetCatchStats.set_jupiter
    PlanetCatchStats.saturn PlanetCatchStats.set_saturn PlanetCatchStats.uranus
    PlanetCatchStats.set_uranus PlanetCatchStats.neptune PlanetCatchStats.set_neptune
    PlanetCatchStats.sun PlanetCatchStats.set_sun EventSignal.collect
    EventSignal.set_collect EventSignal.hit EventSignal.set_hit EventSignal.mission
    EventSignal.set_mission EventSignal.badge EventSignal.set_badge EventSignal.level
    EventSignal.set_level EventSignal.unlock EventSignal.set_unlock EventSignal.shield
    EventSignal.set_shield fst snd vec_x vec_y upd_player upd_home upd_sparkBody
    upd_cometBody upd_hazardBody upd_extraPlanets upd_extraBodyAt Collectible_upd_body
    Hazard_upd_body ExtraPlanet_upd_body Events.get Events.set PlanetCatches.get
    PlanetCatches.set bumpCatch liftW getCollectible upd_collectibleBody entityPos
    homePos
  ] in * |-.

(** ** Numeric facts *)

Lemma Qleb_true (a b : Q) : Qleb a b = true <-> a <= b.
Proof. apply Qle_bool_iff. Qed.

Lemma Qleb_false (a b : Q) : Qleb a b = false <-> b < a.
Proof.
  unfold Qleb. split; intro H.
  - apply Qnot_le_lt. intro L. apply Qle_bool_iff in L. congruence.
  - destruct (Qle_bool a b) eqn:E; [|reflexivity].
    apply Qle_bool_iff in E. exfalso. apply (Qlt_not_le _ _ H E).
Qed.

Lemma Qltb_true (a b : Q) : Qltb a b = true <-> a < b.
Proof. unfold Qltb. rewrite negb_true_iff. apply (Qleb_false b a). Qed.

Lemma Qltb_false (a b : Q) : Qltb a b = false <-> b <= a.
Proof. unfold Qltb. rewrite negb_false_iff. apply (Qleb_true b a). Qed.

Lemma Math_round_inject_Z (z : Z) : Math_round (inject_Z z) = z.
Proof.
  unfold Math_round.
  assert (L : (z <= Qfloor (inject_Z z + 0.5))%Z).
  { rewrite <- (Qfloor_Z z) at 1. apply Qfloor_resp_le. lra. }
  assert (U : (Qfloor (inject_Z z + 0.5) < z + 1)%Z).
  { rewrite Zlt_Qlt. apply Qle_lt_trans with (inject_Z z + 0.5).
    - apply Qfloor_le.
    - rewrite inject_Z_plus. change (inject_Z 1) with 1. lra. }
  lia.
Qed.

Lemma Qmin_bounds (t p a : Q) : 0 <= p -> p <= t -> 0 <= a -> 0 <= Qmin t (p + a) <= t.
Proof.
  intros Hp Ht Ha. split.
  - apply Q.min_glb; lra.
  - apply Q.le_min_l.
Qed.

Lemma clamped_delta (d : Q) : 8 <= Qmin 48 (Qmax 8 d) <= 48.
Proof.
  split.
  - apply Q.min_glb; [lra | apply Q.le_max_l].
  - apply Q.le_min_l.
Qed.

(** ** Tables *)

Lemma baseLives_pos (d : Difficulty) : (3 <= baseLives (getDifficultyConfig d))%Z.
Proof. destruct d; cbn; lia. Qed.

Lemma baseShieldCharges_pos (d : Difficulty) :
  (1 <= baseShieldCharges (getDifficultyConfig d))%Z.
Proof. destruct d; cbn; lia. Qed.

Lemma createMission_fresh (seed : Z) (d : Difficulty) :
  MissionState.progress (createMission seed d) = 0
  /\ (1 <= MissionState.target (createMission seed d))%Z
  /\ (25 <= MissionState.rewardPoints (createMission seed d))%Z.
Proof. unfold createMission; rd. repeat split; lia. Qed.

(** ** The invariant of the discrete state *)

Definition ev_le (a b : EventSignal) : Prop :=
  (EventSignal.collect a <= EventSignal.collect b
   /\ EventSignal.hit a <= EventSignal.hit b
   /\ EventSignal.mission a <= EventSignal.mission b
   /\ EventSignal.badge a <= EventSignal.badge b
   /\ EventSignal.level a <= EventSignal.level b
   /\ EventSignal.unlock a <= EventSignal.unlock b
   /\ EventSignal.shield a <= EventSignal.shield b)%Z.

Lemma ev_le_refl (a : EventSignal) : ev_le a a.
Proof. unfold ev_le; lia. Qed.

Lemma ev_le_trans (a b c : EventSignal) : ev_le a b -> ev_le b c -> ev_le a c.
Proof. unfold ev_le; lia. Qed.

Record Inv (s : GameState) : Prop := mkInv {
  inv_combo : (1 <= combo s <= 9)%Z;
  inv_lives : (0 <= lives s)%Z;
  inv_alive : isGameOver s = false -> (1 <= lives s)%Z;
  inv_shield : (0 <= shieldCharges s)%Z;
  inv_progress :
    0 <= MissionState.progress (currentMission s)
      <= inject_Z (MissionState.target (currentMission s));
  inv_reward : (0 <= MissionState.rewardPoints (currentMission s))%Z
}.

Definition explorer : string := "solar-explorer".

(** How a scoring step relates the high score to the score. *)
Definition high_follows (s s' : GameState) : Prop :=
  (score s <= score s')%Z
  /\ ((highScore s' = highScore s /\ score s' = score s)
      \/ highScore s' = Z.max (highScore s) (score s')).

(** What every part of a tick other than the hazard collision guarantees
    about the discrete state. *)
Record logic_rel (s s' : GameState) : Prop := mkLogic {
  lr_events : ev_le (eventSignal s) (eventSignal s');
  lr_shieldEv : EventSignal.shield (eventSignal s') = EventSignal.shield (eventSignal s);
  lr_high : (highScore s <= highScore s')%Z;
  lr_inv : Inv s -> Inv s';
  lr_score : Inv s -> high_follows s s';
  lr_gameOver : isGameOver s' = isGameOver s;
  lr_paused : isPaused s = true -> isPaused s' = true;
  lr_second : secondChanceUsed s' = secondChanceUsed s;
  lr_difficulty : difficulty s' = difficulty s;
  lr_jupiter :
    PlanetCatchStats.jupiter (planetCatches s') = PlanetCatchStats.jupiter (planetCatches s);
  lr_explorer :
    In explorer (badges s') ->
    In explorer (badges s) \/ (0 < PlanetCatchStats.jupiter (planetCatches s))%Z;
  lr_extras : List.length (extraPlanets s') = List.length (extraPlanets s)
}.

(** The same, for the parts that also leave the player's input and velocity
    alone: all but the steering. *)
Record step_rel (s s' : GameState) : Prop := mkStep {
  sr_logic : logic_rel s s';
  sr_input : input s' = input s;
  sr_vx : DynamicEntity.vx (player s') = DynamicEntity.vx (player s);
  sr_vy : DynamicEntity.vy (player s') = DynamicEntity.vy (player s)
}.

(** What the bookkeeping around a scoring event (announcements, learning
    facts, unlocks and badges, catch counters, impact impulses) leaves alone. *)
Record book_rel (s s' : GameState) : Prop := mkBook {
  br_score : score s' = score s;
  br_highScore : highScore s' = highScore s;
  br_combo : combo s' = combo s;
  br_comboTimerMs : comboTimerMs s' = comboTimerMs s;
  br_level : level s' = level s;
  br_lives : lives s' = lives s;
  br_shieldCharges : shieldCharges s' = shieldCharges s;
  br_invulnerabilityMs : invulnerabilityMs s' = invulnerabilityMs s;
  br_secondChanceUsed : secondChanceUsed s' = secondChanceUsed s;
  br_isGameOver : isGameOver s' = isGameOver s;
  br_isPaused : isPaused s' = isPaused s;
  br_missionsCompleted : missionsCompleted s' = missionsCompleted s;
  br_missionSeed : missionSeed s' = missionSeed s;
  br_currentMission : currentMission s' = currentMission s;
  br_collect :
    EventSignal.collect (eventSignal s') = EventSignal.collect (eventSignal s);
  br_hit : EventSignal.hit (eventSignal s') = EventSignal.hit (eventSignal s);
  br_mission :
    EventSignal.mission (eventSignal s') = EventSignal.mission (eventSignal s);
  br_levelEv : EventSignal.level (eventSignal s') = EventSignal.level (eventSignal s);
  br_shieldEv : EventSignal.shield (eventSignal s') = EventSignal.shield (eventSignal s);
  br_difficulty : difficulty s' = difficulty s;
  br_settings : settings s' = settings s;
  br_sessionElapsedMs : sessionElapsedMs s' = sessionElapsedMs s;
  br_player : player s' = player s;
  br_input : input s' = input s;
  br_arenaWidth : arenaWidth s' = arenaWidth s;
  br_arenaHeight : arenaHeight s' = arenaHeight s
}.

Lemma book_rel_refl (s : GameState) : book_rel s s.
Proof. constructor; reflexivity. Qed.

Lemma book_rel_trans (a b c : GameState) : book_rel a b -> book_rel b c -> book_rel a c.
Proof. intros [] []. constructor; congruence. Qed.

(** A part of the tick keeps what [proj] reads. *)
Definition keeps {A : Type} (proj : GameState -> A) (s s' : GameState) : Prop :=
  proj s' = proj s.

Lemma keeps_refl {A : Type} (proj : GameState -> A) (s : GameState) : keeps proj s s.
Proof. reflexivity. Qed.

Lemma keeps_trans {A : Type} (proj : GameState -> A) (a b c : GameState) :
  keeps proj a b -> keeps proj b c -> keeps proj a c.
Proof. unfold keeps. congruence. Qed.

Lemma high_follows_refl (s : GameState) : high_follows s s.
Proof. unfold high_follows. split; [lia | left; split; reflexivity]. Qed.

Lemma high_follows_trans (a b c : GameState) :
  high_follows a b -> high_follows b c -> high_follows a c.
Proof. unfold high_follows. lia. Qed.

Lemma logic_rel_refl (s : GameState) : logic_rel s s.
Proof.
  constructor; try reflexivity; auto using ev_le_refl, high_follows_refl.
Qed.

Lemma logic_rel_trans (a b c : GameState) :
  logic_rel a b -> logic_rel b c -> logic_rel a c.
Proof.
  intros [] []. constructor; try congruence; try lia.
  - eapply ev_le_trans; eassumption.
  - auto.
  - intro I. eapply high_follows_trans; eauto.
  - auto.
  - intro H. destruct (lr_explorer1 H) as [H1|H1]; [auto | right; congruence].
Qed.

Lemma step_rel_refl (s : GameState) : step_rel s s.
Proof. constructor; try reflexivity. apply logic_rel_refl. Qed.

Lemma step_rel_trans (a b c : GameState) : step_rel a b -> step_rel b c -> step_rel a c.
Proof.
  intros [] []. constructor; try congruence.
  eapply logic_rel_trans; eassumption.
Qed.

Lemma list_update_length {A : Type} (i : nat) (f : A -> A) (l : list A) :
  List.length (list_update i f l) = List.length l.
Proof.
  revert i. induction l as [|a l IH]; intros [|i]; cbn; try reflexivity.
  rewrite IH. reflexivity.
Qed.

Lemma nth_error_list_update {A : Type} (i : nat) (f : A -> A) (l : list A) :
  nth_error (list_update i f l) i = option_map f (nth_error l i).
Proof.
  revert i. induction l as [|a l IH]; intros [|i]; cbn; try reflexivity.
  apply IH.
Qed.

Lemma nth_error_list_update_other {A : Type} (i j : nat) (f : A -> A) (l : list A) :
  i <> j -> nth_error (list_update i f l) j = nth_error l j.
Proof.
  revert i j. induction l as [|a l IH]; intros [|i] [|j] N; cbn; try reflexivity.
  - congruence.
  - apply IH. congruence.
Qed.

Lemma zipBodies_length (bodies : list DynamicEntity) (planets : list ExtraPlanet) :
  List.length (zipBodies bodies planets) = List.length planets.
Proof.
  revert planets. induction bodies as [|b bs IH]; intros [|p ps]; cbn; try reflexivity.
  rewrite IH. reflexivity.
Qed.

(** The goals of a relation, field by field. *)
Ltac split_rel :=
  lazymatch goal with
  | |- step_rel _ _ => constructor; [constructor|..]
  | |- logic_rel _ _ => constructor
  | |- book_rel _ _ => constructor
  end.

Ltac same_length :=
  rd; rewrite ?length_map, ?list_update_length, ?zipBodies_length; reflexivity.

(** A stage that touches none of the fields the relations and [Inv] read. *)
Ltac quiet_step :=
  split_rel; rd;
  try reflexivity; try lia; auto using ev_le_refl;
  try (intros [? ? ? ? ? ?]; constructor; rd_all; assumption);
  try (intros _; unfold high_follows; rd; lia);
  try same_length.

Create HintDb step discriminated.

Lemma step_when (c : GameState -> bool) (f : GameState -> GameState) (s : GameState) :
  (forall y, step_rel y (f y)) -> step_rel s (when c f s).
Proof. intro H. unfold when. destruct (c s); [apply H | apply step_rel_refl]. Qed.

Lemma book_when (c : GameState -> bool) (f : GameState -> GameState) (s : GameState) :
  (forall y, book_rel y (f y)) -> book_rel s (when c f s).
Proof. intro H. unfold when. destruct (c s); [apply H | apply book_rel_refl]. Qed.

Lemma keeps_when {A : Type} (proj : GameState -> A) (c : GameState -> bool)
  (f : GameState -> GameState) (s : GameState) :
  (forall y, keeps proj y (f y)) -> keeps proj s (when c f s).
Proof. intro H. unfold when. destruct (c s); [apply H | apply keeps_refl]. Qed.

Lemma logic_when (c : GameState -> bool) (f : GameState -> GameState) (s : GameState) :
  (forall y, logic_rel y (f y)) -> logic_rel s (when c f s).
Proof. intro H. unfold when. destruct (c s); [apply H | apply logic_rel_refl]. Qed.

(** A stage that is a plain field update: the fields it leaves alone are read
    back unchanged, and the invariant follows by arithmetic. *)
Ltac leaf_step :=
  lazymatch goal with
  | |- _ ?g _ => pose proof (baseLives_pos (difficulty g))
  end;
  split_rel; rd;
  try reflexivity; try lia; auto using ev_le_refl;
  try (let I := fresh "I" in
       intros I; destruct I; constructor; rd_all; intros; auto; lia);
  try (intros _; unfold high_follows; rd; lia);
  try same_length.

(** [chain] walks a pipeline from its last stage back to the state it
    started from, closing each stage with the lemmas of the [step] database
    or as a plain field update. *)
Ltac chain_leaf :=
  first
    [ solve [auto 2 with step]
    | solve [leaf_step]
    | solve [unfold keeps; rd; reflexivity] ].

Ltac chain_trans s x fx :=
  lazymatch goal with
  | |- step_rel _ _ => apply (step_rel_trans s x fx)
  | |- logic_rel _ _ => apply (logic_rel_trans s x fx)
  | |- book_rel _ _ => apply (book_rel_trans s x fx)
  | |- keeps ?p _ _ => apply (keeps_trans p s x fx)
  end.

Ltac chain :=
  lazymatch goal with
  | |- step_rel ?s ?s => apply step_rel_refl
  | |- logic_rel ?s ?s => apply logic_rel_refl
  | |- book_rel ?s ?s => apply book_rel_refl
  | |- keeps _ ?s ?s => apply keeps_refl
  | |- _ ?s (?f ?x) =>
      first
        [ solve [auto 2 with step]
        | chain_trans s x (f x); [ chain | generalize x; intro; chain_leaf ] ]
  end.

Lemma step_setAnnouncement text timerMs s : step_rel s (setAnnouncement text timerMs s).
Proof. unfold setAnnouncement. quiet_step. Qed.

Lemma step_setLearningFact key s : step_rel s (setLearningFact key s).
Proof. unfold setLearningFact. quiet_step. Qed.

#[local] Hint Resolve step_setAnnouncement step_setLearningFact : step.

Lemma step_addScore (p : Z) (s : GameState) :
  (Inv s -> (0 <= p)%Z) -> step_rel s (refreshHighScore (set_score (score s + p) s)).
Proof.
  intro Hp. unfold refreshHighScore. rd.
  destruct (highScore s <? score s + p)%Z eqn:E;
    [apply Z.ltb_lt in E | apply Z.ltb_ge in E].
  - split_rel; rd; try reflexivity; try lia; auto using ev_le_refl.
    + intros [? ? ? ? ? ?]; constructor; rd_all; assumption.
    + intro I. specialize (Hp I). unfold high_follows; rd. lia.
  - split_rel; rd; try reflexivity; try lia; auto using ev_le_refl.
    + intros [? ? ? ? ? ?]; constructor; rd_all; assumption.
    + intro I. specialize (Hp I). unfold high_follows; rd. lia.
Qed.

Lemma ev_le_incr (key : EventKey) (e : EventSignal) :
  ev_le e (Events.set key (Events.get key e + 1) e).
Proof. destruct key; unfold ev_le; rd; lia. Qed.

Lemma step_incrementEvent (key : EventKey) (s : GameState) :
  key <> EvShield -> step_rel s (incrementEvent key s).
Proof.
  intro K. unfold incrementEvent.
  split_rel; rd; try reflexivity; try lia; auto using ev_le_incr.
  - destruct key; rd; congruence.
  - intros [? ? ? ? ? ?]; constructor; rd_all; assumption.
  - intros _; unfold high_follows; rd; lia.
Qed.

Lemma step_unlockSkin skin message s : step_rel s (unlockSkin skin message s).
Proof.
  unfold unlockSkin. destruct (existsb _ _); [apply step_rel_refl|].
  apply step_rel_trans with (incrementEvent EvUnlock (set_unlockedSkins (unlockedSkins s ++ [skin]) s)).
  - apply step_rel_trans with (set_unlockedSkins (unlockedSkins s ++ [skin]) s).
    + quiet_step.
    + apply step_incrementEvent. discriminate.
  - apply step_setAnnouncement.
Qed.

Lemma step_grantBadge badgeId message s :
  badgeId <> explorer -> step_rel s (grantBadge badgeId message s).
Proof.
  intro N. unfold grantBadge. destruct (existsb _ _); [apply step_rel_refl|].
  apply step_rel_trans with (incrementEvent EvBadge (set_badges (badges s ++ [badgeId]) s)).
  - apply step_rel_trans with (set_badges (badges s ++ [badgeId]) s).
    + quiet_step. intro H. apply in_app_or in H. destruct H as [H|[H|[]]]; [auto | congruence].
    + apply step_incrementEvent. discriminate.
  - apply step_setAnnouncement.
Qed.

Lemma caughtAllPlanets_jupiter (s : GameState) :
  caughtAllPlanets s = true -> (0 < PlanetCatchStats.jupiter (planetCatches s))%Z.
Proof.
  unfold caughtAllPlanets. rewrite !andb_true_iff. intros H.
  decompose [and] H. apply Z.ltb_lt. assumption.
Qed.

Lemma step_grantExplorer message s :
  step_rel s (when caughtAllPlanets (grantBadge explorer message) s).
Proof.
  unfold when. destruct (caughtAllPlanets s) eqn:C; [|apply step_rel_refl].
  apply caughtAllPlanets_jupiter in C.
  unfold grantBadge. destruct (existsb _ _); [apply step_rel_refl|].
  apply step_rel_trans with (incrementEvent EvBadge (set_badges (badges s ++ [explorer]) s)).
  - apply step_rel_trans with (set_badges (badges s ++ [explorer]) s).
    + quiet_step.
    + apply step_incrementEvent. discriminate.
  - apply step_setAnnouncement.
Qed.

Lemma step_maybeLevelUp s : step_rel s (maybeLevelUp s).
Proof.
  unfold maybeLevelUp. cbv zeta. destruct (_ <? _)%Z; [|apply step_rel_refl].
  eapply step_rel_trans; [|apply step_setAnnouncement].
  eapply step_rel_trans; [|apply step_incrementEvent; discriminate].
  split_rel; rd; try reflexivity; try lia; auto using ev_le_refl.
  - intros [? ? ? ? ? ?]; constructor; rd_all; try assumption; lia.
  - intros _; unfold high_follows; rd; lia.
Qed.

#[local] Hint Extern 1 (step_rel _ (when _ _ _)) =>
  apply step_when; intro; cbv beta; chain : step.
#[local] Hint Extern 1 (logic_rel _ (when _ _ _)) =>
  apply logic_when; intro; cbv beta; chain : step.
#[local] Hint Extern 1 (book_rel _ (when _ _ _)) =>
  apply book_when; intro; cbv beta; chain : step.
#[local] Hint Extern 1 (keeps _ _ (when _ _ _)) =>
  apply keeps_when; intro; cbv beta; chain : step.
#[local] Hint Resolve step_unlockSkin step_grantExplorer step_maybeLevelUp : step.
#[local] Hint Extern 1 (step_rel _ (grantBadge _ _ _)) =>
  apply step_grantBadge; discriminate : step.
#[local] Hint Extern 1 (step_rel _ (incrementEvent _ _)) =>
  apply step_incrementEvent; discriminate : step.

Lemma step_checkUnlocksAndBadges s : step_rel s (checkUnlocksAndBadges s).
Proof. unfold checkUnlocksAndBadges. chain. Qed.

#[local] Hint Resolve step_checkUnlocksAndBadges : step.

Lemma step_createNextMission s : step_rel s (createNextMission s).
Proof.
  unfold createNextMission.
  destruct (createMission_fresh (missionSeed s + 1) (difficulty s)) as (P & T & R).
  split_rel; rd; try reflexivity; try lia; auto using ev_le_refl.
  - intros [? ? ? ? ? ?]; constructor; rd_all; auto; try lia.
    rewrite P. split; [lra|].
    change 0 with (inject_Z 0). rewrite <- Zle_Qle. lia.
  - intros _; unfold high_follows; rd; lia.
Qed.

#[local] Hint Resolve step_createNextMission : step.
#[local] Hint Extern 1 (step_rel ?s (refreshHighScore (set_score _ ?s))) =>
  apply step_addScore; first [ lia | intros [? ? ? ? ? ?]; assumption ] : step.

Lemma step_completeMission s : step_rel s (completeMission s).
Proof.
  unfold completeMission. cbv zeta.
  chain.
Qed.

#[local] Hint Resolve step_completeMission : step.

Lemma step_failMission s : step_rel s (failMission s).
Proof. unfold failMission. chain. Qed.

#[local] Hint Resolve step_failMission : step.

Lemma step_progressMission kind amount s :
  0 <= amount -> step_rel s (progressMission kind amount s).
Proof.
  intro A. unfold progressMission. destruct (negb _); [apply step_rel_refl|].
  cbv zeta. eapply step_rel_trans; [|apply step_when; intro; apply step_completeMission].
  split_rel; rd; try reflexivity; try lia; auto using ev_le_refl.
  - intros [? ? ? ? ? ?]; constructor; rd_all; auto.
    apply Qmin_bounds; tauto.
  - intros _; unfold high_follows; rd; lia.
Qed.

Lemma step_collectPoints points text s : step_rel s (collectPoints points text s).
Proof. unfold collectPoints. cbv zeta. chain. Qed.

Lemma step_bumpCatch key s : key <> Jupiter -> step_rel s (bumpCatch key s).
Proof.
  intro K. unfold bumpCatch.
  split_rel; rd; try reflexivity; try lia; auto using ev_le_refl.
  - intros [? ? ? ? ? ?]; constructor; rd_all; assumption.
  - intros _; unfold high_follows; rd; lia.
  - destruct key; try reflexivity; congruence.
Qed.

#[local] Hint Resolve step_collectPoints : step.
#[local] Hint Extern 1 (step_rel _ (bumpCatch _ _)) =>
  apply step_bumpCatch; discriminate : step.
#[local] Hint Extern 1 (step_rel _ (progressMission _ _ _)) =>
  apply step_progressMission; lra : step.


(** ** Bookkeeping leaves the game alone *)

Lemma book_setAnnouncement text timerMs s : book_rel s (setAnnouncement text timerMs s).
Proof. unfold setAnnouncement. constructor; reflexivity. Qed.

Lemma book_setLearningFact key s : book_rel s (setLearningFact key s).
Proof. unfold setLearningFact. constructor; reflexivity. Qed.

Lemma book_bumpCatch key s : book_rel s (bumpCatch key s).
Proof. unfold bumpCatch. constructor; reflexivity. Qed.

Lemma book_unlockSkin skin message s : book_rel s (unlockSkin skin message s).
Proof.
  unfold unlockSkin. destruct (existsb _ _); [apply book_rel_refl|].
  unfold setAnnouncement, incrementEvent. constructor; reflexivity.
Qed.

Lemma book_grantBadge badgeId message s : book_rel s (grantBadge badgeId message s).
Proof.
  unfold grantBadge. destruct (existsb _ _); [apply book_rel_refl|].
  unfold setAnnouncement, incrementEvent. constructor; reflexivity.
Qed.

#[local] Hint Resolve book_setAnnouncement book_setLearningFact book_bumpCatch
  book_unlockSkin book_grantBadge : step.

Lemma book_checkUnlocksAndBadges s : book_rel s (checkUnlocksAndBadges s).
Proof. unfold checkUnlocksAndBadges. chain. Qed.

#[local] Hint Resolve book_checkUnlocksAndBadges : step.

(** ** Scoring, field by field *)

(** The level the score calls for. *)
Definition levelFor (s : GameState) (score : Z) : Z :=
  (score / levelScoreStep (getDifficultyConfig (difficulty s)) + 1)%Z.

Record levelUp_rel (s s' : GameState) : Prop := mkLevelUp {
  lu_level : level s' = Z.max (level s) (levelFor s (score s));
  lu_shieldCharges :
    shieldCharges s'
    = if (level s <? levelFor s (score s))%Z then Z.min 5 (shieldCharges s + 1)
      else shieldCharges s;
  lu_levelEv :
    EventSignal.level (eventSignal s')
    = (EventSignal.level (eventSignal s)
       + if (level s <? levelFor s (score s))%Z then 1 else 0)%Z;
  lu_score : score s' = score s;
  lu_highScore : highScore s' = highScore s;
  lu_combo : combo s' = combo s;
  lu_comboTimerMs : comboTimerMs s' = comboTimerMs s;
  lu_lives : lives s' = lives s;
  lu_currentMission : currentMission s' = currentMission s;
  lu_missionsCompleted : missionsCompleted s' = missionsCompleted s;
  lu_missionSeed : missionSeed s' = missionSeed s;
  lu_difficulty : difficulty s' = difficulty s;
  lu_collect :
    EventSignal.collect (eventSignal s') = EventSignal.collect (eventSignal s);
  lu_mission :
    EventSignal.mission (eventSignal s') = EventSignal.mission (eventSignal s);
  lu_shieldEv : EventSignal.shield (eventSignal s') = EventSignal.shield (eventSignal s);
  lu_isGameOver : isGameOver s' = isGameOver s;
  lu_secondChanceUsed : secondChanceUsed s' = secondChanceUsed s
}.

Lemma maybeLevelUp_fields s : levelUp_rel s (maybeLevelUp s).
Proof.
  unfold maybeLevelUp, incrementEvent, setAnnouncement. cbv zeta.
  fold (levelFor s (score s)).
  destruct (level s <? levelFor s (score s))%Z eqn:E;
    constructor; rd; rewrite ?E; try reflexivity;
    first [apply Z.ltb_lt in E | apply Z.ltb_ge in E]; lia.
Qed.

(** Closes [proj s' = ...] from an equation on [proj s'] and one on the state
    in between. *)
Ltac by_fields :=
  (etransitivity; [once eassumption|]);
  first
    [ assumption
    | reflexivity
    | solve [f_equal; assumption]
    | solve [f_equal; f_equal; assumption] ].

(** The same by rewriting, when the field occurs inside a larger term. *)
Ltac rewrite_fields :=
  repeat match goal with
         | H : ?l = _ |- context [?l] => rewrite H; clear H
         end;
  reflexivity.

Lemma set_highScore_same s : set_highScore (highScore s) s = s.
Proof. destruct s; reflexivity. Qed.

Lemma refreshHighScore_max s :
  refreshHighScore s = set_highScore (Z.max (highScore s) (score s)) s.
Proof.
  unfold refreshHighScore.
  destruct (highScore s <? score s)%Z eqn:E;
    [apply Z.ltb_lt in E | apply Z.ltb_ge in E].
  - rewrite Z.max_r by lia. reflexivity.
  - rewrite Z.max_l by lia. symmetry. apply set_highScore_same.
Qed.

(** What [collectPoints] does with [gained] points. *)
Record collect_rel (gained : Z) (s s' : GameState) : Prop := mkCollect {
  cl_score : score s' = (score s + gained)%Z;
  cl_highScore : highScore s' = Z.max (highScore s) (score s + gained);
  cl_combo : combo s' = Z.min 9 (combo s + 1);
  cl_comboTimerMs : comboTimerMs s' = COMBO_WINDOW_MS;
  cl_collect :
    EventSignal.collect (eventSignal s') = (EventSignal.collect (eventSignal s) + 1)%Z;
  cl_level : level s' = Z.max (level s) (levelFor s (score s + gained));
  cl_shieldCharges :
    shieldCharges s'
    = if (level s <? levelFor s (score s + gained))%Z
      then Z.min 5 (shieldCharges s + 1) else shieldCharges s;
  cl_levelEv :
    EventSignal.level (eventSignal s')
    = (EventSignal.level (eventSignal s)
       + if (level s <? levelFor s (score s + gained))%Z then 1 else 0)%Z;
  cl_lives : lives s' = lives s;
  cl_currentMission : currentMission s' = currentMission s;
  cl_missionsCompleted : missionsCompleted s' = missionsCompleted s;
  cl_difficulty : difficulty s' = difficulty s;
  cl_mission :
    EventSignal.mission (eventSignal s') = EventSignal.mission (eventSignal s);
  cl_shieldEv : EventSignal.shield (eventSignal s') = EventSignal.shield (eventSignal s);
  cl_isGameOver : isGameOver s' = isGameOver s;
  cl_secondChanceUsed : secondChanceUsed s' = secondChanceUsed s
}.

Lemma collectPoints_fields points text s :
  collect_rel (Z.max 0 (Math_round points)) s (collectPoints points text s).
Proof.
  unfold collectPoints, setAnnouncement, incrementEvent. cbv zeta.
  generalize (Z.max 0 (Math_round points)). intro gained.
  rewrite refreshHighScore_max.
  match goal with
  | |- context [maybeLevelUp ?y] =>
      generalize (maybeLevelUp_fields y); generalize (maybeLevelUp y)
  end.
  intros leveled []. unfold levelFor in *. rd_hyps.
  match goal with
  | |- collect_rel _ _ (checkUnlocksAndBadges ?y) =>
      generalize (book_checkUnlocksAndBadges y); generalize (checkUnlocksAndBadges y)
  end.
  intros checked []. rd_hyps.
  constructor; unfold levelFor; by_fields.
Qed.

(** The current mission is of kind [kind] and [amount] more progress
    completes it. *)
Definition missionCompletesBy (kind : MissionKind) (amount : Q) (s : GameState) : bool :=
  let mission := currentMission s in
  MissionKind_eqb (MissionState.kind mission) kind
  && Qleb (inject_Z (MissionState.target mission))
          (Qmin (inject_Z (MissionState.target mission))
                (MissionState.progress mission + amount)).

(** What completing the current mission does. *)
Record complete_rel (s s' : GameState) : Prop := mkComplete {
  cm_score : score s' = (score s + MissionState.rewardPoints (currentMission s))%Z;
  cm_combo : combo s' = combo s;
  cm_comboTimerMs : comboTimerMs s' = comboTimerMs s;
  cm_collect :
    EventSignal.collect (eventSignal s') = EventSignal.collect (eventSignal s);
  cm_mission :
    EventSignal.mission (eventSignal s')
    = (EventSignal.mission (eventSignal s) + 1)%Z;
  cm_shieldEv : EventSignal.shield (eventSignal s') = EventSignal.shield (eventSignal s);
  cm_lives :
    lives s'
    = Z.min (baseLives (getDifficultyConfig (difficulty s)) + 1) (lives s + 1);
  cm_missionsCompleted : missionsCompleted s' = (missionsCompleted s + 1)%Z;
  cm_missionSeed : missionSeed s' = (missionSeed s + 1)%Z;
  cm_currentMission :
    currentMission s' = createMission (missionSeed s + 1) (difficulty s);
  cm_difficulty : difficulty s' = difficulty s;
  cm_isGameOver : isGameOver s' = isGameOver s;
  cm_secondChanceUsed : secondChanceUsed s' = secondChanceUsed s
}.

Lemma completeMission_fields s : complete_rel s (completeMission s).
Proof.
  unfold completeMission, createNextMission, setAnnouncement, incrementEvent. cbv zeta.
  rewrite refreshHighScore_max.
  match goal with
  | |- context [maybeLevelUp ?y] =>
      generalize (maybeLevelUp_fields y); generalize (maybeLevelUp y)
  end.
  intros leveled []. rd_hyps.
  match goal with
  | |- context [checkUnlocksAndBadges ?y] =>
      generalize (book_checkUnlocksAndBadges y); generalize (checkUnlocksAndBadges y)
  end.
  intros checked []. rd_hyps.
  constructor; rd; try reflexivity; first [by_fields | rewrite_fields].
Qed.

Lemma progressMission_completes kind amount s :
  missionCompletesBy kind amount s = true ->
  progressMission kind amount s
  = completeMission
      (set_currentMission
         (MissionState.set_progress
            (Qmin (inject_Z (MissionState.target (currentMission s)))
                  (MissionState.progress (currentMission s) + amount))
            (currentMission s)) s).
Proof.
  unfold missionCompletesBy, progressMission, when. cbv zeta.
  rewrite andb_true_iff. intros [K T]. rewrite K. cbn [negb]. rd. rewrite T.
  reflexivity.
Qed.

Lemma progressMission_continues kind amount s :
  missionCompletesBy kind amount s = false ->
  progressMission kind amount s = s
  \/ progressMission kind amount s
     = set_currentMission
         (MissionState.set_progress
            (Qmin (inject_Z (MissionState.target (currentMission s)))
                  (MissionState.progress (currentMission s) + amount))
            (currentMission s)) s.
Proof.
  unfold missionCompletesBy, progressMission, when. cbv zeta.
  destruct (MissionKind_eqb _ _); cbn [negb andb]; [|left; reflexivity].
  rd. intro T. rewrite T. right. reflexivity.
Qed.

(** ** The parts of a tick *)

Section Frames.

Variable hypot : Q -> Q -> Q.
Variable pow : Q -> Q -> Q.

Lemma step_upd_sparkBody f s : step_rel s (upd_sparkBody f s).
Proof. quiet_step. Qed.

Lemma step_upd_cometBody f s : step_rel s (upd_cometBody f s).
Proof. quiet_step. Qed.

Lemma step_upd_hazardBody f s : step_rel s (upd_hazardBody f s).
Proof. quiet_step. Qed.

Lemma step_upd_home f s : step_rel s (upd_home f s).
Proof. quiet_step. Qed.

Lemma step_upd_extraPlanets f s : step_rel s (upd_extraPlanets f s).
Proof. quiet_step. Qed.

Lemma step_upd_extraBodyAt i f s : step_rel s (upd_extraBodyAt i f s).
Proof. quiet_step. Qed.

Lemma step_upd_collectibleBody slot f s : step_rel s (upd_collectibleBody slot f s).
Proof. destruct slot; quiet_step. Qed.

Hint Resolve step_upd_sparkBody step_upd_cometBody step_upd_hazardBody step_upd_home
  step_upd_extraPlanets step_upd_extraBodyAt step_upd_collectibleBody : step.

Lemma step_upd_movingBodies f s : step_rel s (upd_movingBodies f s).
Proof. unfold upd_movingBodies. chain. Qed.

Hint Resolve step_upd_movingBodies : step.

Lemma step_triggerPlanetImpact source s : step_rel s (triggerPlanetImpact hypot source s).
Proof. unfold triggerPlanetImpact. cbv zeta. chain. Qed.

Lemma step_applySolarInfluence frameScale s :
  step_rel s (applySolarInfluence hypot frameScale s).
Proof. unfold applySolarInfluence. cbv zeta. chain. Qed.

Lemma step_putMovingPlanets planets s : step_rel s (putMovingPlanets planets s).
Proof.
  unfold putMovingPlanets.
  destruct planets as [|a [|b [|c rest]]]; try apply step_rel_refl.
  quiet_step.
Qed.

Lemma step_resolvePlanetCollisions s : step_rel s (resolvePlanetCollisions hypot s).
Proof. unfold resolvePlanetCollisions. apply step_putMovingPlanets. Qed.

Hint Resolve step_triggerPlanetImpact step_applySolarInfluence
  step_resolvePlanetCollisions : step.

Lemma step_applyExtraPlanetEffect id s : step_rel s (applyExtraPlanetEffect id s).
Proof. unfold applyExtraPlanetEffect. destruct id; chain. Qed.

Hint Resolve step_applyExtraPlanetEffect : step.

Lemma step_advanceCollectible slot frameScale s :
  step_rel s (advanceCollectible hypot slot frameScale s).
Proof. unfold advanceCollectible. cbv zeta. chain. Qed.

Lemma step_pickupCollectible slot w :
  step_rel (fst w) (fst (pickupCollectible hypot slot w)).
Proof.
  unfold pickupCollectible. cbv zeta. cbn [fst snd].
  destruct (Collectible.id (getCollectible slot (fst w))); chain.
Qed.

Lemma step_moveCollectible slot deltaMs frameScale w :
  step_rel (fst w) (fst (moveCollectible hypot slot deltaMs frameScale w)).
Proof.
  unfold moveCollectible. cbv zeta.
  pose proof (step_advanceCollectible slot frameScale (fst w)) as A.
  destruct (collectibleCoolingDown _ _).
  - cbn [fst]. eapply step_rel_trans; [exact A|]. auto with step.
  - destruct (collectibleTouched _ _ _).
    + eapply step_rel_trans; [exact A|].
      apply (step_pickupCollectible slot (_, snd w)).
    + exact A.
Qed.

Lemma step_advanceExtraPlanet index frameScale planet s :
  step_rel s (advanceExtraPlanet hypot index frameScale planet s).
Proof. unfold advanceExtraPlanet. cbv zeta. chain. Qed.

Lemma step_pickupExtraPlanet index planet w :
  step_rel (fst w) (fst (pickupExtraPlanet hypot index planet w)).
Proof. unfold pickupExtraPlanet. cbv zeta. cbn [fst snd]. destruct (ExtraPlanet.id planet); chain. Qed.

Lemma step_moveExtraPlanetAt deltaMs frameScale w index :
  step_rel (fst w) (fst (moveExtraPlanetAt hypot deltaMs frameScale w index)).
Proof.
  unfold moveExtraPlanetAt.
  destruct (nth_error (extraPlanets (fst w)) index) as [planet0|];
    [|apply step_rel_refl].
  cbv zeta.
  pose proof (step_advanceExtraPlanet index frameScale planet0 (fst w)) as A.
  destruct (nth_error _ index) as [planet|]; [|exact A].
  destruct (extraPlanetCoolingDown planet).
  - cbn [fst]. eapply step_rel_trans; [exact A|]. auto with step.
  - destruct (extraPlanetOutOfReach _ _ _); [exact A|].
    eapply step_rel_trans; [exact A|].
    apply (step_pickupExtraPlanet index planet (_, snd w)).
Qed.

Lemma step_fold_moveExtraPlanetAt deltaMs frameScale indices w :
  step_rel (fst w)
    (fst (fold_left (moveExtraPlanetAt hypot deltaMs frameScale) indices w)).
Proof.
  revert w. induction indices as [|i rest IH]; intro w; cbn [fold_left].
  - apply step_rel_refl.
  - eapply step_rel_trans; [apply step_moveExtraPlanetAt | apply IH].
Qed.

Lemma step_moveExtraPlanets deltaMs frameScale w :
  step_rel (fst w) (fst (moveExtraPlanets hypot deltaMs frameScale w)).
Proof. unfold moveExtraPlanets. apply step_fold_moveExtraPlanetAt. Qed.

Lemma step_pickupHome w : step_rel (fst w) (fst (pickupHome hypot w)).
Proof. unfold pickupHome. cbv zeta. cbn [fst snd]. chain. Qed.

Lemma step_moveHome deltaMs w : step_rel (fst w) (fst (moveHome hypot deltaMs w)).
Proof.
  unfold moveHome. cbv zeta.
  pose proof (step_upd_home (HomePortal.set_visible true) (fst w)) as A.
  destruct (homeCoolingDown _).
  - cbn [fst]. eapply step_rel_trans; [exact A|]. auto with step.
  - destruct (homeTouched _ _).
    + eapply step_rel_trans; [exact A|]. apply (step_pickupHome (_, snd w)).
    + exact A.
Qed.

Lemma logic_steerPlayer frameScale s : logic_rel s (steerPlayer hypot pow frameScale s).
Proof. unfold steerPlayer. cbv zeta. chain. Qed.

Lemma step_decayTimers deltaMs s : 0 <= deltaMs -> step_rel s (decayTimers deltaMs s).
Proof.
  intro D.
  assert (A : 0 <= deltaMs / 1000) by (apply Qle_shift_div_l; lra).
  unfold decayTimers. cbv zeta. chain.
Qed.

Lemma step_advanceHazard frameScale s : step_rel s (advanceHazard hypot frameScale s).
Proof. unfold advanceHazard. cbv zeta. chain. Qed.

(** *** The hazard collision *)

(** The five ways a collision with the hazard ends. *)
Inductive HazardOutcome : Type :=
  Invulnerable | Shielded | Hit | SecondChance | GameOver.

(** The outcome [collideHazard] takes in state [s]. *)
Definition hazardOutcome (s : GameState) : HazardOutcome :=
  if Qltb 0 (invulnerabilityMs s) then Invulnerable
  else if (0 <? shieldCharges s)%Z then Shielded
  else if (lives s - 1 <=? 0)%Z then
    if negb (secondChanceUsed s) then SecondChance else GameOver
  else Hit.

Ltac open_collideHazard :=
  unfold collideHazard, hazardOutcome, when, outOfLives, triggerPlanetImpact,
    upd_movingBodies, incrementEvent, setAnnouncement, setLearningFact;
  cbv zeta; rd.

(** What a collision does to the discrete state, whatever its outcome. *)
Record hazard_rel (s s' : GameState) : Prop := mkHazard {
  hr_events : ev_le (eventSignal s) (eventSignal s');
  hr_high : highScore s' = highScore s;
  hr_score : score s' = score s;
  hr_inv : Inv s -> isGameOver s = false -> Inv s';
  hr_difficulty : difficulty s' = difficulty s;
  hr_badges : badges s' = badges s;
  hr_paused : isPaused s = true -> isPaused s' = true;
  hr_jupiter :
    PlanetCatchStats.jupiter (planetCatches s')
    = (PlanetCatchStats.jupiter (planetCatches s) + 1)%Z
}.

Lemma hazard_collideHazard w : hazard_rel (fst w) (fst (collideHazard hypot w)).
Proof.
  destruct w as [s r]. cbn [fst].
  open_collideHazard.
  destruct (Qltb 0 (invulnerabilityMs s)); [|destruct (0 <? shieldCharges s)%Z eqn:S];
    rd.
  - constructor; rd; try reflexivity; auto using ev_le_refl.
    intros [? ? ? ? ? ?] _; constructor; rd_all; assumption.
  - apply Z.ltb_lt in S.
    constructor; rd; try reflexivity; auto.
    + unfold ev_le; rd; lia.
    + intros [? ? ? ? ? ?] _; constructor; rd_all; auto; lia.
  - apply Z.ltb_ge in S.
    destruct (lives s - 1 <=? 0)%Z eqn:L; rd;
      [apply Z.leb_le in L | apply Z.leb_gt in L];
      [destruct (negb (secondChanceUsed s)); rd|].
    + constructor; rd; try reflexivity; auto.
      * unfold ev_le; rd; lia.
      * intros [? ? ? ? ? ?] G; constructor; rd_all; auto; lia.
    + constructor; rd; try reflexivity; auto.
      * unfold ev_le; rd; lia.
      * intros [? ? ? ? ? ?] G; specialize (inv_alive0 G).
        constructor; rd_all; auto; try lia.
    + constructor; rd; try reflexivity; auto.
      * unfold ev_le; rd; lia.
      * intros [? ? ? ? ? ?] G; constructor; rd_all; auto; lia.
Qed.

(** *** The tick, phase by phase *)

Definition clampDelta (payloadDeltaMs : Q) : Q := Qmin 48 (Qmax 8 payloadDeltaMs).

Definition frameScaleOf (payloadDeltaMs : Q) : Q := clampDelta payloadDeltaMs / 16.6667.

(** The tick up to the call of [moveHazard]. *)
Definition tickUntilHazard (payloadDeltaMs : Q) (w : W) : W :=
  let deltaMs := clampDelta payloadDeltaMs in
  let frameScale := frameScaleOf payloadDeltaMs in
  w |> liftW (steerPlayer hypot pow frameScale)
    |> liftW (applySolarInfluence hypot frameScale)
    |> moveCollectible hypot SlotSpark deltaMs frameScale
    |> moveCollectible hypot SlotComet deltaMs frameScale
    |> moveExtraPlanets hypot deltaMs frameScale
    |> moveHome hypot deltaMs.

(** The tick after the call of [moveHazard]. *)
Definition tickAfterHazard (payloadDeltaMs : Q) (w : W) : W :=
  w |> liftW (resolvePlanetCollisions hypot)
    |> liftW (decayTimers (clampDelta payloadDeltaMs)).

Lemma tick_phases (payloadDeltaMs : Q) (w : W) :
  tickBlocked (fst w) = false ->
  tick hypot pow payloadDeltaMs w
  = tickAfterHazard payloadDeltaMs
      (moveHazard hypot (clampDelta payloadDeltaMs) (frameScaleOf payloadDeltaMs)
         (tickUntilHazard payloadDeltaMs w)).
Proof.
  intro B.
  unfold tick, tickAfterHazard, tickUntilHazard, frameScaleOf, clampDelta.
  rewrite B. cbv zeta. reflexivity.
Qed.

Lemma tick_blocked (payloadDeltaMs : Q) (w : W) :
  tickBlocked (fst w) = true -> tick hypot pow payloadDeltaMs w = w.
Proof. intro B. unfold tick. rewrite B. reflexivity. Qed.

(** The collision test of [moveHazard]: after the hazard has moved, it is off
    cooldown and within reach of the player. *)
Definition hazardCollides (frameScale : Q) (s : GameState) : bool :=
  let moved := advanceHazard hypot frameScale s in
  negb (hazardCoolingDown moved) && hazardTouched hypot moved.

Lemma moveHazard_collides deltaMs frameScale w :
  hazardCollides frameScale (fst w) = true ->
  moveHazard hypot deltaMs frameScale w
  = collideHazard hypot (advanceHazard hypot frameScale (fst w), snd w).
Proof.
  unfold hazardCollides, moveHazard. cbv zeta.
  rewrite andb_true_iff, negb_true_iff. intros [C T]. rewrite C, T. reflexivity.
Qed.

Lemma moveHazard_misses deltaMs frameScale w :
  hazardCollides frameScale (fst w) = false ->
  step_rel (fst w) (fst (moveHazard hypot deltaMs frameScale w)).
Proof.
  unfold hazardCollides, moveHazard. cbv zeta. intro H.
  pose proof (step_advanceHazard frameScale (fst w)) as A.
  destruct (hazardCoolingDown _).
  - cbn [fst]. eapply step_rel_trans; [exact A|]. auto with step.
  - cbn [negb andb] in H. rewrite H. exact A.
Qed.

Lemma logic_tickUntilHazard payloadDeltaMs w :
  logic_rel (fst w) (fst (tickUntilHazard payloadDeltaMs w)).
Proof.
  unfold tickUntilHazard. cbv zeta.
  eapply logic_rel_trans; [|apply sr_logic, step_moveHome].
  eapply logic_rel_trans; [|apply sr_logic, step_moveExtraPlanets].
  eapply logic_rel_trans; [|apply sr_logic, step_moveCollectible].
  eapply logic_rel_trans; [|apply sr_logic, step_moveCollectible].
  unfold liftW; cbn [fst snd].
  eapply logic_rel_trans; [|apply sr_logic, step_applySolarInfluence].
  apply logic_steerPlayer.
Qed.

Lemma step_tickAfterHazard payloadDeltaMs w :
  step_rel (fst w) (fst (tickAfterHazard payloadDeltaMs w)).
Proof.
  unfold tickAfterHazard, liftW; cbn [fst snd].
  eapply step_rel_trans; [apply step_resolvePlanetCollisions|].
  apply step_decayTimers.
  pose proof (clamped_delta payloadDeltaMs). unfold clampDelta. lra.
Qed.

(** What a whole tick that runs guarantees; [c] tells whether the hazard
    collided. *)
Record turn_rel (c : bool) (s s' : GameState) : Prop := mkTurn {
  tr_events : ev_le (eventSignal s) (eventSignal s');
  tr_high : (highScore s <= highScore s')%Z;
  tr_inv : Inv s -> isGameOver s = false -> Inv s';
  tr_score : Inv s -> isGameOver s = false -> high_follows s s';
  tr_difficulty : difficulty s' = difficulty s;
  tr_jupiter :
    PlanetCatchStats.jupiter (planetCatches s')
    = (PlanetCatchStats.jupiter (planetCatches s) + if c then 1 else 0)%Z;
  tr_explorer :
    In explorer (badges s') ->
    In explorer (badges s) \/ (0 < PlanetCatchStats.jupiter (planetCatches s))%Z
    \/ c = true
}.

Lemma turn_of_logic (s s' : GameState) : logic_rel s s' -> turn_rel false s s'.
Proof.
  intros []. constructor; auto; try lia.
  intro H. destruct (lr_explorer0 H); auto.
Qed.

Lemma turn_compose (c : bool) (s s1 sa s2 s' : GameState) :
  logic_rel s s1 ->
  (c = true -> step_rel s1 sa /\ hazard_rel sa s2) ->
  (c = false -> step_rel s1 s2) ->
  step_rel s2 s' ->
  turn_rel c s s'.
Proof.
  intros P1 PC PM P3. destruct c.
  - destruct (PC eq_refl) as [PA PH].
    pose proof (logic_rel_trans _ _ _ P1 (sr_logic _ _ PA)) as P12.
    destruct P12, PH, P3 as [[] _ _ _].
    constructor.
    + eapply ev_le_trans; [eassumption|]. eapply ev_le_trans; eassumption.
    + lia.
    + intros I G. apply lr_inv1, hr_inv0; [auto | congruence].
    + intros I G.
      assert (I1 : Inv sa) by auto.
      assert (I2 : Inv s2) by (apply hr_inv0; [auto | congruence]).
      specialize (lr_score0 I). specialize (lr_score1 I2).
      unfold high_follows in *. lia.
    + congruence.
    + lia.
    + intro H. destruct (lr_explorer1 H) as [H1|H1].
      * rewrite hr_badges0 in H1. destruct (lr_explorer0 H1); auto.
      * right; right; reflexivity.
  - pose proof (logic_rel_trans _ _ _ P1
                  (logic_rel_trans _ _ _ (sr_logic _ _ (PM eq_refl)) (sr_logic _ _ P3)))
      as L.
    destruct (turn_of_logic _ _ L). constructor; auto.
Qed.

Lemma turn_tick payloadDeltaMs w :
  tickBlocked (fst w) = false ->
  turn_rel
    (hazardCollides (frameScaleOf payloadDeltaMs) (fst (tickUntilHazard payloadDeltaMs w)))
    (fst w) (fst (tick hypot pow payloadDeltaMs w)).
Proof.
  intro B. rewrite (tick_phases payloadDeltaMs w B).
  apply turn_compose with
    (s1 := fst (tickUntilHazard payloadDeltaMs w))
    (sa := advanceHazard hypot (frameScaleOf payloadDeltaMs)
             (fst (tickUntilHazard payloadDeltaMs w)))
    (s2 := fst (moveHazard hypot (clampDelta payloadDeltaMs) (frameScaleOf payloadDeltaMs)
                  (tickUntilHazard payloadDeltaMs w))).
  - apply logic_tickUntilHazard.
  - intro C. split; [apply step_advanceHazard|].
    rewrite (moveHazard_collides _ _ _ C).
    apply (hazard_collideHazard (_, _)).
  - intro C. apply moveHazard_misses. exact C.
  - apply step_tickAfterHazard.
Qed.

(** *** Round setup and the other reducers *)

(** What [setupRound] resets and what it carries over. *)
Record fresh_rel (s s' : GameState) : Prop := mkFresh {
  fr_score : score s' = 0%Z;
  fr_combo : combo s' = 1%Z;
  fr_comboTimerMs : comboTimerMs s' = 0;
  fr_level : level s' = 1%Z;
  fr_lives : lives s' = baseLives (getDifficultyConfig (difficulty s));
  fr_shieldCharges :
    shieldCharges s' = baseShieldCharges (getDifficultyConfig (difficulty s));
  fr_invulnerabilityMs : invulnerabilityMs s' = 0;
  fr_secondChanceUsed : secondChanceUsed s' = false;
  fr_isPaused : isPaused s' = false;
  fr_isGameOver : isGameOver s' = false;
  fr_showBreakReminder : showBreakReminder s' = false;
  fr_sessionElapsedMs : sessionElapsedMs s' = 0;
  fr_planetCatches : planetCatches s' = PlanetCatches.empty;
  fr_eventSignal : eventSignal s' = emptyEventSignal;
  fr_currentMission :
    currentMission s' = createMission (missionSeed s + 1) (difficulty s);
  fr_missionSeed : missionSeed s' = (missionSeed s + 1)%Z;
  fr_input : input s' = zeroVector;
  fr_highScore : highScore s' = highScore s;
  fr_unlockedSkins : unlockedSkins s' = unlockedSkins s;
  fr_selectedSkin : selectedSkin s' = selectedSkin s;
  fr_badges : badges s' = badges s;
  fr_settings : settings s' = settings s;
  fr_missionsCompleted : missionsCompleted s' = missionsCompleted s;
  fr_difficulty : difficulty s' = difficulty s;
  fr_controlSide : controlSide s' = controlSide s;
  fr_arenaWidth : arenaWidth s' = arenaWidth s;
  fr_arenaHeight : arenaHeight s' = arenaHeight s
}.

Lemma setupRound_fields message w : fresh_rel (fst w) (fst (setupRound message w)).
Proof. unfold setupRound, setAnnouncement. cbv zeta. constructor; reflexivity. Qed.

Lemma Inv_fresh (s s' : GameState) : fresh_rel s s' -> Inv s'.
Proof.
  intros [].
  pose proof (baseLives_pos (difficulty s)).
  pose proof (baseShieldCharges_pos (difficulty s)).
  destruct (createMission_fresh (missionSeed s + 1) (difficulty s)) as (P & T & R).
  constructor; try lia.
  - rewrite fr_currentMission0, P. split; [lra|].
    change 0 with (inject_Z 0). rewrite <- Zle_Qle. lia.
  - rewrite fr_currentMission0. lia.
Qed.

Lemma Inv_initial stored r : Inv (fst (createInitialState stored r)).
Proof.
  destruct (createMission_fresh 0 Normal) as (P & T & R).
  unfold createInitialState. cbv zeta. constructor; rd; try (cbn; lia).
  rewrite P. split; [lra|].
  change 0 with (inject_Z 0). rewrite <- Zle_Qle. lia.
Qed.

(** The actions that start a new round. *)
Definition resetsRound (a : Action) (s : GameState) : bool :=
  match a with
  | RestartGame => true
  | SetDifficulty payload => negb (Difficulty_eqb (difficulty s) payload)
  | _ => false
  end.

Definition isTick (a : Action) : bool :=
  match a with Tick _ => true | _ => false end.

(** The state [setupRound] starts from: a difficulty change stores the new
    difficulty first. *)
Definition roundBase (a : Action) (s : GameState) : GameState :=
  match a with
  | SetDifficulty payload => set_difficulty payload s
  | _ => s
  end.

Lemma reducer_resets a s r :
  resetsRound a s = true ->
  fresh_rel (roundBase a s) (fst (reducer hypot pow a (s, r))).
Proof.
  destruct a; cbn [resetsRound]; try discriminate.
  - intro D. cbn [reducer roundBase]. unfold setDifficulty. cbn [fst].
    apply negb_true_iff in D. rewrite D.
    apply (setupRound_fields _ (liftW (set_difficulty payload) (s, r))).
  - intros _. cbn [reducer roundBase]. unfold restartGame.
    apply (setupRound_fields _ (s, r)).
Qed.

(** What the reducers other than [tick] guarantee when they do not start a
    new round. *)
Record command_rel (s s' : GameState) : Prop := mkCommand {
  cr_eventSignal : eventSignal s' = eventSignal s;
  cr_score : score s' = score s;
  cr_highScore : highScore s' = highScore s;
  cr_level : level s' = level s;
  cr_lives : lives s' = lives s;
  cr_shieldCharges : shieldCharges s' = shieldCharges s;
  cr_currentMission : currentMission s' = currentMission s;
  cr_badges : badges s' = badges s;
  cr_unlockedSkins : unlockedSkins s' = unlockedSkins s;
  cr_planetCatches : planetCatches s' = planetCatches s;
  cr_difficulty : difficulty s' = difficulty s;
  cr_isGameOver : isGameOver s' = isGameOver s;
  cr_secondChanceUsed : secondChanceUsed s' = secondChanceUsed s;
  cr_combo : combo s' = combo s \/ combo s' = 1%Z
}.

Lemma command_reducer a s r :
  isTick a = false -> resetsRound a s = false ->
  command_rel s (fst (reducer hypot pow a (s, r))).
Proof.
  destruct a; cbn [isTick resetsRound reducer liftW fst snd]; try discriminate;
    intros _ R.
  - unfold setArenaSize. cbv zeta. destruct (_ || _); constructor; auto.
  - constructor; auto.
  - unfold setDifficulty. cbn [fst]. apply negb_false_iff in R. rewrite R.
    constructor; auto.
  - constructor; auto.
  - constructor; auto.
  - constructor; auto.
  - unfold setSessionReminderEnabled, when. destruct (negb payload); constructor; auto.
  - constructor; auto.
  - unfold dismissBreakReminder, when, setAnnouncement. rd.
    destruct (negb (isGameOver s)); constructor; auto.
  - unfold selectRocketSkin. destruct (negb _); constructor; auto.
  - unfold nudgePlayer, when. cbv zeta. destruct (_ || _); [constructor; auto|].
    match goal with |- context [if ?c then _ else _] => destruct c end;
      constructor; auto.
  - constructor; auto.
  - unfold resetPlayerPosition, setAnnouncement. constructor; auto.
  - unfold togglePause, setAnnouncement. destruct (_ || _); constructor; auto.
Qed.

Lemma Inv_command (s s' : GameState) : command_rel s s' -> Inv s -> Inv s'.
Proof.
  intros [] []. constructor; try congruence.
  - destruct cr_combo0 as [E|E]; rewrite E; lia.
  - rewrite cr_isGameOver0, cr_lives0. assumption.
Qed.

(** *** The outcomes of a hazard collision *)

Lemma book_advanceHazard frameScale s : book_rel s (advanceHazard hypot frameScale s).
Proof. unfold advanceHazard. cbv zeta. constructor; reflexivity. Qed.

(** The cooldown the hazard is left with. *)
Definition hazardCooldownAfter (o : HazardOutcome) : Q :=
  match o with
  | Invulnerable => 500
  | Shielded => 900
  | Hit | SecondChance | GameOver => 1200
  end.

(** What each outcome does to lives, shield, invulnerability and the flags. *)
Definition outcome_rel (o : HazardOutcome) (s s' : GameState) : Prop :=
  match o with
  | Invulnerable =>
      lives s' = lives s /\ shieldCharges s' = shieldCharges s
      /\ invulnerabilityMs s' = invulnerabilityMs s
      /\ secondChanceUsed s' = secondChanceUsed s /\ isGameOver s' = isGameOver s
      /\ combo s' = combo s /\ eventSignal s' = eventSignal s
  | Shielded =>
      lives s' = lives s /\ shieldCharges s' = (shieldCharges s - 1)%Z
      /\ invulnerabilityMs s' = SHIELD_INVULNERABILITY_MS
      /\ secondChanceUsed s' = secondChanceUsed s /\ isGameOver s' = isGameOver s
      /\ combo s' = combo s
      /\ eventSignal s'
         = Events.set EvShield (Events.get EvShield (eventSignal s) + 1) (eventSignal s)
  | Hit =>
      lives s' = (lives s - 1)%Z /\ shieldCharges s' = shieldCharges s
      /\ invulnerabilityMs s' = HIT_INVULNERABILITY_MS
      /\ secondChanceUsed s' = secondChanceUsed s /\ isGameOver s' = isGameOver s
      /\ combo s' = 1%Z
      /\ eventSignal s'
         = Events.set EvHit (Events.get EvHit (eventSignal s) + 1) (eventSignal s)
  | SecondChance =>
      lives s' = 1%Z /\ shieldCharges s' = Z.max (shieldCharges s) 1
      /\ invulnerabilityMs s' = 2600
      /\ secondChanceUsed s' = true /\ isGameOver s' = isGameOver s
      /\ combo s' = 1%Z
      /\ EventSignal.shield (eventSignal s')
         = (EventSignal.shield (eventSignal s) + 1)%Z
      /\ EventSignal.hit (eventSignal s') = (EventSignal.hit (eventSignal s) + 1)%Z
  | GameOver =>
      lives s' = (lives s - 1)%Z /\ shieldCharges s' = shieldCharges s
      /\ secondChanceUsed s' = secondChanceUsed s
      /\ isGameOver s' = true /\ isPaused s' = true
      /\ input s' = zeroVector
      /\ DynamicEntity.vx (player s') = 0 /\ DynamicEntity.vy (player s') = 0
      /\ combo s' = 1%Z
      /\ EventSignal.hit (eventSignal s') = (EventSignal.hit (eventSignal s) + 1)%Z
      /\ EventSignal.shield (eventSignal s') = EventSignal.shield (eventSignal s)
  end.

Ltac hazard_branches s :=
  destruct (Qltb 0 (invulnerabilityMs s));
  [| destruct (0 <? shieldCharges s)%Z;
     [| destruct (lives s - 1 <=? 0)%Z; [destruct (negb (secondChanceUsed s))|]]];
  rd.

Lemma collideHazard_outcome w :
  outcome_rel (hazardOutcome (fst w)) (fst w) (fst (collideHazard hypot w)).
Proof.
  destruct w as [s r]. cbn [fst]. open_collideHazard. hazard_branches s;
    unfold outcome_rel; rd; repeat split; reflexivity.
Qed.

Lemma collideHazard_cooldown w :
  DynamicEntity.cooldownMs (Hazard.body (hazard (fst (collideHazard hypot w))))
  = hazardCooldownAfter (hazardOutcome (fst w)).
Proof.
  destruct w as [s r]. cbn [fst]. open_collideHazard. hazard_branches s; reflexivity.
Qed.

Lemma impactPush_impactMs config sourcePosition entity :
  DynamicEntity.impactMs (impactPush hypot config sourcePosition entity)
  = DynamicEntity.impactMs entity.
Proof. unfold impactPush. cbv zeta. destruct (Qltb _ _); reflexivity. Qed.

(** Whatever the outcome, the collision leaves behind the impact of
    [triggerPlanetImpact] from the hazard. *)
Lemma collideHazard_impact w :
  let struck := triggerPlanetImpact hypot Jupiter (bumpCatch Jupiter (fst w)) in
  let s' := fst (collideHazard hypot w) in
  spark s' = spark struck /\ comet s' = comet struck
  /\ extraPlanets s' = extraPlanets struck /\ home s' = home struck
  /\ planetChainMs s' = 220
  /\ DynamicEntity.vx (Hazard.body (hazard s'))
     = DynamicEntity.vx (Hazard.body (hazard struck))
  /\ DynamicEntity.vy (Hazard.body (hazard s'))
     = DynamicEntity.vy (Hazard.body (hazard struck))
  /\ DynamicEntity.impactMs (Hazard.body (hazard s')) = 420.
Proof.
  destruct w as [s r]. cbn [fst]. cbv zeta. open_collideHazard. hazard_branches s;
    repeat split; try reflexivity; rewrite impactPush_impactMs; reflexivity.
Qed.

Lemma collideHazard_mission w :
  currentMission (fst (collideHazard hypot w)) = currentMission (fst w)
  /\ difficulty (fst (collideHazard hypot w)) = difficulty (fst w).
Proof.
  destruct w as [s r]. cbn [fst]. open_collideHazard. hazard_branches s;
    split; reflexivity.
Qed.

(** *** Lives across the closing part of the tick *)

Lemma keeps_lives_book (s s' : GameState) : book_rel s s' -> keeps lives s s'.
Proof. intros []. assumption. Qed.

Lemma keeps_lives_failMission s : keeps lives s (failMission s).
Proof. reflexivity. Qed.

Hint Resolve keeps_lives_failMission : step.
Hint Extern 2 (keeps lives _ _) => apply keeps_lives_book; solve [auto 2 with step] : step.

Lemma missionCompletesBy_ext kind amount (s s' : GameState) :
  currentMission s' = currentMission s ->
  missionCompletesBy kind amount s' = missionCompletesBy kind amount s.
Proof. unfold missionCompletesBy. cbv zeta. intros ->. reflexivity. Qed.

Lemma lives_progressMission kind amount s :
  lives (progressMission kind amount s)
  = if missionCompletesBy kind amount s then
      Z.min (baseLives (getDifficultyConfig (difficulty s)) + 1) (lives s + 1)
    else lives s.
Proof.
  destruct (missionCompletesBy kind amount s) eqn:C.
  - rewrite (progressMission_completes _ _ _ C).
    match goal with
    | |- context [completeMission ?y] => destruct (completeMission_fields y)
    end.
    rewrite cm_lives0. reflexivity.
  - destruct (progressMission_continues _ _ _ C) as [E|E]; rewrite E; reflexivity.
Qed.

(** [decayTimers] before and after its survive-mission step. *)
Definition timersHead (deltaMs : Q) (s : GameState) : GameState :=
  let decay e :=
    DynamicEntity.set_impactMs (Qmax 0 (DynamicEntity.impactMs e - deltaMs)) e in
  s |> upd_sparkBody decay
    |> upd_cometBody decay
    |> upd_home (fun h =>
         HomePortal.set_impactMs (Qmax 0 (HomePortal.impactMs h - deltaMs)) h)
    |> upd_hazardBody decay
    |> upd_extraPlanets (ExtraPlanet_upd_body decay)
    |> upd_player decay
    |> (fun s => set_planetChainMs (Qmax 0 (planetChainMs s - deltaMs)) s)
    |> when (fun s => Qltb 0 (invulnerabilityMs s))
         (fun s => set_invulnerabilityMs (Qmax 0 (invulnerabilityMs s - deltaMs)) s).

Definition timersTail (deltaMs : Q) (s : GameState) : GameState :=
  s |> (fun s =>
          set_currentMission
            (MissionState.set_timeLeftMs
               (Qmax 0 (MissionState.timeLeftMs (currentMission s) - deltaMs))
               (currentMission s)) s)
    |> when (fun s =>
               Qeqb (MissionState.timeLeftMs (currentMission s)) 0
               && Qltb (MissionState.progress (currentMission s))
                       (inject_Z (MissionState.target (currentMission s))))
         failMission
    |> when (fun s => Qltb 0 (comboTimerMs s))
         (fun s =>
            s |> set_comboTimerMs (Qmax 0 (comboTimerMs s - deltaMs))
              |> when (fun s => Qeqb (comboTimerMs s) 0) (set_combo 1))
    |> when (fun s => Qltb 0 (announcementTimerMs s))
         (fun s =>
            s |> set_announcementTimerMs (Qmax 0 (announcementTimerMs s - deltaMs))
              |> when (fun s => Qeqb (announcementTimerMs s) 0 && negb (isGameOver s))
                   (set_announcement ""))
    |> when (fun s => Qltb 0 (learningFactTimerMs s))
         (fun s =>
            s |> set_learningFactTimerMs (Qmax 0 (learningFactTimerMs s - deltaMs))
              |> when (fun s => Qeqb (learningFactTimerMs s) 0) (set_learningFact ""))
    |> when (fun s => ParentSettings.sessionReminderEnabled (settings s))
         (fun s =>
            s |> set_sessionElapsedMs (sessionElapsedMs s + deltaMs)
              |> when (fun s =>
                         Qleb (ParentSettings.sessionReminderMs (settings s))
                              (sessionElapsedMs s))
                   (fun s =>
                      s |> set_showBreakReminder true
                        |> set_isPaused true
                        |> setAnnouncement
                             "Mola zamani! Su icip gozlerini dinlendirelim." 1800))
    |> checkUnlocksAndBadges.

Lemma decayTimers_parts deltaMs s :
  decayTimers deltaMs s
  = timersTail deltaMs
      (when (fun s => MissionKind_eqb (MissionState.kind (currentMission s)) KSurvive)
         (progressMission KSurvive (deltaMs / 1000))
         (timersHead deltaMs s)).
Proof. unfold decayTimers, timersTail, timersHead. cbv zeta. reflexivity. Qed.

Lemma timersHead_keeps deltaMs s :
  keeps lives s (timersHead deltaMs s)
  /\ keeps currentMission s (timersHead deltaMs s)
  /\ keeps difficulty s (timersHead deltaMs s).
Proof. unfold timersHead. cbv zeta. repeat split; chain. Qed.

Lemma timersTail_keeps_lives deltaMs s : keeps lives s (timersTail deltaMs s).
Proof. unfold timersTail. chain. Qed.

Lemma lives_decayTimers deltaMs s :
  lives (decayTimers deltaMs s)
  = if missionCompletesBy KSurvive (deltaMs / 1000) s then
      Z.min (baseLives (getDifficultyConfig (difficulty s)) + 1) (lives s + 1)
    else lives s.
Proof.
  rewrite decayTimers_parts, timersTail_keeps_lives.
  destruct (timersHead_keeps deltaMs s) as (L & M & D). unfold keeps in *.
  rewrite <- (missionCompletesBy_ext KSurvive (deltaMs / 1000) _ _ M), <- L, <- D.
  generalize (timersHead deltaMs s). intro h.
  unfold when.
  destruct (MissionKind_eqb _ KSurvive) eqn:K.
  - apply lives_progressMission.
  - unfold missionCompletesBy. cbv zeta. rewrite K. reflexivity.
Qed.

Lemma book_resolvePlanetCollisions s : book_rel s (resolvePlanetCollisions hypot s).
Proof.
  unfold resolvePlanetCollisions, putMovingPlanets.
  destruct (resolvePlanetList _ _) as [|a [|b [|c rest]]];
    constructor; reflexivity.
Qed.

(** *** Reachable states *)

Lemma tickBlocked_false s :
  tickBlocked s = false ->
  isPaused s = false /\ isGameOver s = false /\ showBreakReminder s = false.
Proof.
  unfold tickBlocked. rewrite !orb_false_iff. tauto.
Qed.

Lemma tickBlocked_gameOver s : isGameOver s = true -> tickBlocked s = true.
Proof. unfold tickBlocked. intros ->. rewrite orb_true_r. reflexivity. Qed.

Lemma reducer_tick_or_not a :
  (exists deltaMs, a = Tick deltaMs) \/ isTick a = false.
Proof. destruct a; try (right; reflexivity). left. eexists. reflexivity. Qed.

Lemma Inv_reducer a s r : Inv s -> Inv (fst (reducer hypot pow a (s, r))).
Proof.
  intro I. destruct (reducer_tick_or_not a) as [[d ->]|T].
  - cbn [reducer]. destruct (tickBlocked s) eqn:B.
    + rewrite tick_blocked by exact B. exact I.
    + apply (tr_inv _ _ _ (turn_tick d (s, r) B)); [exact I|].
      apply (tickBlocked_false _ B).
  - destruct (resetsRound a s) eqn:R.
    + eapply Inv_fresh. apply reducer_resets. exact R.
    + eapply Inv_command; [apply command_reducer|]; assumption.
Qed.

Lemma Inv_reachable s : reachable hypot pow s -> Inv s.
Proof.
  induction 1 as [stored r|s a r _ IH].
  - apply Inv_initial.
  - apply Inv_reducer. exact IH.
Qed.

Lemma reachable_run actions w :
  reachable hypot pow (fst w) -> reachable hypot pow (fst (run hypot pow actions w)).
Proof.
  revert w. induction actions as [|a rest IH]; intros [s r] R; cbn [run fold_left].
  - exact R.
  - apply IH. apply reachable_step. exact R.
Qed.

(** *** A pickup, field by field *)

Lemma book_triggerPlanetImpact source s :
  book_rel s (triggerPlanetImpact hypot source s).
Proof. unfold triggerPlanetImpact. cbv zeta. constructor; reflexivity. Qed.

Lemma book_upd_collectibleBody slot f s : book_rel s (upd_collectibleBody slot f s).
Proof. destruct slot; constructor; reflexivity. Qed.

Lemma book_advanceCollectible slot frameScale s :
  book_rel s (advanceCollectible hypot slot frameScale s).
Proof.
  unfold advanceCollectible. cbv zeta.
  repeat (eapply book_rel_trans; [|apply book_upd_collectibleBody]).
  apply book_rel_refl.
Qed.

Lemma progressMission_scoring kind amount s :
  score (progressMission kind amount s)
  = (score s + if missionCompletesBy kind amount s
               then MissionState.rewardPoints (currentMission s) else 0)%Z
  /\ combo (progressMission kind amount s) = combo s
  /\ comboTimerMs (progressMission kind amount s) = comboTimerMs s
  /\ EventSignal.collect (eventSignal (progressMission kind amount s))
     = EventSignal.collect (eventSignal s).
Proof.
  destruct (missionCompletesBy kind amount s) eqn:C.
  - rewrite (progressMission_completes _ _ _ C).
    match goal with
    | |- context [completeMission ?y] => destruct (completeMission_fields y)
    end.
    rewrite cm_score0, cm_combo0, cm_comboTimerMs0, cm_collect0.
    repeat apply conj; reflexivity.
  - destruct (progressMission_continues _ _ _ C) as [E|E]; rewrite E;
      repeat apply conj; try reflexivity; rd; lia.
Qed.

(** The mission kind a core collectible advances. *)
Definition collectibleMission (i : CollectibleId) : MissionKind :=
  match i with CEarth => KEarth | CMars => KMars end.

Lemma pickupCollectible_scoring slot w :
  let s := fst w in
  let s' := fst (pickupCollectible hypot slot w) in
  let collectible := getCollectible slot s in
  let gained := Z.max 0 (Collectible.points collectible * combo s) in
  score s'
  = (score s + gained
     + if missionCompletesBy (collectibleMission (Collectible.id collectible)) 1 s
       then MissionState.rewardPoints (currentMission s) else 0)%Z
  /\ combo s' = Z.min 9 (combo s + 1)
  /\ comboTimerMs s' = COMBO_WINDOW_MS
  /\ EventSignal.collect (eventSignal s')
     = (EventSignal.collect (eventSignal s) + 1)%Z.
Proof.
  destruct w as [s r]. cbv zeta. cbn [fst].
  unfold pickupCollectible. cbv zeta. cbn [fst snd].
  match goal with
  | |- context [upd_collectibleBody slot ?f ?x] =>
      destruct (book_upd_collectibleBody slot f x)
  end.
  rewrite br_score0, br_combo0, br_comboTimerMs0, br_collect0.
  clear - s.
  match goal with
  | |- context [triggerPlanetImpact hypot ?k ?x] =>
      destruct (book_triggerPlanetImpact k x)
  end.
  rewrite br_score0, br_combo0, br_comboTimerMs0, br_collect0.
  clear - s.
  set (points := inject_Z (Collectible.points (getCollectible slot s) * combo s)).
  assert (G : Z.max 0 (Math_round points)
              = Z.max 0 (Collectible.points (getCollectible slot s) * combo s))
    by (unfold points; rewrite Math_round_inject_Z; reflexivity).
  rewrite <- G. clearbody points. clear G.
  destruct (Collectible.id (getCollectible slot s)); cbn [collectibleMission];
    match goal with
    | |- context [progressMission ?k ?a ?x] =>
        destruct (progressMission_scoring k a x) as (PS & PC & PT & PE);
        rewrite PS, PC, PT, PE; clear PS PC PT PE;
        assert (M : currentMission x = currentMission s)
          by (rewrite (br_currentMission _ _ (book_setLearningFact _ _)),
                (br_currentMission _ _ (book_bumpCatch _ _));
              apply (cl_currentMission _ _ _ (collectPoints_fields _ _ s)));
        rewrite (missionCompletesBy_ext k a s x M), M; clear M
    end;
    rewrite (br_score _ _ (book_setLearningFact _ _)),
      (br_score _ _ (book_bumpCatch _ _)),
      (br_combo _ _ (book_setLearningFact _ _)),
      (br_combo _ _ (book_bumpCatch _ _)),
      (br_comboTimerMs _ _ (book_setLearningFact _ _)),
      (br_comboTimerMs _ _ (book_bumpCatch _ _)),
      (br_collect _ _ (book_setLearningFact _ _)),
      (br_collect _ _ (book_bumpCatch _ _));
    match goal with
    | |- context [collectPoints ?p ?t s] => destruct (collectPoints_fields p t s)
    end;
    rewrite cl_score0, cl_combo0, cl_comboTimerMs0, cl_collect0;
    repeat apply conj; reflexivity.
Qed.

(** *** Cooldowns after a pickup *)

Lemma getCollectible_upd slot f s :
  getCollectible slot (upd_collectibleBody slot f s)
  = Collectible_upd_body f (getCollectible slot s).
Proof. destruct slot; reflexivity. Qed.

Lemma pickupCollectible_cooldown slot w :
  DynamicEntity.cooldownMs
    (Collectible.body (getCollectible slot (fst (pickupCollectible hypot slot w))))
  = 500.
Proof.
  unfold pickupCollectible. cbv zeta. cbn [fst snd].
  rewrite getCollectible_upd. reflexivity.
Qed.

Lemma pickupHome_cooldown w :
  HomePortal.cooldownMs (home (fst (pickupHome hypot w))) = 1000.
Proof. unfold pickupHome. cbv zeta. cbn [fst snd]. reflexivity. Qed.

Lemma pickupExtraPlanet_cooldown index planet w :
  (index < List.length (extraPlanets (fst w)))%nat ->
  option_map (fun p => DynamicEntity.cooldownMs (ExtraPlanet.body p))
    (nth_error (extraPlanets (fst (pickupExtraPlanet hypot index planet w))) index)
  = Some 650.
Proof.
  intro L. unfold pickupExtraPlanet. cbv zeta. cbn [fst snd].
  match goal with
  | |- context [upd_extraBodyAt index ?f ?x] =>
      assert (E : List.length (extraPlanets x) = List.length (extraPlanets (fst w)))
        by (apply lr_extras, sr_logic; destruct (ExtraPlanet.id planet); chain);
      change (extraPlanets (upd_extraBodyAt index f x))
        with (list_update index (ExtraPlanet_upd_body f) (extraPlanets x));
      rewrite nth_error_list_update;
      destruct (nth_error (extraPlanets x) index) eqn:N;
      [ reflexivity
      | exfalso; apply nth_error_None in N; rewrite E in N; lia ]
  end.
Qed.
End Frames.

(** * The specification, claim by claim *)

(** ** Concrete states

    A fresh game in which every draw of [Math.random] is one half: every body
    spawns at the centre of the arena, on the player, with no velocity, so
    that nothing moves and every distance is zero. *)

Definition centredGame : GameState := fst (createInitialState None halves).

(** The same game one 16 ms tick later: all eight pickups and the hazard
    collision have happened. *)
Definition afterFirstTick : GameState :=
  fst (reducer hypotQ powQ (Tick 16) (centredGame, halves)).

(** Every moving body on cooldown, so that a tick picks nothing up. *)
Definition allCooling (s : GameState) : GameState :=
  s |> upd_sparkBody (DynamicEntity.set_cooldownMs 500)
    |> upd_cometBody (DynamicEntity.set_cooldownMs 500)
    |> upd_extraPlanets (ExtraPlanet_upd_body (DynamicEntity.set_cooldownMs 650))
    |> upd_home (HomePortal.set_cooldownMs 1000)
    |> upd_hazardBody (DynamicEntity.set_cooldownMs 900).

(** The hazard off cooldown: it collides in the next tick. *)
Definition hazardReady (s : GameState) : GameState :=
  upd_hazardBody (DynamicEntity.set_cooldownMs 0) s.

(** Only the hazard is ready, and the player is invulnerable. *)
Definition invulnerableGame : GameState :=
  hazardReady (allCooling (set_invulnerabilityMs 1000 centredGame)).

(** Only Earth is ready; combo is 3 and the mission "catch 2 Earths" has one
    Earth to go. *)
Definition earthPickupGame : GameState :=
  upd_sparkBody (DynamicEntity.set_cooldownMs 0)
    (allCooling
       (set_currentMission (MissionState.set_progress 1 (currentMission centredGame))
          (set_comboTimerMs 3200 (set_combo 3 centredGame)))).

(** Only the hazard is ready; one life, no shield, no invulnerability. *)
Definition lastLifeGame : GameState :=
  hazardReady (allCooling (set_shieldCharges 0 (set_lives 1 centredGame))).

(** The same, 10 ms before the end of a survive mission. *)
Definition survivorGame : GameState :=
  set_currentMission (MissionState.set_progress 21.99 (createMission 3 Normal))
    lastLifeGame.

(** The same as [lastLifeGame], with the second chance used. *)
Definition lastChanceGone : GameState := set_secondChanceUsed true lastLifeGame.

(** Venus, the second extra planet, off cooldown as well. *)
Definition venusReady (s : GameState) : GameState :=
  upd_extraBodyAt 1 (DynamicEntity.set_cooldownMs 0) s.

(** Only the hazard is ready: it touches the player, at exactly the sum of
    the two radii (18 + 21) to its right, and flies away from it. *)
Definition fleeingHazardGame : GameState :=
  upd_hazardBody
    (fun e =>
       e |> DynamicEntity.set_x 519
         |> DynamicEntity.set_vx 3
         |> DynamicEntity.set_cooldownMs 0)
    (allCooling centredGame).

(** [invulnerableGame] with Earth 45 to the right of the hazard. *)
Definition earthAsideGame : GameState :=
  upd_sparkBody (DynamicEntity.set_x 525) invulnerableGame.

Section Claims.

Variable hypot : Q -> Q -> Q.
Variable pow : Q -> Q -> Q.

(** C1 (as amended): from any state, a reducer that starts a new round
    ([restartGame], or [setDifficulty] with a new difficulty) leaves all seven
    event counters at zero; every other reducer, [tick] included, leaves each
    counter at least as large as it was. *)
Theorem C1_event_counters_grow_within_a_round (a : Action) (s : GameState) (r : Rand) :
  if resetsRound a s
  then eventSignal (fst (reducer hypot pow a (s, r))) = emptyEventSignal
  else ev_le (eventSignal s) (eventSignal (fst (reducer hypot pow a (s, r)))).
Proof.
  destruct (resetsRound a s) eqn:R.
  - apply (fr_eventSignal _ _ (reducer_resets hypot pow a s r R)).
  - destruct (reducer_tick_or_not a) as [[d ->]|T].
    + cbn [reducer]. destruct (tickBlocked s) eqn:B.
      * rewrite tick_blocked by exact B. apply ev_le_refl.
      * apply (tr_events _ _ _ (turn_tick hypot pow d (s, r) B)).
    + rewrite (cr_eventSignal _ _ (command_reducer hypot pow a s r T R)).
      apply ev_le_refl.
Qed.

(** C2: restarting and then running no tick gives score 0, level 1 and the
    base lives of the current difficulty, and leaves the high score, the
    unlocked skins, the badges and the settings as they were. *)
Theorem C2_restart_round_trip (s : GameState) (r : Rand) :
  let s' := fst (run hypot pow [RestartGame] (s, r)) in
  score s' = 0%Z
  /\ lives s' = baseLives (getDifficultyConfig (difficulty s'))
  /\ level s' = 1%Z
  /\ highScore s' = highScore s
  /\ unlockedSkins s' = unlockedSkins s
  /\ badges s' = badges s
  /\ settings s' = settings s.
Proof.
  cbv zeta. cbn [run fold_left reducer]. unfold restartGame.
  pose proof (setupRound_fields "Yeni oyun basladi!" (s, r)) as F. cbn [fst] in F.
  rewrite (fr_difficulty _ _ F).
  repeat apply conj;
    [ apply (fr_score _ _ F) | apply (fr_lives _ _ F) | apply (fr_level _ _ F)
    | apply (fr_highScore _ _ F) | apply (fr_unlockedSkins _ _ F)
    | apply (fr_badges _ _ F) | apply (fr_settings _ _ F) ].
Qed.

(** C8: in every reachable state combo is between 1 and 9, lives and shield
    charges are not negative, and the progress of the current mission is
    between 0 and its target. *)
Theorem C8_state_bounds (s : GameState) :
  reachable hypot pow s ->
  (1 <= combo s <= 9)%Z
  /\ (0 <= lives s)%Z
  /\ (0 <= shieldCharges s)%Z
  /\ 0 <= MissionState.progress (currentMission s)
       <= inject_Z (MissionState.target (currentMission s)).
Proof.
  intro R. destruct (Inv_reachable hypot pow s R). auto.
Qed.

Lemma highScore_reducer a s r :
  (highScore s <= highScore (fst (reducer hypot pow a (s, r))))%Z.
Proof.
  destruct (reducer_tick_or_not a) as [[d ->]|T].
  - cbn [reducer]. destruct (tickBlocked s) eqn:B.
    + rewrite tick_blocked by exact B. cbn [fst]. lia.
    + apply (tr_high _ _ _ (turn_tick hypot pow d (s, r) B)).
  - destruct (resetsRound a s) eqn:R.
    + rewrite (fr_highScore _ _ (reducer_resets hypot pow a s r R)).
      destruct a; cbn [roundBase]; try reflexivity; lia.
    + rewrite (cr_highScore _ _ (command_reducer hypot pow a s r T R)). lia.
Qed.

Lemma highScore_run actions w :
  (highScore (fst w) <= highScore (fst (run hypot pow actions w)))%Z.
Proof.
  revert w. induction actions as [|a rest IH]; intros [s r]; cbn [run fold_left].
  - cbn [fst]. lia.
  - eapply Z.le_trans; [apply (highScore_reducer a s r)|].
    apply (IH (reducer hypot pow a (s, r))).
Qed.

(** C9: from a reachable state, every reducer either leaves the high score
    as it is or raises it to the score it ends with, which then exceeds the
    old high score; restart and difficulty change leave it as it is; and no
    run of actions lowers it. *)
Theorem C9_high_score_never_decreases (s : GameState) :
  reachable hypot pow s ->
  (forall (a : Action) (r : Rand),
     let s' := fst (reducer hypot pow a (s, r)) in
     (highScore s <= highScore s')%Z
     /\ (highScore s' = highScore s
         \/ ((highScore s < score s')%Z /\ highScore s' = score s'))
     /\ (resetsRound a s = true -> highScore s' = highScore s))
  /\ (forall (actions : list Action) (r : Rand),
        (highScore s <= highScore (fst (run hypot pow actions (s, r))))%Z).
Proof.
  intro R. pose proof (Inv_reachable hypot pow s R) as I. split.
  - intros a r. cbv zeta. split; [apply highScore_reducer|].
    assert (K : resetsRound a s = true ->
                highScore (fst (reducer hypot pow a (s, r))) = highScore s).
    { intro E. rewrite (fr_highScore _ _ (reducer_resets hypot pow a s r E)).
      destruct a; reflexivity. }
    split; [|exact K].
    destruct (reducer_tick_or_not a) as [[d ->]|T].
    + cbn [reducer]. destruct (tickBlocked s) eqn:B.
      * rewrite tick_blocked by exact B. left. reflexivity.
      * destruct (tr_score _ _ _ (turn_tick hypot pow d (s, r) B) I
                    (proj1 (proj2 (tickBlocked_false _ B)))) as [_ H].
        cbn [fst] in *. lia.
    + destruct (resetsRound a s) eqn:E.
      * left. apply K. reflexivity.
      * left. apply (cr_highScore _ _ (command_reducer hypot pow a s r T E)).
  - intros actions r. apply (highScore_run actions (s, r)).
Qed.

(** C3 (as amended): after a pickup the body's cooldown is 500 ms for a core
    collectible, 650 ms for an extra planet and 1000 ms for the home body;
    after a hazard collision it is 500 ms when the player was invulnerable,
    900 ms when a shield absorbed it, and 1200 ms when it cost a life. *)
Theorem C3_cooldown_after_consume :
  (forall (slot : CoreSlot) (deltaMs frameScale : Q) (w : W),
     let moved := advanceCollectible hypot slot frameScale (fst w) in
     collectibleCoolingDown slot moved = false ->
     collectibleTouched hypot slot moved = true ->
     DynamicEntity.cooldownMs
       (Collectible.body
          (getCollectible slot
             (fst (moveCollectible hypot slot deltaMs frameScale w))))
     = 500)
  /\ (forall (index : nat) (deltaMs frameScale : Q) (w : W) (planet0 planet : ExtraPlanet),
        let moved := advanceExtraPlanet hypot index frameScale planet0 (fst w) in
        nth_error (extraPlanets (fst w)) index = Some planet0 ->
        nth_error (extraPlanets moved) index = Some planet ->
        extraPlanetCoolingDown planet = false ->
        extraPlanetOutOfReach hypot planet moved = false ->
        option_map (fun p => DynamicEntity.cooldownMs (ExtraPlanet.body p))
          (nth_error
             (extraPlanets (fst (moveExtraPlanetAt hypot deltaMs frameScale w index)))
             index)
        = Some 650)
  /\ (forall (deltaMs : Q) (w : W),
        let shown := upd_home (HomePortal.set_visible true) (fst w) in
        homeCoolingDown shown = false ->
        homeTouched hypot shown = true ->
        HomePortal.cooldownMs (home (fst (moveHome hypot deltaMs w))) = 1000)
  /\ (forall (deltaMs frameScale : Q) (w : W),
        hazardCollides hypot frameScale (fst w) = true ->
        DynamicEntity.cooldownMs
          (Hazard.body (hazard (fst (moveHazard hypot deltaMs frameScale w))))
        = match hazardOutcome (advanceHazard hypot frameScale (fst w)) with
          | Invulnerable => 500
          | Shielded => 900
          | Hit | SecondChance | GameOver => 1200
          end).
Proof.
  repeat apply conj.
  - intros slot deltaMs frameScale w moved C T. subst moved.
    unfold moveCollectible. cbv zeta. rewrite C, T.
    apply pickupCollectible_cooldown.
  - intros index deltaMs frameScale w planet0 planet moved N0 N C O. subst moved.
    unfold moveExtraPlanetAt. rewrite N0. cbv zeta. rewrite N, C, O.
    apply pickupExtraPlanet_cooldown. cbn [fst].
    apply nth_error_Some. rewrite N. discriminate.
  - intros deltaMs w shown C T. subst shown.
    unfold moveHome. cbv zeta. rewrite C, T. apply pickupHome_cooldown.
  - intros deltaMs frameScale w C.
    rewrite (moveHazard_collides hypot deltaMs frameScale w C).
    rewrite collideHazard_cooldown. reflexivity.
Qed.


(** C5 (as amended): picking up a core collectible worth 16 points at combo 3
    adds 48 to the score, plus the reward of the current mission when this
    pickup completes it; it counts one collect event, sets combo to 4 and
    the combo timer to 3200 ms. *)
Theorem C5_core_pickup_at_combo_3 (slot : CoreSlot) (deltaMs frameScale : Q) (w : W) :
  let s := fst w in
  let moved := advanceCollectible hypot slot frameScale s in
  let s' := fst (moveCollectible hypot slot deltaMs frameScale w) in
  collectibleCoolingDown slot moved = false ->
  collectibleTouched hypot slot moved = true ->
  Collectible.points (getCollectible slot s) = 16%Z ->
  combo s = 3%Z ->
  score s'
  = (score s + 48
     + if missionCompletesBy
            (collectibleMission (Collectible.id (getCollectible slot s))) 1 s
       then MissionState.rewardPoints (currentMission s) else 0)%Z
  /\ EventSignal.collect (eventSignal s')
     = (EventSignal.collect (eventSignal s) + 1)%Z
  /\ combo s' = 4%Z
  /\ comboTimerMs s' = 3200.
Proof.
  cbv zeta. intros C T P K.
  unfold moveCollectible. cbv zeta. rewrite C, T.
  destruct (pickupCollectible_scoring hypot slot
              (advanceCollectible hypot slot frameScale (fst w), snd w))
    as (HS & HC & HT & HE).
  cbn [fst] in HS, HC, HT, HE.
  destruct (book_advanceCollectible hypot slot frameScale (fst w)).
  assert (G : getCollectible slot (advanceCollectible hypot slot frameScale (fst w))
              = Collectible_upd_body
                  (fun e =>
                     bounceInsideArena (arenaWidth (fst w)) (arenaHeight (fst w))
                       (frameScale
                        * (0.9 + (inject_Z (level (fst w)) - 1)
                                 * planetLevelBoostPerLevel
                                     (getDifficultyConfig (difficulty (fst w)))))
                       1
                       (clampVelocity hypot
                          (planetMaxSpeed (getDifficultyConfig (difficulty (fst w))))
                          (DynamicEntity.set_visible true e)))
                  (getCollectible slot (fst w)))
    by (destruct slot; reflexivity).
  rewrite G in HS. cbn [Collectible_upd_body Collectible.points Collectible.id
                         Collectible.set_body] in HS.
  rewrite (missionCompletesBy_ext _ _ _ _ br_currentMission0) in HS.
  rewrite br_score0, br_combo0, br_currentMission0, P, K in HS.
  rewrite br_combo0, K in HC. rewrite br_collect0 in HE.
  repeat apply conj; assumption.
Qed.

(** *** The hazard step on the last life *)

Lemma hazardOutcome_advanceHazard frameScale s :
  hazardOutcome (advanceHazard hypot frameScale s) = hazardOutcome s.
Proof.
  destruct (book_advanceHazard hypot frameScale s).
  unfold hazardOutcome.
  rewrite br_invulnerabilityMs0, br_shieldCharges0, br_lives0, br_secondChanceUsed0.
  reflexivity.
Qed.

Lemma hazardOutcome_last_life s :
  shieldCharges s = 0%Z -> invulnerabilityMs s == 0 -> lives s = 1%Z ->
  hazardOutcome s = if secondChanceUsed s then GameOver else SecondChance.
Proof.
  intros S V L. unfold hazardOutcome.
  assert (N : Qltb 0 (invulnerabilityMs s) = false)
    by (apply Qltb_false; rewrite V; apply Qle_refl).
  rewrite N, S, L. destruct (secondChanceUsed s); reflexivity.
Qed.

Lemma lives_tickAfterHazard payloadDeltaMs w :
  lives (fst (tickAfterHazard hypot payloadDeltaMs w))
  = if missionCompletesBy KSurvive (clampDelta payloadDeltaMs / 1000) (fst w) then
      Z.min (baseLives (getDifficultyConfig (difficulty (fst w))) + 1) (lives (fst w) + 1)
    else lives (fst w).
Proof.
  unfold tickAfterHazard, liftW; cbn [fst snd].
  rewrite lives_decayTimers.
  destruct (book_resolvePlanetCollisions hypot (fst w)).
  rewrite (missionCompletesBy_ext _ _ _ _ br_currentMission0), br_difficulty0, br_lives0.
  reflexivity.
Qed.

(** The state the hazard collision of a tick produces. *)
Definition tickStruck (payloadDeltaMs : Q) (w : W) : W :=
  collideHazard hypot
    (advanceHazard hypot (frameScaleOf payloadDeltaMs)
       (fst (tickUntilHazard hypot pow payloadDeltaMs w)),
     snd (tickUntilHazard hypot pow payloadDeltaMs w)).

Lemma tick_collides payloadDeltaMs w :
  tickBlocked (fst w) = false ->
  hazardCollides hypot (frameScaleOf payloadDeltaMs)
    (fst (tickUntilHazard hypot pow payloadDeltaMs w)) = true ->
  tick hypot pow payloadDeltaMs w
  = tickAfterHazard hypot payloadDeltaMs (tickStruck payloadDeltaMs w).
Proof.
  intros B C. unfold tickStruck.
  rewrite (tick_phases hypot pow payloadDeltaMs w B).
  rewrite (moveHazard_collides hypot _ _ _ C). reflexivity.
Qed.

(** What the hazard step of a tick does when it collides on the last life,
    with no shield and no invulnerability. *)
Lemma tickStruck_last_life payloadDeltaMs w :
  let s1 := fst (tickUntilHazard hypot pow payloadDeltaMs w) in
  let s2 := fst (tickStruck payloadDeltaMs w) in
  shieldCharges s1 = 0%Z -> invulnerabilityMs s1 == 0 -> lives s1 = 1%Z ->
  outcome_rel (if secondChanceUsed s1 then GameOver else SecondChance)
    (advanceHazard hypot (frameScaleOf payloadDeltaMs) s1) s2
  /\ book_rel s1 (advanceHazard hypot (frameScaleOf payloadDeltaMs) s1)
  /\ currentMission s2 = currentMission s1
  /\ difficulty s2 = difficulty s1.
Proof.
  cbv zeta. unfold tickStruck.
  generalize (tickUntilHazard hypot pow payloadDeltaMs w). intros w1 S V L.
  pose proof (book_advanceHazard hypot (frameScaleOf payloadDeltaMs) (fst w1)) as BA.
  pose proof (collideHazard_outcome hypot
                (advanceHazard hypot (frameScaleOf payloadDeltaMs) (fst w1), snd w1)) as O.
  destruct (collideHazard_mission hypot
              (advanceHazard hypot (frameScaleOf payloadDeltaMs) (fst w1), snd w1))
    as [M D].
  cbn [fst] in O, M, D.
  rewrite hazardOutcome_advanceHazard, (hazardOutcome_last_life _ S V L) in O.
  rewrite (br_currentMission _ _ BA) in M. rewrite (br_difficulty _ _ BA) in D.
  repeat apply conj; assumption.
Qed.

(** C6 (as amended): take a tick that runs (not paused, not over, no break
    reminder showing) and whose hazard step finds, after the steering and
    the pickups of the same tick, the hazard off cooldown and touching the
    player, no shield charge, no invulnerability, one life and the second
    chance unused.  After the tick the second chance is used, the game is
    not over, the shield counter is one above its value before the tick, and
    lives is 1, or 2 when the timers of this tick complete a survive
    mission. *)
Theorem C6_second_chance_on_the_last_life (payloadDeltaMs : Q) (w : W) :
  let s1 := fst (tickUntilHazard hypot pow payloadDeltaMs w) in
  let s' := fst (tick hypot pow payloadDeltaMs w) in
  tickBlocked (fst w) = false ->
  hazardCollides hypot (frameScaleOf payloadDeltaMs) s1 = true ->
  shieldCharges s1 = 0%Z ->
  invulnerabilityMs s1 == 0 ->
  lives s1 = 1%Z ->
  secondChanceUsed s1 = false ->
  secondChanceUsed s' = true
  /\ isGameOver s' = false
  /\ EventSignal.shield (eventSignal s')
     = (EventSignal.shield (eventSignal (fst w)) + 1)%Z
  /\ lives s'
     = if missionCompletesBy KSurvive (clampDelta payloadDeltaMs / 1000) s1
       then 2%Z else 1%Z.
Proof.
  cbv zeta. intros B C S V L U.
  rewrite (tick_collides payloadDeltaMs w B C).
  destruct (tickStruck_last_life payloadDeltaMs w S V L) as (O & BA & M & D).
  rewrite U in O. cbn [outcome_rel] in O.
  destruct O as (OL & _ & _ & OU & OG & _ & OE & _).
  pose proof (logic_tickUntilHazard hypot pow payloadDeltaMs w) as P1.
  pose proof (step_tickAfterHazard hypot payloadDeltaMs (tickStruck payloadDeltaMs w))
    as P3.
  pose proof (lives_tickAfterHazard payloadDeltaMs (tickStruck payloadDeltaMs w)) as PL.
  rewrite (missionCompletesBy_ext _ _ _ _ M), D, OL in PL.
  apply tickBlocked_false in B. destruct B as (_ & G & _).
  rewrite (br_isGameOver _ _ BA), (lr_gameOver _ _ P1), G in OG.
  rewrite (br_shieldEv _ _ BA), (lr_shieldEv _ _ P1) in OE.
  revert OU OG OE P3 PL.
  generalize (tickAfterHazard hypot payloadDeltaMs (tickStruck payloadDeltaMs w)).
  generalize (tickStruck payloadDeltaMs w). intros w2 w3 OU OG OE P3 PL.
  pose proof (baseLives_pos (difficulty (fst (tickUntilHazard hypot pow payloadDeltaMs w))))
    as BL.
  destruct P3 as [[] _ _ _].
  repeat apply conj.
  - congruence.
  - congruence.
  - congruence.
  - rewrite PL. destruct (missionCompletesBy _ _ _); lia.
Qed.

(** Once the game is over, ticks do nothing, and only a reducer that starts
    a new round clears the flag. *)
Lemma gameOver_terminal (s : GameState) (r : Rand) :
  isGameOver s = true ->
  (forall d, tick hypot pow d (s, r) = (s, r))
  /\ (forall a, resetsRound a s = false ->
                isGameOver (fst (reducer hypot pow a (s, r))) = true).
Proof.
  intro G. split.
  - intro d. apply tick_blocked. apply tickBlocked_gameOver. exact G.
  - intros a R. destruct (reducer_tick_or_not a) as [[d ->]|T].
    + cbn [reducer]. rewrite tick_blocked by (apply tickBlocked_gameOver; exact G).
      exact G.
    + rewrite (cr_isGameOver _ _ (command_reducer hypot pow a s r T R)). exact G.
Qed.

(** C7 (as amended): take a tick that runs and whose hazard step finds, after
    the steering and the pickups of the same tick, the hazard off cooldown
    and touching the player, no shield charge, no invulnerability, one life
    and the second chance used.  After the tick the game is over and paused,
    and the player's velocity and the input are zero.  From any game-over
    state a tick returns the state unchanged, and every reducer other than
    [restartGame] and a change of difficulty leaves the game over. *)
Theorem C7_game_over_is_terminal (payloadDeltaMs : Q) (w : W) (s : GameState) :
  let s1 := fst (tickUntilHazard hypot pow payloadDeltaMs w) in
  let s' := fst (tick hypot pow payloadDeltaMs w) in
  (tickBlocked (fst w) = false ->
   hazardCollides hypot (frameScaleOf payloadDeltaMs) s1 = true ->
   shieldCharges s1 = 0%Z ->
   invulnerabilityMs s1 == 0 ->
   lives s1 = 1%Z ->
   secondChanceUsed s1 = true ->
   isGameOver s' = true
   /\ isPaused s' = true
   /\ DynamicEntity.vx (player s') = 0
   /\ DynamicEntity.vy (player s') = 0
   /\ input s' = zeroVector)
  /\ (isGameOver s = true ->
      forall r : Rand,
        (forall d, tick hypot pow d (s, r) = (s, r))
        /\ (forall a, resetsRound a s = false ->
                      isGameOver (fst (reducer hypot pow a (s, r))) = true)).
Proof.
  cbv zeta. split.
  - intros B C S V L U.
    rewrite (tick_collides payloadDeltaMs w B C).
    destruct (tickStruck_last_life payloadDeltaMs w S V L) as (O & _).
    rewrite U in O. cbn [outcome_rel] in O.
    destruct O as (_ & _ & _ & OG & OP & OI & OX & OY & _).
    pose proof (step_tickAfterHazard hypot payloadDeltaMs (tickStruck payloadDeltaMs w))
      as P3.
    revert OG OP OI OX OY P3.
    generalize (tickAfterHazard hypot payloadDeltaMs (tickStruck payloadDeltaMs w)).
    generalize (tickStruck payloadDeltaMs w). intros w2 w3 OG OP OI OX OY P3.
    destruct P3 as [[] PI PX PY].
    repeat apply conj.
    + congruence.
    + auto.
    + congruence.
    + congruence.
    + congruence.
  - intros G r. apply gameOver_terminal. exact G.
Qed.

(** *** The hazard and the jupiter counter *)

(** Whether a reducer call runs a hazard collision. *)
Definition collidesIn (a : Action) (w : W) : bool :=
  match a with
  | Tick payloadDeltaMs =>
      negb (tickBlocked (fst w))
      && hazardCollides hypot (frameScaleOf payloadDeltaMs)
           (fst (tickUntilHazard hypot pow payloadDeltaMs w))
  | _ => false
  end.

(** Whether a run of reducer calls from [w] runs a hazard collision. *)
Fixpoint everCollided (actions : list Action) (w : W) : bool :=
  match actions with
  | [] => false
  | a :: rest => collidesIn a w || everCollided rest (reducer hypot pow a w)
  end.

Lemma jupiter_reducer a s r :
  PlanetCatchStats.jupiter (planetCatches (fst (reducer hypot pow a (s, r))))
  = if resetsRound a s then 0%Z
    else (PlanetCatchStats.jupiter (planetCatches s)
          + if collidesIn a (s, r) then 1 else 0)%Z.
Proof.
  destruct (resetsRound a s) eqn:R.
  - rewrite (fr_planetCatches _ _ (reducer_resets hypot pow a s r R)). reflexivity.
  - destruct (reducer_tick_or_not a) as [[d ->]|T].
    + cbn [reducer collidesIn fst]. destruct (tickBlocked s) eqn:B.
      * rewrite tick_blocked by exact B. cbn [fst negb andb]. lia.
      * apply (tr_jupiter _ _ _ (turn_tick hypot pow d (s, r) B)).
    + rewrite (cr_planetCatches _ _ (command_reducer hypot pow a s r T R)).
      destruct a; try discriminate; cbn [collidesIn]; lia.
Qed.

Lemma explorer_reducer a s r :
  In explorer (badges (fst (reducer hypot pow a (s, r)))) ->
  In explorer (badges s)
  \/ (0 < PlanetCatchStats.jupiter (planetCatches s))%Z
  \/ collidesIn a (s, r) = true.
Proof.
  destruct (reducer_tick_or_not a) as [[d ->]|T].
  - cbn [reducer collidesIn fst]. destruct (tickBlocked s) eqn:B.
    + rewrite tick_blocked by exact B. auto.
    + apply (tr_explorer _ _ _ (turn_tick hypot pow d (s, r) B)).
  - destruct (resetsRound a s) eqn:R.
    + rewrite (fr_badges _ _ (reducer_resets hypot pow a s r R)).
      destruct a; cbn [roundBase]; auto.
    + rewrite (cr_badges _ _ (command_reducer hypot pow a s r T R)). auto.
Qed.

Lemma explorer_run actions w :
  In explorer (badges (fst (run hypot pow actions w)))
  \/ (0 < PlanetCatchStats.jupiter (planetCatches (fst (run hypot pow actions w))))%Z ->
  In explorer (badges (fst w))
  \/ (0 < PlanetCatchStats.jupiter (planetCatches (fst w)))%Z
  \/ everCollided actions w = true.
Proof.
  revert w. induction actions as [|a rest IH]; intros [s r];
    cbn [run fold_left everCollided fst].
  - tauto.
  - intro H. apply (IH (reducer hypot pow a (s, r))) in H.
    pose proof (explorer_reducer a s r) as E.
    pose proof (jupiter_reducer a s r) as J.
    destruct (collidesIn a (s, r)); [auto|].
    cbn [orb]. destruct H as [H|[H|H]]; [| |auto].
    + destruct (E H) as [K|[K|K]]; [auto|auto|discriminate].
    + rewrite J in H. destruct (resetsRound a s); [lia|]. right; left. lia.
Qed.

Lemma jupiter_source (s : GameState) :
  getPlanetSourcePosition Jupiter (bumpCatch Jupiter s) = entityPos (Hazard.body (hazard s)).
Proof. reflexivity. Qed.

Lemma initial_catches stored r :
  badges (fst (createInitialState stored r)) = []
  /\ PlanetCatchStats.jupiter (planetCatches (fst (createInitialState stored r))) = 0%Z.
Proof. unfold createInitialState. cbv zeta. split; reflexivity. Qed.

(** [after] has the velocity of [before] after the radial impulse of an
    impact at [source]: unchanged when the body is less than 1 away from the
    source, and otherwise pushed by the unit vector from the source to the
    body times [max(0.14, 2.1 / max(1, distance / 45))] times [scale]. *)
Definition radialImpulse (scale : Q) (source : Vector) (before after : DynamicEntity)
  : Prop :=
  let dx := DynamicEntity.x before - vec_x source in
  let dy := DynamicEntity.y before - vec_y source in
  let distance := hypot dx dy in
  let impulse := Qmax 0.14 (2.1 / Qmax 1 (distance / 45)) * scale in
  if Qltb distance 1
  then DynamicEntity.vx after = DynamicEntity.vx before
       /\ DynamicEntity.vy after = DynamicEntity.vy before
  else DynamicEntity.vx after = DynamicEntity.vx before + dx / distance * impulse
       /\ DynamicEntity.vy after = DynamicEntity.vy before + dy / distance * impulse.

Lemma impactPush_radial config source before entity :
  DynamicEntity.x entity = DynamicEntity.x before ->
  DynamicEntity.y entity = DynamicEntity.y before ->
  DynamicEntity.vx entity = DynamicEntity.vx before ->
  DynamicEntity.vy entity = DynamicEntity.vy before ->
  radialImpulse (impactImpulseScale config) source before
    (impactPush hypot config source entity).
Proof.
  intros X Y VX VY. unfold radialImpulse, impactPush. cbv zeta.
  rewrite X, Y.
  destruct (Qltb _ 1);
    cbn [DynamicEntity.vx DynamicEntity.vy DynamicEntity.set_vx DynamicEntity.set_vy];
    rewrite VX, VY; split; reflexivity.
Qed.

(** [triggerPlanetImpact] gives every moving body the radial impulse from
    the position of its source. *)
Lemma triggerPlanetImpact_pushes source s :
  let struck := triggerPlanetImpact hypot source s in
  let scale := impactImpulseScale (getDifficultyConfig (difficulty s)) in
  let position := getPlanetSourcePosition source s in
  radialImpulse scale position (Collectible.body (spark s)) (Collectible.body (spark struck))
  /\ radialImpulse scale position (Collectible.body (comet s))
       (Collectible.body (comet struck))
  /\ radialImpulse scale position (Hazard.body (hazard s)) (Hazard.body (hazard struck))
  /\ Forall2
       (fun planet planet' =>
          radialImpulse scale position (ExtraPlanet.body planet)
            (ExtraPlanet.body planet'))
       (extraPlanets s) (extraPlanets struck).
Proof.
  cbv zeta. unfold triggerPlanetImpact, upd_movingBodies. cbv zeta.
  generalize (getPlanetSourcePosition source s). intro position.
  unfold upd_sparkBody, upd_cometBody, upd_hazardBody, upd_extraPlanets, upd_home. rd.
  repeat split; try (apply impactPush_radial; reflexivity).
  induction (extraPlanets s) as [|planet rest IH]; cbn [map]; constructor.
  - apply impactPush_radial; reflexivity.
  - exact IH.
Qed.

(** C10 (as amended): in a tick that runs and whose hazard step finds the
    hazard, after its move of this tick, off cooldown and touching the
    player, whatever the outcome, the jupiter counter goes up by one and
    the hazard step gives every moving body (Earth, Mars, the hazard and the
    extra planets) the radial impulse from the position of the hazard, sets
    the impact timer of the hazard to 420 and the chain timer to 220; a
    reducer call changes the jupiter counter only by resetting it to zero
    for a new round or by adding one in such a tick; and a game that holds
    the solar-explorer badge has run through such a tick. *)
Theorem C10_jupiter_counts_hazard_collisions :
  (forall (payloadDeltaMs : Q) (w : W),
     let w1 := tickUntilHazard hypot pow payloadDeltaMs w in
     let moved := advanceHazard hypot (frameScaleOf payloadDeltaMs) (fst w1) in
     let s2 :=
       fst (moveHazard hypot (clampDelta payloadDeltaMs) (frameScaleOf payloadDeltaMs) w1) in
     let source := entityPos (Hazard.body (hazard moved)) in
     let scale := impactImpulseScale (getDifficultyConfig (difficulty moved)) in
     tickBlocked (fst w) = false ->
     hazardCollides hypot (frameScaleOf payloadDeltaMs) (fst w1) = true ->
     PlanetCatchStats.jupiter (planetCatches (fst (tick hypot pow payloadDeltaMs w)))
     = (PlanetCatchStats.jupiter (planetCatches (fst w)) + 1)%Z
     /\ radialImpulse scale source (Collectible.body (spark moved))
          (Collectible.body (spark s2))
     /\ radialImpulse scale source (Collectible.body (comet moved))
          (Collectible.body (comet s2))
     /\ radialImpulse scale source (Hazard.body (hazard moved)) (Hazard.body (hazard s2))
     /\ Forall2
          (fun planet planet' =>
             radialImpulse scale source (ExtraPlanet.body planet)
               (ExtraPlanet.body planet'))
          (extraPlanets moved) (extraPlanets s2)
     /\ planetChainMs s2 = 220
     /\ DynamicEntity.impactMs (Hazard.body (hazard s2)) = 420)
  /\ (forall (a : Action) (s : GameState) (r : Rand),
        PlanetCatchStats.jupiter (planetCatches (fst (reducer hypot pow a (s, r))))
        = if resetsRound a s then 0%Z
          else (PlanetCatchStats.jupiter (planetCatches s)
                + if collidesIn a (s, r) then 1 else 0)%Z)
  /\ (forall (stored : option Q) (r : Rand) (actions : list Action),
        In explorer
          (badges (fst (run hypot pow actions (createInitialState stored r)))) ->
        everCollided actions (createInitialState stored r) = true).
Proof.
  repeat apply conj.
  - intros payloadDeltaMs w. cbv zeta. intros B C. split.
    + rewrite (tr_jupiter _ _ _ (turn_tick hypot pow payloadDeltaMs w B)), C.
      reflexivity.
    + rewrite (moveHazard_collides hypot _ _ _ C).
      generalize (snd (tickUntilHazard hypot pow payloadDeltaMs w)).
      generalize (advanceHazard hypot (frameScaleOf payloadDeltaMs)
                    (fst (tickUntilHazard hypot pow payloadDeltaMs w))).
      intros moved r1.
      destruct (collideHazard_impact hypot (moved, r1))
        as (S & M & X & _ & P & VX & VY & I).
      destruct (triggerPlanetImpact_pushes Jupiter (bumpCatch Jupiter moved))
        as (TS & TM & TH & TX).
      cbn [fst] in S, M, X, P, VX, VY, I.
      rewrite S, M, X.
      split; [exact TS|]. split; [exact TM|]. split; [|split; [exact TX|]].
      * unfold radialImpulse in TH |- *. cbv zeta in TH |- *.
        rewrite VX, VY. exact TH.
      * split; [exact P | exact I].
  - apply jupiter_reducer.
  - intros stored r actions H.
    destruct (initial_catches stored r) as [NB NJ].
    destruct (explorer_run actions (createInitialState stored r) (or_introl H))
      as [K|[K|K]].
    + rewrite NB in K. destruct K.
    + rewrite NJ in K. lia.
    + exact K.
Qed.

End Claims.

(** C1, as stated, fails: [afterFirstTick] is reachable and has counted eight
    pickups, and [restartGame] takes every counter back to zero. *)
Lemma C1_restart_resets_the_counters :
  reachable hypotQ powQ afterFirstTick
  /\ EventSignal.collect (eventSignal afterFirstTick) = 8%Z
  /\ EventSignal.collect
       (eventSignal (fst (reducer hypotQ powQ RestartGame (afterFirstTick, halves))))
     = 0%Z
  /\ ~ ev_le (eventSignal afterFirstTick)
         (eventSignal (fst (reducer hypotQ powQ RestartGame (afterFirstTick, halves)))).
Proof.
  split; [apply reachable_step, reachable_init|].
  split; [vm_compute; reflexivity|].
  split; [vm_compute; reflexivity|].
  unfold ev_le. intros [H _]. vm_compute in H. apply H. reflexivity.
Qed.

Lemma C8_state_bounds_witness :
  (1 <= combo afterFirstTick <= 9)%Z
  /\ (0 <= lives afterFirstTick)%Z
  /\ (0 <= shieldCharges afterFirstTick)%Z
  /\ 0 <= MissionState.progress (currentMission afterFirstTick)
       <= inject_Z (MissionState.target (currentMission afterFirstTick)).
Proof.
  apply (C8_state_bounds hypotQ powQ afterFirstTick).
  apply reachable_step, reachable_init.
Defined.

Lemma C9_high_score_never_decreases_witness :
  (highScore centredGame
   <= highScore (fst (run hypotQ powQ [Tick 16; RestartGame; Tick 16]
                        (centredGame, halves))))%Z.
Proof.
  apply (C9_high_score_never_decreases hypotQ powQ centredGame).
  apply reachable_init.
Defined.

(** C3, as stated, fails: the player of [invulnerableGame] is invulnerable
    and touches the hazard, which is off cooldown; the tick leaves the hazard
    with a cooldown of 500 ms, outside 900-1200 ms. *)
Lemma C3_invulnerable_collision_leaves_500 :
  let s' := fst (reducer hypotQ powQ (Tick 16) (invulnerableGame, halves)) in
  DynamicEntity.cooldownMs (Hazard.body (hazard invulnerableGame)) = 0
  /\ invulnerabilityMs invulnerableGame = 1000
  /\ collidesIn hypotQ powQ (Tick 16) (invulnerableGame, halves) = true
  /\ DynamicEntity.cooldownMs (Hazard.body (hazard s')) = 500
  /\ ~ (900 <= DynamicEntity.cooldownMs (Hazard.body (hazard s')) <= 1200).
Proof.
  cbv zeta. repeat apply conj; try (vm_compute; reflexivity).
  intros [H _]. vm_compute in H. apply H. reflexivity.
Qed.

Lemma C3_cooldown_after_consume_witness :
  DynamicEntity.cooldownMs
    (Collectible.body
       (getCollectible SlotSpark
          (fst (moveCollectible hypotQ SlotSpark 16 1 (centredGame, halves)))))
  = 500
  /\ option_map (fun p => DynamicEntity.cooldownMs (ExtraPlanet.body p))
       (nth_error
          (extraPlanets (fst (moveExtraPlanetAt hypotQ 16 1 (centredGame, halves) 1)))
          1)
     = Some 650
  /\ HomePortal.cooldownMs (home (fst (moveHome hypotQ 16 (centredGame, halves)))) = 1000
  /\ DynamicEntity.cooldownMs
       (Hazard.body (hazard (fst (moveHazard hypotQ 16 1 (invulnerableGame, halves)))))
     = 500
  /\ DynamicEntity.cooldownMs
       (Hazard.body (hazard (fst (moveHazard hypotQ 16 1 (centredGame, halves)))))
     = 900
  /\ DynamicEntity.cooldownMs
       (Hazard.body (hazard (fst (moveHazard hypotQ 16 1 (lastLifeGame, halves)))))
     = 1200.
Proof.
  destruct (C3_cooldown_after_consume hypotQ) as (Core & Extra & Home & Haz).
  repeat apply conj.
  - apply Core; vm_compute; reflexivity.
  - destruct (nth_error (extraPlanets centredGame) 1) as [planet0|] eqn:N0;
      [|vm_compute in N0; discriminate].
    pose proof N0 as E0. vm_compute in E0. injection E0 as <-.
    match type of N0 with
    | _ = Some ?p0 =>
        destruct (nth_error (extraPlanets (advanceExtraPlanet hypotQ 1 1 p0 centredGame)) 1)
          as [planet|] eqn:N; [|vm_compute in N; discriminate]
    end.
    pose proof N as E. vm_compute in E. injection E as <-.
    apply (Extra 1%nat 16 1 (centredGame, halves) _ _ N0 N); vm_compute; reflexivity.
  - apply Home; vm_compute; reflexivity.
  - rewrite Haz by (vm_compute; reflexivity). vm_compute. reflexivity.
  - rewrite Haz by (vm_compute; reflexivity). vm_compute. reflexivity.
  - rewrite Haz by (vm_compute; reflexivity). vm_compute. reflexivity.
Defined.


(** C5, as stated, fails: in [earthPickupGame] the pickup of Earth, worth 16
    points at combo 3, also completes the mission, and the score grows by
    48 + 56. *)
Lemma C5_pickup_that_completes_the_mission :
  let s' := fst (reducer hypotQ powQ (Tick 16) (earthPickupGame, halves)) in
  Collectible.points (spark earthPickupGame) = 16%Z
  /\ combo earthPickupGame = 3%Z
  /\ score earthPickupGame = 0%Z
  /\ EventSignal.collect (eventSignal s') = 1%Z
  /\ combo s' = 4%Z
  /\ score s' = 104%Z.
Proof. cbv zeta. repeat apply conj; vm_compute; reflexivity. Qed.

Lemma C5_core_pickup_at_combo_3_witness :
  let s' := fst (moveCollectible hypotQ SlotSpark 16 1 (earthPickupGame, halves)) in
  score s' = (0 + 48 + 56)%Z
  /\ EventSignal.collect (eventSignal s') = (0 + 1)%Z
  /\ combo s' = 4%Z
  /\ comboTimerMs s' = 3200.
Proof.
  cbv zeta.
  destruct (C5_core_pickup_at_combo_3 hypotQ SlotSpark 16 1 (earthPickupGame, halves))
    as (HS & HC & HK & HT); try (vm_compute; reflexivity).
  repeat apply conj.
  - rewrite HS. vm_compute. reflexivity.
  - rewrite HC. vm_compute. reflexivity.
  - exact HK.
  - exact HT.
Defined.

(** C6, as stated, fails: [survivorGame] is on normal difficulty, the hazard
    is off cooldown and on the player, there is no shield charge and no
    invulnerability, one life, and the second chance is unused; the tick
    that grants the second chance also completes the survive mission, which
    adds a life: lives is 2 after the tick.  And with Venus off cooldown as
    well, the tick first picks up Venus, whose shield charge then absorbs the
    collision: the second chance stays unused. *)
Lemma C6_the_tick_can_end_with_two_lives :
  let s' := fst (reducer hypotQ powQ (Tick 16) (survivorGame, halves)) in
  let v' := fst (reducer hypotQ powQ (Tick 16) (venusReady lastLifeGame, halves)) in
  (difficulty survivorGame = Normal
   /\ DynamicEntity.cooldownMs (Hazard.body (hazard survivorGame)) = 0
   /\ getDistance hypotQ (entityPos (player survivorGame))
        (entityPos (Hazard.body (hazard survivorGame))) = 0
   /\ shieldCharges survivorGame = 0%Z
   /\ invulnerabilityMs survivorGame = 0
   /\ lives survivorGame = 1%Z
   /\ secondChanceUsed survivorGame = false)
  /\ secondChanceUsed s' = true
  /\ lives s' = 2%Z
  /\ (shieldCharges (venusReady lastLifeGame) = 0%Z
      /\ lives (venusReady lastLifeGame) = 1%Z
      /\ secondChanceUsed (venusReady lastLifeGame) = false)
  /\ secondChanceUsed v' = false.
Proof. cbv zeta. repeat apply conj; vm_compute; reflexivity. Qed.

Lemma C6_second_chance_on_the_last_life_witness :
  let s' := fst (tick hypotQ powQ 16 (lastLifeGame, halves)) in
  secondChanceUsed s' = true
  /\ isGameOver s' = false
  /\ EventSignal.shield (eventSignal s') = (0 + 1)%Z
  /\ lives s' = 1%Z.
Proof.
  cbv zeta.
  destruct (C6_second_chance_on_the_last_life hypotQ powQ 16 (lastLifeGame, halves))
    as (HU & HG & HE & HL); try (vm_compute; reflexivity).
  repeat apply conj.
  - exact HU.
  - exact HG.
  - rewrite HE. vm_compute. reflexivity.
  - rewrite HL. vm_compute. reflexivity.
Defined.

(** C7, as stated, fails: [venusReady lastChanceGone] is on normal
    difficulty, the hazard is off cooldown and on the player, there is no
    shield charge and no invulnerability, one life, and the second chance
    is used; the tick first picks up Venus, whose shield charge then absorbs
    the collision, and the game goes on. *)
Lemma C7_a_pickup_in_the_same_tick_saves_the_game :
  let s := venusReady lastChanceGone in
  let s' := fst (reducer hypotQ powQ (Tick 16) (s, halves)) in
  (difficulty s = Normal
   /\ DynamicEntity.cooldownMs (Hazard.body (hazard s)) = 0
   /\ getDistance hypotQ (entityPos (player s)) (entityPos (Hazard.body (hazard s))) = 0
   /\ shieldCharges s = 0%Z
   /\ invulnerabilityMs s = 0
   /\ lives s = 1%Z
   /\ secondChanceUsed s = true)
  /\ isGameOver s' = false
  /\ isPaused s' = false
  /\ lives s' = 1%Z.
Proof. cbv zeta. repeat apply conj; vm_compute; reflexivity. Qed.

Lemma C7_game_over_is_terminal_witness :
  let s' := fst (tick hypotQ powQ 16 (lastChanceGone, halves)) in
  (isGameOver s' = true
   /\ isPaused s' = true
   /\ DynamicEntity.vx (player s') = 0
   /\ DynamicEntity.vy (player s') = 0
   /\ input s' = zeroVector)
  /\ tick hypotQ powQ 16 (s', halves) = (s', halves)
  /\ isGameOver (fst (reducer hypotQ powQ TogglePause (s', halves))) = true.
Proof.
  cbv zeta.
  destruct (C7_game_over_is_terminal hypotQ powQ 16 (lastChanceGone, halves)
              (fst (tick hypotQ powQ 16 (lastChanceGone, halves))))
    as [Over Terminal].
  split.
  - apply Over; vm_compute; reflexivity.
  - destruct (Terminal ltac:(vm_compute; reflexivity) halves) as [Ticks Others].
    split.
    + apply Ticks.
    + apply Others. vm_compute. reflexivity.
Defined.

(** C10, as stated, fails: in [fleeingHazardGame] the hazard is off
    cooldown and the player overlaps it, at exactly the sum of the two
    radii; the tick first moves the hazard away, to about 521.5, so its
    collision test fails: the jupiter counter and the impact timers stay as
    they were. *)
Lemma C10_a_touching_hazard_can_get_away :
  let s := fleeingHazardGame in
  let s' := fst (reducer hypotQ powQ (Tick 16) (s, halves)) in
  (tickBlocked s = false
   /\ DynamicEntity.cooldownMs (Hazard.body (hazard s)) = 0
   /\ getDistance hypotQ (entityPos (player s)) (entityPos (Hazard.body (hazard s)))
      = DynamicEntity.radius (player s) + DynamicEntity.radius (Hazard.body (hazard s)))
  /\ PlanetCatchStats.jupiter (planetCatches s') = PlanetCatchStats.jupiter (planetCatches s)
  /\ DynamicEntity.impactMs (Hazard.body (hazard s')) = 0
  /\ lives s' = lives s
  /\ shieldCharges s' = shieldCharges s.
Proof. cbv zeta. repeat apply conj; vm_compute; reflexivity. Qed.

Lemma C10_jupiter_counts_hazard_collisions_witness :
  let w1 := tickUntilHazard hypotQ powQ 16 (earthAsideGame, halves) in
  let moved := advanceHazard hypotQ (frameScaleOf 16) (fst w1) in
  let s2 := fst (moveHazard hypotQ (clampDelta 16) (frameScaleOf 16) w1) in
  PlanetCatchStats.jupiter
    (planetCatches (fst (tick hypotQ powQ 16 (earthAsideGame, halves))))
  = (0 + 1)%Z
  /\ DynamicEntity.vx (Collectible.body (spark moved))
     < DynamicEntity.vx (Collectible.body (spark s2))
  /\ everCollided hypotQ powQ [Tick 16] (createInitialState None halves) = true.
Proof.
  cbv zeta.
  destruct (C10_jupiter_counts_hazard_collisions hypotQ powQ) as (Tick1 & _ & Badge).
  split; [|split].
  - destruct (Tick1 16 (earthAsideGame, halves)
                ltac:(vm_compute; reflexivity) ltac:(vm_compute; reflexivity))
      as [J _].
    rewrite J. vm_compute. reflexivity.
  - destruct (Tick1 16 (earthAsideGame, halves)
                ltac:(vm_compute; reflexivity) ltac:(vm_compute; reflexivity))
      as (_ & Earth & _).
    unfold radialImpulse in Earth. cbv zeta in Earth.
    match type of Earth with
    | if ?c then _ else _ =>
        assert (D : c = false) by (vm_compute; reflexivity); rewrite D in Earth
    end.
    destruct Earth as [VX _]. rewrite VX. vm_compute. reflexivity.
  - apply Badge. vm_compute. right. left. reflexivity.
Defined.

(** * Further properties of the engine *)

(** ** Positions *)

Lemma clampPosition_range (value min max : Q) :
  min <= clampPosition value min max
  /\ (min <= max -> clampPosition value min max <= max).
Proof.
  unfold clampPosition. split.
  - apply Q.le_max_l.
  - intro H. apply Q.max_lub; [exact H | apply Q.le_min_l].
Qed.

(** X1: [clampPosition] never returns less than [min]; when the interval is
    not empty the result lies in it, and a value already inside is returned
    as it is; when the interval is empty the result is [min]. *)
Theorem clampPosition_within (value min max : Q) :
  min <= clampPosition value min max
  /\ (min <= max -> clampPosition value min max <= max)
  /\ (min <= value <= max -> clampPosition value min max == value)
  /\ (max <= min -> clampPosition value min max == min).
Proof.
  destruct (clampPosition_range value min max) as [L U].
  split; [exact L | split; [exact U | clear L U]].
  unfold clampPosition. split.
  - intros [L U]. rewrite (Q.min_r max value U). apply Q.max_r. exact L.
  - intro H. apply Q.max_l.
    apply Qle_trans with max; [apply Q.le_min_l | exact H].
Qed.

Lemma clampPosition_within_witness :
  clampPosition 700 18 302 <= 302 /\ clampPosition 100 18 302 == 100.
Proof.
  destruct (clampPosition_within 700 18 302) as (_ & U & _).
  destruct (clampPosition_within 100 18 302) as (_ & _ & I & _).
  split; [apply U | apply I]; lra.
Defined.

Lemma randomBetween_range (min max : Q) (r : Rand) :
  min <= max -> 0 <= r 0%nat <= 1 ->
  min <= fst (randomBetween min max r) <= max.
Proof.
  intros M [L U]. unfold randomBetween, Math_random. cbn [fst snd].
  generalize dependent (r 0%nat). intros d L U. nra.
Qed.

(** X2: when the two draws it consumes lie between 0 and 1, [randomPosition]
    returns a point at least [radius] away from the left and the top edge
    and at most [max(radius, size - radius)] along each axis, also in an
    arena too small for the body; it leaves the stream two draws further. *)
Theorem randomPosition_inside (width height radius : Q) (r : Rand) :
  0 <= r 0%nat <= 1 ->
  0 <= r 1%nat <= 1 ->
  let p := randomPosition width height radius r in
  radius <= vec_x (fst p) <= Qmax radius (width - radius)
  /\ radius <= vec_y (fst p) <= Qmax radius (height - radius)
  /\ forall n, snd p n = r (S (S n)).
Proof.
  intros R0 R1. cbv zeta. unfold randomPosition. cbv zeta. cbn [fst snd vec_x vec_y].
  repeat apply conj.
  - apply randomBetween_range; [apply Q.le_max_l | exact R0].
  - apply randomBetween_range; [apply Q.le_max_l | exact R0].
  - apply randomBetween_range; [apply Q.le_max_l | exact R1].
  - apply randomBetween_range; [apply Q.le_max_l | exact R1].
  - intro n. reflexivity.
Qed.

Lemma randomPosition_inside_witness :
  18 <= vec_x (fst (randomPosition 960 540 18 halves)) <= Qmax 18 (960 - 18)
  /\ 18 <= vec_y (fst (randomPosition 960 540 18 halves)) <= Qmax 18 (540 - 18).
Proof.
  destruct (randomPosition_inside 960 540 18 halves) as (X & Y & _).
  - unfold halves. lra.
  - unfold halves. lra.
  - split; [exact X | exact Y].
Defined.

(** ** Motion *)

Ltac Qtests :=
  repeat match goal with
  | H : Qleb _ _ = true |- _ => apply Qleb_true in H
  | H : Qleb _ _ = false |- _ => apply Qleb_false in H
  | H : Qltb _ _ = true |- _ => apply Qltb_true in H
  | H : Qltb _ _ = false |- _ => apply Qltb_false in H
  end.

Lemma bounceInsideArena_body
  (width height movementScale bounceDamping : Q) (entity : DynamicEntity) :
  let e := bounceInsideArena width height movementScale bounceDamping entity in
  let r := DynamicEntity.radius entity in
  r <= DynamicEntity.x e <= Qmax r (width - r)
  /\ r <= DynamicEntity.y e <= Qmax r (height - r)
  /\ DynamicEntity.radius e = r
  /\ DynamicEntity.visible e = DynamicEntity.visible entity
  /\ DynamicEntity.cooldownMs e = DynamicEntity.cooldownMs entity
  /\ DynamicEntity.impactMs e = DynamicEntity.impactMs entity.
Proof.
  cbv zeta. unfold bounceInsideArena. cbv zeta.
  cbn [DynamicEntity.radius DynamicEntity.set_x DynamicEntity.set_y DynamicEntity.x
       DynamicEntity.y].
  pose proof (Q.le_max_l (DynamicEntity.radius entity)
                (width - DynamicEntity.radius entity)) as MX.
  pose proof (Q.le_max_l (DynamicEntity.radius entity)
                (height - DynamicEntity.radius entity)) as MY.
  revert MX MY.
  generalize (Qmax (DynamicEntity.radius entity) (width - DynamicEntity.radius entity)).
  generalize (Qmax (DynamicEntity.radius entity) (height - DynamicEntity.radius entity)).
  intros maxY maxX MX MY.
  repeat match goal with
  | |- context [if Qleb ?a ?b then _ else _] =>
      let E := fresh "E" in destruct (Qleb a b) eqn:E; rd_all
  end;
  Qtests; repeat apply conj; try reflexivity; lra.
Qed.

(** X3: whatever the velocity and the step, [bounceInsideArena] leaves the
    body between [radius] and [max(radius, size - radius)] along each axis,
    and keeps its radius, visibility, cooldown and impact timer. *)
Theorem bounceInsideArena_inside
  (width height movementScale bounceDamping : Q) (entity : DynamicEntity) :
  let e := bounceInsideArena width height movementScale bounceDamping entity in
  let r := DynamicEntity.radius entity in
  r <= DynamicEntity.x e <= Qmax r (width - r)
  /\ r <= DynamicEntity.y e <= Qmax r (height - r)
  /\ DynamicEntity.radius e = r
  /\ DynamicEntity.visible e = DynamicEntity.visible entity
  /\ DynamicEntity.cooldownMs e = DynamicEntity.cooldownMs entity
  /\ DynamicEntity.impactMs e = DynamicEntity.impactMs entity.
Proof.
  exact (bounceInsideArena_body width height movementScale bounceDamping entity).
Qed.

(** X4: in an arena wider and higher than the body, with a bounce damping
    that is not negative, a body that [bounceInsideArena] leaves on a wall
    does not move into that wall: on the left and the top wall its velocity
    component is not negative, on the right and the bottom wall it is not
    positive. *)
Theorem bounceInsideArena_turns_back
  (width height movementScale bounceDamping : Q) (entity : DynamicEntity) :
  let e := bounceInsideArena width height movementScale bounceDamping entity in
  let r := DynamicEntity.radius entity in
  0 <= bounceDamping ->
  r < width - r ->
  r < height - r ->
  (DynamicEntity.x e == r -> 0 <= DynamicEntity.vx e)
  /\ (DynamicEntity.x e == width - r -> DynamicEntity.vx e <= 0)
  /\ (DynamicEntity.y e == r -> 0 <= DynamicEntity.vy e)
  /\ (DynamicEntity.y e == height - r -> DynamicEntity.vy e <= 0).
Proof.
  cbv zeta. intros D W H. unfold bounceInsideArena. cbv zeta.
  cbn [DynamicEntity.radius DynamicEntity.set_x DynamicEntity.set_y DynamicEntity.x
       DynamicEntity.y DynamicEntity.vx DynamicEntity.vy].
  pose proof (Q.max_r _ _ (Qlt_le_weak _ _ W)) as MX.
  pose proof (Q.max_r _ _ (Qlt_le_weak _ _ H)) as MY.
  revert MX MY.
  generalize (Qmax (DynamicEntity.radius entity) (width - DynamicEntity.radius entity)).
  generalize (Qmax (DynamicEntity.radius entity) (height - DynamicEntity.radius entity)).
  intros maxY maxX MX MY.
  repeat match goal with
  | |- context [if Qleb ?a ?b then _ else _] =>
      let E := fresh "E" in destruct (Qleb a b) eqn:E; rd_all
  end;
  Qtests;
  repeat match goal with
  | |- context [Qabs ?t] =>
      lazymatch goal with
      | _ : 0 <= Qabs t |- _ => fail
      | _ => pose proof (Qabs_nonneg t)
      end
  end;
  repeat apply conj; intro K; nra.
Qed.

Ltac Qcompute := vm_compute; first [reflexivity | discriminate].

Ltac conjs := repeat lazymatch goal with |- _ /\ _ => split end.

(** A body two units from the left wall, drifting left. *)
Definition driftingLeft : DynamicEntity :=
  {| DynamicEntity.x := 20; DynamicEntity.y := 100; DynamicEntity.vx := -5;
     DynamicEntity.vy := 0; DynamicEntity.radius := 18; DynamicEntity.visible := true;
     DynamicEntity.cooldownMs := 0; DynamicEntity.impactMs := 0 |}.

Lemma bounceInsideArena_turns_back_witness :
  DynamicEntity.x (bounceInsideArena 960 540 1 0.8 driftingLeft) == 18
  /\ 0 <= DynamicEntity.vx (bounceInsideArena 960 540 1 0.8 driftingLeft).
Proof.
  destruct (bounceInsideArena_turns_back 960 540 1 0.8 driftingLeft) as (L & _);
    [Qcompute | Qcompute | Qcompute |].
  assert (X : DynamicEntity.x (bounceInsideArena 960 540 1 0.8 driftingLeft) == 18)
    by Qcompute.
  split; [exact X | exact (L X)].
Defined.

Section Collisions.

Variable hypot : Q -> Q -> Q.

(** X5: [resolvePlanetPair] leaves both bodies as they are when one of them
    is hidden, when their centres are at most 0.001 apart, or when they do
    not overlap; it always keeps radius, visibility and cooldown of both
    bodies and never lowers an impact timer.  When it acts, on two visible
    bodies whose distance lies strictly between 0.001 and the sum of their
    radii, both impact timers end at 170 or more, each body is moved by half
    the overlap along the line of centres, the first against it and the
    second along it, and along each axis the bodies are pushed apart: the
    body on the lower side neither moves nor accelerates upwards, the other
    neither moves nor accelerates downwards. *)
Theorem resolvePlanetPair_separates (first second : DynamicEntity) :
  let pair := resolvePlanetPair hypot first second in
  let dx := DynamicEntity.x second - DynamicEntity.x first in
  let dy := DynamicEntity.y second - DynamicEntity.y first in
  let distance := hypot dx dy in
  let minDistance := DynamicEntity.radius first + DynamicEntity.radius second in
  let overlap := minDistance - distance in
  (DynamicEntity.visible first && DynamicEntity.visible second = false
   \/ distance <= 0.001 \/ minDistance <= distance ->
   pair = (first, second))
  /\ (DynamicEntity.radius (fst pair) = DynamicEntity.radius first
      /\ DynamicEntity.radius (snd pair) = DynamicEntity.radius second)
  /\ (DynamicEntity.visible (fst pair) = DynamicEntity.visible first
      /\ DynamicEntity.visible (snd pair) = DynamicEntity.visible second)
  /\ (DynamicEntity.cooldownMs (fst pair) = DynamicEntity.cooldownMs first
      /\ DynamicEntity.cooldownMs (snd pair) = DynamicEntity.cooldownMs second)
  /\ (DynamicEntity.impactMs first <= DynamicEntity.impactMs (fst pair)
      /\ DynamicEntity.impactMs second <= DynamicEntity.impactMs (snd pair))
  /\ (DynamicEntity.visible first = true -> DynamicEntity.visible second = true ->
      0.001 < distance -> distance < minDistance ->
      (170 <= DynamicEntity.impactMs (fst pair)
       /\ 170 <= DynamicEntity.impactMs (snd pair))
      /\ (DynamicEntity.x (fst pair) = DynamicEntity.x first - dx / distance * overlap * 0.5
          /\ DynamicEntity.x (snd pair)
             = DynamicEntity.x second + dx / distance * overlap * 0.5
          /\ DynamicEntity.y (fst pair)
             = DynamicEntity.y first - dy / distance * overlap * 0.5
          /\ DynamicEntity.y (snd pair)
             = DynamicEntity.y second + dy / distance * overlap * 0.5)
      /\ (0 <= dx ->
          DynamicEntity.x (fst pair) <= DynamicEntity.x first
          /\ DynamicEntity.x second <= DynamicEntity.x (snd pair)
          /\ DynamicEntity.vx (fst pair) <= DynamicEntity.vx first
          /\ DynamicEntity.vx second <= DynamicEntity.vx (snd pair))
      /\ (dx <= 0 ->
          DynamicEntity.x first <= DynamicEntity.x (fst pair)
          /\ DynamicEntity.x (snd pair) <= DynamicEntity.x second
          /\ DynamicEntity.vx first <= DynamicEntity.vx (fst pair)
          /\ DynamicEntity.vx (snd pair) <= DynamicEntity.vx second)
      /\ (0 <= dy ->
          DynamicEntity.y (fst pair) <= DynamicEntity.y first
          /\ DynamicEntity.y second <= DynamicEntity.y (snd pair)
          /\ DynamicEntity.vy (fst pair) <= DynamicEntity.vy first
          /\ DynamicEntity.vy second <= DynamicEntity.vy (snd pair))
      /\ (dy <= 0 ->
          DynamicEntity.y first <= DynamicEntity.y (fst pair)
          /\ DynamicEntity.y (snd pair) <= DynamicEntity.y second
          /\ DynamicEntity.vy first <= DynamicEntity.vy (fst pair)
          /\ DynamicEntity.vy (snd pair) <= DynamicEntity.vy second)).
Proof.
  cbv zeta. unfold resolvePlanetPair. cbv zeta.
  set (dx := DynamicEntity.x second - DynamicEntity.x first).
  set (dy := DynamicEntity.y second - DynamicEntity.y first).
  generalize (hypot dx dy). intro distance.
  set (minDistance := DynamicEntity.radius first + DynamicEntity.radius second).
  destruct (DynamicEntity.visible first) eqn:V1;
    [destruct (DynamicEntity.visible second) eqn:V2|];
    cbn [negb orb andb fst snd].
  2, 3: conjs; intros; try reflexivity; try assumption; try apply Qle_refl;
    discriminate.
  destruct (Qleb distance 0.001) eqn:Near; cbn [orb]; Qtests.
  { conjs; intros; try reflexivity; try assumption; try apply Qle_refl.
    exfalso. apply (Qlt_irrefl distance).
    apply Qle_lt_trans with 0.001; assumption. }
  destruct (Qleb minDistance distance) eqn:Apart; cbn [fst snd]; Qtests.
  { conjs; intros; try reflexivity; try assumption; try apply Qle_refl.
    exfalso. apply (Qlt_irrefl distance).
    apply Qlt_le_trans with minDistance; assumption. }
  assert (P : 0 < distance) by (apply Qlt_trans with 0.001; [reflexivity | exact Near]).
  assert (I : 0 < / distance) by (apply Qinv_lt_0_compat; exact P).
  assert (O : 0 < minDistance - distance) by lra.
  unfold Qdiv.
  generalize dependent (/ distance). intros inv I.
  generalize dependent (minDistance - distance). intros overlap O.
  split.
  { intros [F|[F|F]]; [discriminate | |]; exfalso; lra. }
  destruct (Qleb _ 0) eqn:Rel; Qtests; rd_all; conjs;
    try reflexivity; try assumption; try apply Q.le_max_l;
    intros; conjs; try reflexivity; try apply Q.le_max_r;
    intro Side;
    match type of Side with
    | 0 <= ?d => assert (N : 0 <= d * inv) by nra
    | ?d <= 0 => assert (N : d * inv <= 0) by nra
    end;
    conjs; try apply Qle_refl; nra.
Qed.

End Collisions.

(** Two bodies of radius 20, thirty units apart and closing in. *)
Definition leftBody : DynamicEntity :=
  {| DynamicEntity.x := 100; DynamicEntity.y := 100; DynamicEntity.vx := 1;
     DynamicEntity.vy := 0; DynamicEntity.radius := 20; DynamicEntity.visible := true;
     DynamicEntity.cooldownMs := 0; DynamicEntity.impactMs := 0 |}.

Definition rightBody : DynamicEntity :=
  {| DynamicEntity.x := 130; DynamicEntity.y := 100; DynamicEntity.vx := -1;
     DynamicEntity.vy := 0; DynamicEntity.radius := 20; DynamicEntity.visible := true;
     DynamicEntity.cooldownMs := 0; DynamicEntity.impactMs := 0 |}.

Lemma resolvePlanetPair_separates_witness :
  DynamicEntity.x (fst (resolvePlanetPair hypotQ leftBody rightBody)) == 95
  /\ DynamicEntity.x (snd (resolvePlanetPair hypotQ leftBody rightBody)) == 135
  /\ DynamicEntity.vx (fst (resolvePlanetPair hypotQ leftBody rightBody)) <= 1
  /\ -1 <= DynamicEntity.vx (snd (resolvePlanetPair hypotQ leftBody rightBody)).
Proof.
  destruct (resolvePlanetPair_separates hypotQ leftBody rightBody)
    as (_ & _ & _ & _ & _ & Acts).
  destruct (Acts ltac:(reflexivity) ltac:(reflexivity) ltac:(Qcompute) ltac:(Qcompute))
    as (_ & (X1 & X2 & _) & Right & _).
  destruct (Right ltac:(Qcompute)) as (_ & _ & V1 & V2).
  split; [rewrite X1; Qcompute|].
  split; [rewrite X2; Qcompute|].
  split; [exact V1 | exact V2].
Defined.

(** ** Missions *)

Lemma template_index (seed : Z) :
  (0 <= seed)%Z ->
  exists n : nat,
    (n < 4)%nat
    /\ Z.to_nat (seed mod Z.of_nat (List.length MISSION_TEMPLATES)) = n
    /\ Z.to_nat ((seed + 4) mod Z.of_nat (List.length MISSION_TEMPLATES)) = n.
Proof.
  intro H. change (Z.of_nat (List.length MISSION_TEMPLATES)) with 4%Z.
  replace ((seed + 4) mod 4)%Z with (seed mod 4)%Z
    by (rewrite <- (Z.mod_add seed 1 4) by lia; f_equal; lia).
  pose proof (Z.mod_pos_bound seed 4 ltac:(lia)).
  exists (Z.to_nat (seed mod 4)). repeat split; lia.
Qed.

(** X6: for a seed that is not negative, [createMission] starts the mission
    with no progress and the whole time limit on the clock, a target of at
    least 1 and a reward of at least 25 points; and the templates rotate:
    four seeds later the mission has the same kind, label, target, reward
    and time limit, under another id. *)
Theorem createMission_rotates (seed : Z) (difficulty : Difficulty) :
  (0 <= seed)%Z ->
  let m := createMission seed difficulty in
  let m4 := createMission (seed + 4) difficulty in
  MissionState.progress m = 0
  /\ MissionState.timeLeftMs m = MissionState.timeLimitMs m
  /\ 0 < MissionState.timeLimitMs m
  /\ (1 <= MissionState.target m)%Z
  /\ (25 <= MissionState.rewardPoints m)%Z
  /\ MissionState.kind m4 = MissionState.kind m
  /\ MissionState.label m4 = MissionState.label m
  /\ MissionState.target m4 = MissionState.target m
  /\ MissionState.rewardPoints m4 = MissionState.rewardPoints m
  /\ MissionState.timeLimitMs m4 = MissionState.timeLimitMs m
  /\ MissionState.id m = "mission-" ++ string_of_Z seed.
Proof.
  intro H. cbv zeta. destruct (template_index seed H) as (n & B & E & E4).
  unfold createMission. cbv zeta. rewrite E, E4. rd.
  repeat apply conj; try reflexivity; try lia.
  destruct n as [|[|[|[|n]]]]; try lia; cbn; reflexivity.
Qed.

Lemma createMission_rotates_witness :
  MissionState.kind (createMission 7 Hard) = MissionState.kind (createMission 3 Hard)
  /\ (1 <= MissionState.target (createMission 3 Hard))%Z.
Proof.
  destruct (createMission_rotates 3 Hard) as (_ & _ & _ & T & _ & K & _); [lia|].
  split; [exact K | exact T].
Defined.

(** X7: completing a mission adds its reward to the score, counts one more
    completed mission and one mission event, sets the lives to the smaller
    of one more than before and one above the base lives of the difficulty,
    and replaces the mission by the one of the next seed; combo, combo
    timer, game-over flag and second chance stay as they are. *)
Theorem completeMission_rewards (s : GameState) :
  let s' := completeMission s in
  score s' = (score s + MissionState.rewardPoints (currentMission s))%Z
  /\ missionsCompleted s' = (missionsCompleted s + 1)%Z
  /\ EventSignal.mission (eventSignal s') = (EventSignal.mission (eventSignal s) + 1)%Z
  /\ lives s' = Z.min (baseLives (getDifficultyConfig (difficulty s)) + 1) (lives s + 1)
  /\ missionSeed s' = (missionSeed s + 1)%Z
  /\ currentMission s' = createMission (missionSeed s + 1) (difficulty s)
  /\ combo s' = combo s
  /\ comboTimerMs s' = comboTimerMs s
  /\ isGameOver s' = isGameOver s
  /\ secondChanceUsed s' = secondChanceUsed s.
Proof.
  cbv zeta. destruct (completeMission_fields s).
  repeat apply conj; assumption.
Qed.

(** ** Settings *)

(** X8: the sound volume is stored clamped to [0, 0.6] and the reminder
    interval clamped to 10 to 45 whole minutes, in milliseconds, whatever
    the payload; neither reducer touches the other settings. *)
Theorem settings_are_clamped (payload : Q) (s : GameState) :
  let v := settings (setSoundVolume payload s) in
  let m := settings (setSessionReminderMinutes payload s) in
  0 <= ParentSettings.soundVolume v <= MAX_SOUND_VOLUME
  /\ (0 <= payload <= MAX_SOUND_VOLUME -> ParentSettings.soundVolume v == payload)
  /\ 600000 <= ParentSettings.sessionReminderMs m <= 2700000
  /\ ParentSettings.sessionReminderMs m
     == inject_Z (Z.max 10 (Z.min 45 (Math_round payload))) * 60000
  /\ ParentSettings.sessionReminderMs v = ParentSettings.sessionReminderMs (settings s)
  /\ ParentSettings.sessionReminderEnabled v
     = ParentSettings.sessionReminderEnabled (settings s)
  /\ ParentSettings.vibrationEnabled v = ParentSettings.vibrationEnabled (settings s)
  /\ ParentSettings.soundVolume m = ParentSettings.soundVolume (settings s)
  /\ ParentSettings.sessionReminderEnabled m
     = ParentSettings.sessionReminderEnabled (settings s)
  /\ ParentSettings.vibrationEnabled m = ParentSettings.vibrationEnabled (settings s).
Proof.
  cbv zeta. unfold setSoundVolume, setSessionReminderMinutes. cbv zeta. rd.
  assert (B : 10 <= inject_Z (Z.max 10 (Z.min 45 (Math_round payload))) <= 45).
  { split.
    - change 10 with (inject_Z 10). rewrite <- Zle_Qle. lia.
    - change 45 with (inject_Z 45). rewrite <- Zle_Qle. lia. }
  repeat apply conj; try reflexivity.
  - apply Q.le_max_l.
  - apply Q.max_lub; [unfold MAX_SOUND_VOLUME; lra | apply Q.le_min_l].
  - intros [L U]. rewrite (Q.min_r _ _ U). apply Q.max_r. exact L.
  - lra.
  - lra.
  - ring.
Qed.

(** ** The arena *)

(** A body lies inside an arena of the given size: along each axis between
    its radius and [max(radius, size - radius)], which is [size - radius]
    when the arena has room for the body and [radius] when it has not. *)
Definition fitsArena (width height x y radius : Q) : Prop :=
  radius <= x <= Qmax radius (width - radius)
  /\ radius <= y <= Qmax radius (height - radius).

Definition bodyFits (width height : Q) (e : DynamicEntity) : Prop :=
  fitsArena width height (DynamicEntity.x e) (DynamicEntity.y e) (DynamicEntity.radius e).

Lemma clampPosition_fits (width height x y radius : Q) :
  fitsArena width height
    (clampPosition x radius (width - radius))
    (clampPosition y radius (height - radius)) radius.
Proof.
  unfold fitsArena, clampPosition. repeat split.
  - apply Q.le_max_l.
  - apply Q.max_le_compat_l, Q.le_min_l.
  - apply Q.le_max_l.
  - apply Q.max_le_compat_l, Q.le_min_l.
Qed.

(** X9: [setArenaSize] ignores a size below 320 by 220; otherwise it stores
    the size rounded down, and afterwards the player, the spark, the comet,
    the hazard, every extra planet and the home body lie, along each axis,
    between their radius and [max(radius, size - radius)] of the new arena,
    also a body too large for it; the score, the lives and the mission stay
    as they are. *)
Theorem setArenaSize_fits (payloadWidth payloadHeight : Q) (s : GameState) :
  let width := inject_Z (Qfloor payloadWidth) in
  let height := inject_Z (Qfloor payloadHeight) in
  let s' := setArenaSize payloadWidth payloadHeight s in
  if Qltb width 320 || Qltb height 220 then s' = s
  else
    arenaWidth s' = width /\ arenaHeight s' = height
    /\ 320 <= arenaWidth s' /\ 220 <= arenaHeight s'
    /\ bodyFits width height (player s')
    /\ bodyFits width height (Collectible.body (spark s'))
    /\ bodyFits width height (Collectible.body (comet s'))
    /\ bodyFits width height (Hazard.body (hazard s'))
    /\ Forall (fun planet => bodyFits width height (ExtraPlanet.body planet))
         (extraPlanets s')
    /\ fitsArena width height (HomePortal.x (home s')) (HomePortal.y (home s'))
         (HomePortal.radius (home s'))
    /\ score s' = score s /\ lives s' = lives s
    /\ currentMission s' = currentMission s
    /\ List.length (extraPlanets s') = List.length (extraPlanets s).
Proof.
  cbv zeta. unfold setArenaSize, Math_floor. cbv zeta.
  destruct (Qltb _ 320 || Qltb _ 220) eqn:E; [reflexivity|].
  apply orb_false_iff in E. destruct E as [EW EH]. Qtests.
  repeat lazymatch goal with |- _ /\ _ => split end;
    try reflexivity; try assumption;
    try (unfold bodyFits; rd; apply clampPosition_fits).
  - apply Forall_forall. intros planet H. rd_all. apply in_map_iff in H.
    destruct H as (p & <- & _). unfold bodyFits. rd. apply clampPosition_fits.
  - rd. apply length_map.
Qed.

Section Reducers.

Variable hypot : Q -> Q -> Q.
Variable pow : Q -> Q -> Q.

(** ** Pausing *)

Lemma run_blocked_ticks (deltas : list Q) (s : GameState) (r : Rand) :
  tickBlocked s = true -> run hypot pow (map Tick deltas) (s, r) = (s, r).
Proof.
  intro B. induction deltas as [|d rest IH]; cbn [map run fold_left].
  - reflexivity.
  - cbn [reducer]. rewrite (tick_blocked hypot pow d (s, r) B). exact IH.
Qed.

(** X10: in a running game [togglePause] sets the pause flag, after which
    any run of ticks returns the state and the random stream as they are,
    and a second [togglePause] makes the game run again; when the game is
    over or the break reminder shows, [togglePause] does nothing. *)
Theorem togglePause_pauses_and_resumes (s : GameState) (r : Rand) (deltas : list Q) :
  let paused := togglePause s in
  (tickBlocked s = false ->
   isPaused paused = true
   /\ run hypot pow (map Tick deltas) (paused, r) = (paused, r)
   /\ tickBlocked (togglePause paused) = false)
  /\ (isGameOver s = true \/ showBreakReminder s = true -> paused = s).
Proof.
  cbv zeta. split.
  - intro B. destruct (tickBlocked_false _ B) as (P & G & R).
    assert (E : togglePause s
                = setAnnouncement "Duraklatildi" 700 (set_isPaused true s)).
    { unfold togglePause. rewrite G, R, P. reflexivity. }
    rewrite E. repeat apply conj.
    + reflexivity.
    + apply run_blocked_ticks. unfold tickBlocked, setAnnouncement. rd. reflexivity.
    + unfold togglePause, tickBlocked, setAnnouncement. rd. rewrite G, R.
      cbn [orb negb]. rd. rewrite G, R. reflexivity.
  - intros [G|R]; unfold togglePause; rewrite ?G, ?R, ?orb_true_r; reflexivity.
Qed.

End Reducers.

Lemma togglePause_pauses_and_resumes_witness :
  isPaused (togglePause centredGame) = true
  /\ run hypotQ powQ (map Tick [16; 16; 33]) (togglePause centredGame, halves)
     = (togglePause centredGame, halves).
Proof.
  destruct (togglePause_pauses_and_resumes hypotQ powQ centredGame halves [16; 16; 33])
    as [Running _].
  destruct (Running ltac:(vm_compute; reflexivity)) as (P & T & _).
  split; [exact P | exact T].
Defined.

Section Rounds.

Variable hypot : Q -> Q -> Q.
Variable pow : Q -> Q -> Q.

(** ** Difficulty *)

(** X11: [setDifficulty] with the current difficulty returns the state and
    the random stream as they are; with another one it starts a new round
    on that difficulty: its base lives and shield charges, score 0, level
    1, the mission of the next seed, while high score, badges, unlocked
    skins and the count of completed missions carry over. *)
Theorem setDifficulty_starts_a_round (payload : Difficulty) (s : GameState) (r : Rand) :
  let s' := fst (reducer hypot pow (SetDifficulty payload) (s, r)) in
  if Difficulty_eqb (difficulty s) payload
  then reducer hypot pow (SetDifficulty payload) (s, r) = (s, r)
  else
    difficulty s' = payload
    /\ lives s' = baseLives (getDifficultyConfig payload)
    /\ shieldCharges s' = baseShieldCharges (getDifficultyConfig payload)
    /\ score s' = 0%Z /\ level s' = 1%Z /\ combo s' = 1%Z
    /\ isGameOver s' = false /\ isPaused s' = false
    /\ currentMission s' = createMission (missionSeed s + 1) payload
    /\ highScore s' = highScore s
    /\ badges s' = badges s
    /\ unlockedSkins s' = unlockedSkins s
    /\ missionsCompleted s' = missionsCompleted s.
Proof.
  cbv zeta. destruct (Difficulty_eqb (difficulty s) payload) eqn:E.
  - cbn [reducer]. unfold setDifficulty. cbn [fst]. rewrite E. reflexivity.
  - assert (R : resetsRound (SetDifficulty payload) s = true)
      by (cbn [resetsRound]; rewrite E; reflexivity).
    destruct (reducer_resets hypot pow _ s r R). rd_hyps.
    cbn [roundBase] in *. rd_hyps.
    repeat apply conj; assumption.
Qed.

(** X12: the difficulty after a reducer call is the payload of
    [setDifficulty] and, after any other reducer, [tick] included, the
    difficulty before. *)
Theorem difficulty_changes_only_by_setDifficulty (a : Action) (s : GameState) (r : Rand) :
  difficulty (fst (reducer hypot pow a (s, r)))
  = match a with
    | SetDifficulty payload => payload
    | _ => difficulty s
    end.
Proof.
  destruct (reducer_tick_or_not a) as [[d ->]|T].
  - cbn [reducer]. destruct (tickBlocked s) eqn:B.
    + rewrite tick_blocked by exact B. reflexivity.
    + apply (tr_difficulty _ _ _ (turn_tick hypot pow d (s, r) B)).
  - destruct (resetsRound a s) eqn:R.
    + rewrite (fr_difficulty _ _ (reducer_resets hypot pow a s r R)).
      destruct a; try discriminate; reflexivity.
    + rewrite (cr_difficulty _ _ (command_reducer hypot pow a s r T R)).
      destruct a; try reflexivity.
      cbn [resetsRound] in R. apply negb_false_iff in R.
      destruct (difficulty s), payload; try discriminate; reflexivity.
Qed.

(** ** The hazard *)

Lemma clampVelocity_cooldownMs maxSpeed e :
  DynamicEntity.cooldownMs (clampVelocity hypot maxSpeed e) = DynamicEntity.cooldownMs e.
Proof. unfold clampVelocity. cbv zeta. destruct (_ || _); reflexivity. Qed.

Lemma advanceHazard_cooldownMs frameScale s :
  DynamicEntity.cooldownMs (Hazard.body (hazard (advanceHazard hypot frameScale s)))
  = DynamicEntity.cooldownMs (Hazard.body (hazard s)).
Proof.
  unfold advanceHazard. cbv zeta. rd.
  match goal with
  | |- context [bounceInsideArena ?w ?h ?m ?b ?e] =>
      destruct (bounceInsideArena_body w h m b e) as (_ & _ & _ & _ & C & _)
  end.
  cbv zeta in C. rewrite C. rewrite clampVelocity_cooldownMs. reflexivity.
Qed.

Lemma advanceHazard_quiet frameScale s :
  eventSignal (advanceHazard hypot frameScale s) = eventSignal s
  /\ planetCatches (advanceHazard hypot frameScale s) = planetCatches s.
Proof. unfold advanceHazard. cbv zeta. split; reflexivity. Qed.

(** X13: while the hazard is on cooldown [moveHazard] cannot collide: it
    only moves the hazard and runs its cooldown down by [deltaMs], not below
    zero; lives, shield charges, invulnerability, event counters, catch
    counters and the random stream stay as they are. *)
Theorem moveHazard_waits_out_its_cooldown (deltaMs frameScale : Q) (w : W) :
  let s := fst w in
  let s' := fst (moveHazard hypot deltaMs frameScale w) in
  0 < DynamicEntity.cooldownMs (Hazard.body (hazard s)) ->
  hazardCollides hypot frameScale s = false
  /\ DynamicEntity.cooldownMs (Hazard.body (hazard s'))
     = Qmax 0 (DynamicEntity.cooldownMs (Hazard.body (hazard s)) - deltaMs)
  /\ lives s' = lives s
  /\ shieldCharges s' = shieldCharges s
  /\ invulnerabilityMs s' = invulnerabilityMs s
  /\ isGameOver s' = isGameOver s
  /\ eventSignal s' = eventSignal s
  /\ planetCatches s' = planetCatches s
  /\ snd (moveHazard hypot deltaMs frameScale w) = snd w.
Proof.
  cbv zeta. intro C.
  assert (CD : hazardCoolingDown (advanceHazard hypot frameScale (fst w)) = true).
  { unfold hazardCoolingDown. rewrite advanceHazard_cooldownMs.
    apply Qltb_true. exact C. }
  unfold hazardCollides, moveHazard. cbv zeta. rewrite CD. cbn [negb andb fst snd].
  pose proof (book_advanceHazard hypot frameScale (fst w)) as BA.
  pose proof (br_lives _ _ BA) as L. pose proof (br_shieldCharges _ _ BA) as S.
  pose proof (br_invulnerabilityMs _ _ BA) as V.
  pose proof (br_isGameOver _ _ BA) as G. clear BA CD.
  destruct (advanceHazard_quiet frameScale (fst w)) as [EV PC].
  pose proof (advanceHazard_cooldownMs frameScale (fst w)) as K.
  revert K L S V G EV PC.
  generalize (advanceHazard hypot frameScale (fst w)). intros sa K L S V G EV PC.
  rd. rewrite K.
  repeat apply conj; try reflexivity; assumption.
Qed.

(** X14: a collision with no invulnerability left costs a shield charge
    when there is one, and then no life: the charge buys 1800 ms of
    invulnerability and counts one shield event; with no charge and at least
    two lives it costs one life, resets the combo to 1, buys 1300 ms of
    invulnerability and counts one hit event; neither ends the game or uses
    the second chance. *)
Theorem moveHazard_costs_a_shield_or_a_life (deltaMs frameScale : Q) (w : W) :
  let s := fst w in
  let s' := fst (moveHazard hypot deltaMs frameScale w) in
  hazardCollides hypot frameScale s = true ->
  invulnerabilityMs s <= 0 ->
  ((0 < shieldCharges s)%Z ->
   lives s' = lives s
   /\ shieldCharges s' = (shieldCharges s - 1)%Z
   /\ invulnerabilityMs s' = 1800
   /\ combo s' = combo s
   /\ EventSignal.shield (eventSignal s') = (EventSignal.shield (eventSignal s) + 1)%Z
   /\ EventSignal.hit (eventSignal s') = EventSignal.hit (eventSignal s)
   /\ isGameOver s' = isGameOver s
   /\ secondChanceUsed s' = secondChanceUsed s)
  /\ ((shieldCharges s <= 0)%Z -> (2 <= lives s)%Z ->
      lives s' = (lives s - 1)%Z
      /\ shieldCharges s' = shieldCharges s
      /\ invulnerabilityMs s' = 1300
      /\ combo s' = 1%Z
      /\ EventSignal.hit (eventSignal s') = (EventSignal.hit (eventSignal s) + 1)%Z
      /\ EventSignal.shield (eventSignal s') = EventSignal.shield (eventSignal s)
      /\ isGameOver s' = isGameOver s
      /\ secondChanceUsed s' = secondChanceUsed s).
Proof.
  cbv zeta. intros C V.
  rewrite (moveHazard_collides hypot deltaMs frameScale w C).
  pose proof (collideHazard_outcome hypot (advanceHazard hypot frameScale (fst w), snd w))
    as O.
  cbn [fst] in O. rewrite hazardOutcome_advanceHazard in O.
  pose proof (book_advanceHazard hypot frameScale (fst w)) as BA.
  pose proof (br_lives _ _ BA) as L. pose proof (br_shieldCharges _ _ BA) as S.
  pose proof (br_invulnerabilityMs _ _ BA) as I.
  pose proof (br_secondChanceUsed _ _ BA) as U.
  pose proof (br_isGameOver _ _ BA) as G. pose proof (br_combo _ _ BA) as K.
  destruct (advanceHazard_quiet frameScale (fst w)) as [EV _]. clear BA.
  revert O. generalize (fst (collideHazard hypot
                                (advanceHazard hypot frameScale (fst w), snd w))).
  revert L S I U G K EV.
  generalize (advanceHazard hypot frameScale (fst w)).
  intros sa L S I U G K EV s' O.
  assert (N : Qltb 0 (invulnerabilityMs (fst w)) = false)
    by (apply Qltb_false; exact V).
  unfold hazardOutcome in O. rewrite N in O. split.
  - intro P. apply Z.ltb_lt in P. rewrite P in O. cbn [outcome_rel] in O.
    destruct O as (OL & OS & OI & OU & OG & OK & OE).
    unfold SHIELD_INVULNERABILITY_MS, HIT_INVULNERABILITY_MS in OI.
    rewrite OE, EV. rd.
    repeat apply conj; try congruence; reflexivity.
  - intros P Q2. apply Z.ltb_ge in P. rewrite P in O.
    assert (H : (lives (fst w) - 1 <=? 0)%Z = false) by (apply Z.leb_gt; lia).
    rewrite H in O. cbn [outcome_rel] in O.
    destruct O as (OL & OS & OI & OU & OG & OK & OE).
    unfold SHIELD_INVULNERABILITY_MS, HIT_INVULNERABILITY_MS in OI.
    rewrite OE, EV. rd.
    repeat apply conj; try congruence; reflexivity.
Qed.

End Rounds.

Lemma moveHazard_waits_out_its_cooldown_witness :
  DynamicEntity.cooldownMs
    (Hazard.body (hazard (fst (moveHazard hypotQ 16 1 (allCooling centredGame, halves)))))
  = Qmax 0 (900 - 16)
  /\ lives (fst (moveHazard hypotQ 16 1 (allCooling centredGame, halves))) = 4%Z.
Proof.
  destruct (moveHazard_waits_out_its_cooldown hypotQ 16 1 (allCooling centredGame, halves))
    as (_ & C & L & _); [Qcompute|].
  split; [exact C | exact L].
Defined.

(** No shield charge, four lives, and only the hazard off cooldown. *)
Definition unshieldedGame : GameState :=
  hazardReady (allCooling (set_shieldCharges 0 centredGame)).

Lemma moveHazard_costs_a_shield_or_a_life_witness :
  shieldCharges (fst (moveHazard hypotQ 16 1 (centredGame, halves))) = (2 - 1)%Z
  /\ lives (fst (moveHazard hypotQ 16 1 (centredGame, halves))) = 4%Z
  /\ lives (fst (moveHazard hypotQ 16 1 (unshieldedGame, halves))) = (4 - 1)%Z
  /\ combo (fst (moveHazard hypotQ 16 1 (unshieldedGame, halves))) = 1%Z.
Proof.
  destruct (moveHazard_costs_a_shield_or_a_life hypotQ 16 1 (centredGame, halves))
    as [Shield _]; [Qcompute | Qcompute |].
  destruct (moveHazard_costs_a_shield_or_a_life hypotQ 16 1 (unshieldedGame, halves))
    as [_ Life]; [Qcompute | Qcompute |].
  destruct (Shield ltac:(Qcompute)) as (L & S & _).
  destruct (Life ltac:(Qcompute) ltac:(Qcompute)) as (L' & _ & _ & K & _).
  repeat apply conj; assumption.
Defined.

Section Ticks.

Variable hypot : Q -> Q -> Q.
Variable pow : Q -> Q -> Q.

(** X15: a tick that runs and whose hazard step does not collide leaves the
    game-over flag, the second chance, the shield counter and the jupiter
    counter as they were, and lowers neither the score nor any event
    counter. *)
Theorem tick_without_collision (payloadDeltaMs : Q) (w : W) :
  let s := fst w in
  let s' := fst (tick hypot pow payloadDeltaMs w) in
  tickBlocked s = false ->
  hazardCollides hypot (frameScaleOf payloadDeltaMs)
    (fst (tickUntilHazard hypot pow payloadDeltaMs w)) = false ->
  isGameOver s' = false
  /\ secondChanceUsed s' = secondChanceUsed s
  /\ EventSignal.shield (eventSignal s') = EventSignal.shield (eventSignal s)
  /\ PlanetCatchStats.jupiter (planetCatches s')
     = PlanetCatchStats.jupiter (planetCatches s)
  /\ ev_le (eventSignal s) (eventSignal s')
  /\ (highScore s <= highScore s')%Z.
Proof.
  cbv zeta. intros B C.
  rewrite (tick_phases hypot pow payloadDeltaMs w B).
  pose proof (logic_tickUntilHazard hypot pow payloadDeltaMs w) as P1.
  pose proof (moveHazard_misses hypot (clampDelta payloadDeltaMs)
                (frameScaleOf payloadDeltaMs) _ C) as P2.
  pose proof (step_tickAfterHazard hypot payloadDeltaMs
                (moveHazard hypot (clampDelta payloadDeltaMs)
                   (frameScaleOf payloadDeltaMs)
                   (tickUntilHazard hypot pow payloadDeltaMs w))) as P3.
  pose proof (logic_rel_trans _ _ _ P1
                (logic_rel_trans _ _ _ (sr_logic _ _ P2) (sr_logic _ _ P3))) as P.
  destruct (tickBlocked_false _ B) as (_ & G & _).
  destruct P.
  repeat lazymatch goal with |- _ /\ _ => split end; first [assumption | congruence].
Qed.

End Ticks.

Lemma tick_without_collision_witness :
  isGameOver (fst (tick hypotQ powQ 16 (allCooling centredGame, halves))) = false
  /\ PlanetCatchStats.jupiter
       (planetCatches (fst (tick hypotQ powQ 16 (allCooling centredGame, halves))))
     = PlanetCatchStats.jupiter (planetCatches (allCooling centredGame)).
Proof.
  destruct (tick_without_collision hypotQ powQ 16 (allCooling centredGame, halves))
    as (G & _ & _ & J & _); [Qcompute | Qcompute |].
  split; [exact G | exact J].
Defined.

Section Scores.

Variable hypot : Q -> Q -> Q.
Variable pow : Q -> Q -> Q.

(** ** The score *)

Lemma score_reducer a s r :
  Inv s ->
  if resetsRound a s then
    score (fst (reducer hypot pow a (s, r))) = 0%Z
    /\ highScore (fst (reducer hypot pow a (s, r))) = highScore s
  else high_follows s (fst (reducer hypot pow a (s, r))).
Proof.
  intro I. destruct (resetsRound a s) eqn:R.
  - pose proof (reducer_resets hypot pow a s r R) as F.
    split; [exact (fr_score _ _ F)|].
    rewrite (fr_highScore _ _ F). destruct a; reflexivity.
  - destruct (reducer_tick_or_not a) as [[d ->]|T].
    + cbn [reducer]. destruct (tickBlocked s) eqn:B.
      * rewrite tick_blocked by exact B. apply high_follows_refl.
      * apply (tr_score _ _ _ (turn_tick hypot pow d (s, r) B) I).
        apply (tickBlocked_false _ B).
    + destruct (command_reducer hypot pow a s r T R).
      unfold high_follows. lia.
Qed.

Lemma score_bounds_reachable s :
  reachable hypot pow s -> (0 <= score s <= highScore s)%Z.
Proof.
  induction 1 as [stored r|s a r R IH].
  - unfold createInitialState. cbv zeta. rd. unfold loadStoredHighScore.
    destruct stored; lia.
  - pose proof (score_reducer a s r (Inv_reachable hypot pow s R)) as H.
    destruct (resetsRound a s); unfold high_follows in H; lia.
Qed.

(** X16: in every reachable state the score is not negative and not above
    the high score; a reducer that starts a new round takes the score to 0,
    and no other reducer lowers it. *)
Theorem score_grows_within_a_round (s : GameState) :
  reachable hypot pow s ->
  (0 <= score s <= highScore s)%Z
  /\ forall (a : Action) (r : Rand),
       if resetsRound a s
       then score (fst (reducer hypot pow a (s, r))) = 0%Z
       else (score s <= score (fst (reducer hypot pow a (s, r))))%Z.
Proof.
  intro R. split; [apply score_bounds_reachable; exact R|].
  intros a r.
  pose proof (score_reducer a s r (Inv_reachable hypot pow s R)) as H.
  destruct (resetsRound a s); unfold high_follows in H; tauto.
Qed.

End Scores.

Lemma score_grows_within_a_round_witness :
  (0 <= score afterFirstTick <= highScore afterFirstTick)%Z
  /\ score (fst (reducer hypotQ powQ RestartGame (afterFirstTick, halves))) = 0%Z.
Proof.
  destruct (score_grows_within_a_round hypotQ powQ afterFirstTick) as [B Step].
  - apply reachable_step, reachable_init.
  - split; [exact B | exact (Step RestartGame halves)].
Defined.

(** ** What a session never loses *)

(** The mission agrees with the template instance on everything but its
    progress and its clock. *)
Definition sameTemplate (m t : MissionState) : Prop :=
  MissionState.id m = MissionState.id t
  /\ MissionState.label m = MissionState.label t
  /\ MissionState.kind m = MissionState.kind t
  /\ MissionState.target m = MissionState.target t
  /\ MissionState.rewardPoints m = MissionState.rewardPoints t
  /\ MissionState.timeLimitMs m = MissionState.timeLimitMs t.

(** The ids of the extra planets, in blueprint order. *)
Definition planetIds : list ExtraPlanetId := map bp_id EXTRA_PLANET_BLUEPRINTS.

(** A second invariant of the discrete state, next to [Inv]. *)
Record Sound (s : GameState) : Prop := mkSound {
  sd_score : (0 <= score s)%Z;
  sd_level : level s = levelFor s (score s);
  sd_lives : (lives s <= baseLives (getDifficultyConfig (difficulty s)) + 2)%Z;
  sd_shield : (shieldCharges s <= 5)%Z;
  sd_seed : (0 <= missionSeed s)%Z;
  sd_mission :
    sameTemplate (currentMission s) (createMission (missionSeed s) (difficulty s));
  sd_clock :
    0 <= MissionState.timeLeftMs (currentMission s)
      <= MissionState.timeLimitMs (currentMission s);
  sd_over : isGameOver s = true -> isPaused s = true;
  sd_break : showBreakReminder s = true -> isPaused s = true;
  sd_classic : In Classic (unlockedSkins s);
  sd_selected : In (selectedSkin s) (unlockedSkins s);
  sd_skins : NoDup (unlockedSkins s);
  sd_badges : NoDup (badges s);
  sd_planets : map ExtraPlanet.id (extraPlanets s) = planetIds
}.

(** What every part of the engine guarantees about the second invariant,
    the setup of the session and the progress of the player. *)
Record frame_rel (s s' : GameState) : Prop := mkFrame {
  fm_sound : Sound s -> Sound s';
  fm_settings : settings s' = settings s;
  fm_arenaWidth : arenaWidth s' = arenaWidth s;
  fm_arenaHeight : arenaHeight s' = arenaHeight s;
  fm_controlSide : controlSide s' = controlSide s;
  fm_selectedSkin : selectedSkin s' = selectedSkin s;
  fm_skins : incl (unlockedSkins s) (unlockedSkins s');
  fm_badges : incl (badges s) (badges s');
  fm_done : (missionsCompleted s <= missionsCompleted s')%Z;
  fm_seed : (missionSeed s <= missionSeed s')%Z
}.

Lemma frame_rel_refl (s : GameState) : frame_rel s s.
Proof. constructor; try reflexivity; try lia; auto using incl_refl. Qed.

Lemma frame_rel_trans (a b c : GameState) :
  frame_rel a b -> frame_rel b c -> frame_rel a c.
Proof.
  intros [] []. constructor; try congruence; try lia; auto.
  - eapply incl_tran; eassumption.
  - eapply incl_tran; eassumption.
Qed.

Lemma frame_when (c : GameState -> bool) (f : GameState -> GameState) (s : GameState) :
  (forall y, frame_rel y (f y)) -> frame_rel s (when c f s).
Proof. intro H. unfold when. destruct (c s); [apply H | apply frame_rel_refl]. Qed.

Lemma levelScoreStep_pos (d : Difficulty) :
  (0 < levelScoreStep (getDifficultyConfig d))%Z.
Proof. destruct d; cbn; lia. Qed.

Lemma baseShieldCharges_le (d : Difficulty) :
  (baseShieldCharges (getDifficultyConfig d) <= 5)%Z.
Proof. destruct d; cbn; lia. Qed.

Lemma planet_ids_map (g : ExtraPlanet -> ExtraPlanet) (l : list ExtraPlanet) :
  (forall p, ExtraPlanet.id (g p) = ExtraPlanet.id p) ->
  map ExtraPlanet.id (map g l) = map ExtraPlanet.id l.
Proof. intro H. rewrite map_map. apply map_ext. exact H. Qed.

Lemma planet_ids_update (i : nat) (g : ExtraPlanet -> ExtraPlanet) (l : list ExtraPlanet) :
  (forall p, ExtraPlanet.id (g p) = ExtraPlanet.id p) ->
  map ExtraPlanet.id (list_update i g l) = map ExtraPlanet.id l.
Proof.
  intro H. revert i. induction l as [|a l IH]; intros [|i]; cbn; try reflexivity.
  - rewrite H. reflexivity.
  - rewrite IH. reflexivity.
Qed.

Lemma planet_ids_zip (bodies : list DynamicEntity) (l : list ExtraPlanet) :
  map ExtraPlanet.id (zipBodies bodies l) = map ExtraPlanet.id l.
Proof.
  revert l. induction bodies as [|b bs IH]; intros [|p ps]; cbn; try reflexivity.
  rewrite IH. reflexivity.
Qed.

(** The planet ids behind a rewritten list of planets. *)
Ltac planet_ids :=
  rewrite ?planet_ids_zip;
  repeat first
    [ rewrite planet_ids_map by (intro; reflexivity)
    | rewrite planet_ids_update by (intro; reflexivity) ];
  assumption.

(** A stage that is a plain field update. *)
Ltac sound_leaf :=
  let S := fresh "S" in
  intros S; destruct S; constructor; unfold levelFor in *; rd_all;
  auto; try lia; try planet_ids.

Ltac frame_leaf :=
  lazymatch goal with
  | |- frame_rel ?g _ =>
      pose proof (baseLives_pos (difficulty g));
      pose proof (baseShieldCharges_le (difficulty g))
  end;
  constructor; rd; try reflexivity; try lia; try apply incl_refl; try sound_leaf.

Create HintDb frame discriminated.

(** [walk] is [chain] for [frame_rel]. *)
Ltac walk :=
  lazymatch goal with
  | |- frame_rel ?s ?s => apply frame_rel_refl
  | |- frame_rel ?s (?f ?x) =>
      first
        [ solve [auto 2 with frame]
        | apply (frame_rel_trans s x (f x));
          [ walk
          | generalize x; intro;
            first [ solve [auto 2 with frame] | solve [frame_leaf] ] ] ]
  end.

#[local] Hint Extern 1 (frame_rel _ (when _ _ _)) =>
  apply frame_when; intro; cbv beta; walk : frame.

Lemma frame_setAnnouncement text timerMs s : frame_rel s (setAnnouncement text timerMs s).
Proof. unfold setAnnouncement. frame_leaf. Qed.

Lemma frame_setLearningFact key s : frame_rel s (setLearningFact key s).
Proof. unfold setLearningFact. frame_leaf. Qed.

Lemma frame_incrementEvent key s : frame_rel s (incrementEvent key s).
Proof. unfold incrementEvent. frame_leaf. Qed.

Lemma frame_bumpCatch key s : frame_rel s (bumpCatch key s).
Proof. unfold bumpCatch. frame_leaf. Qed.

#[local] Hint Resolve frame_setAnnouncement frame_setLearningFact frame_incrementEvent
  frame_bumpCatch : frame.

(** *** Unlocks and badges *)

Lemma RocketSkin_eqb_eq (a b : RocketSkin) : RocketSkin_eqb a b = true <-> a = b.
Proof. destruct a, b; cbn; split; intro H; try reflexivity; discriminate. Qed.

Lemma skin_listed (skin : RocketSkin) (l : list RocketSkin) :
  existsb (RocketSkin_eqb skin) l = true <-> In skin l.
Proof.
  rewrite existsb_exists. split.
  - intros (x & H & E). apply RocketSkin_eqb_eq in E. subst. exact H.
  - intro H. exists skin. split; [exact H | apply RocketSkin_eqb_eq; reflexivity].
Qed.

Lemma badge_listed (badgeId : string) (l : list string) :
  existsb (String.eqb badgeId) l = true <-> In badgeId l.
Proof.
  rewrite existsb_exists. split.
  - intros (x & H & E). apply String.eqb_eq in E. subst. exact H.
  - intro H. exists badgeId. split; [exact H | apply String.eqb_refl].
Qed.

Lemma NoDup_snoc {A : Type} (a : A) (l : list A) :
  NoDup l -> ~ In a l -> NoDup (l ++ [a]).
Proof.
  intros N H. apply NoDup_rev in N. rewrite <- (rev_involutive (l ++ [a])).
  apply NoDup_rev. rewrite rev_app_distr. cbn. constructor; [|exact N].
  rewrite <- in_rev. exact H.
Qed.

Lemma frame_unlockSkin skin message s : frame_rel s (unlockSkin skin message s).
Proof.
  unfold unlockSkin. destruct (existsb _ _) eqn:E; [apply frame_rel_refl|].
  assert (N : ~ In skin (unlockedSkins s)).
  { intro H. apply skin_listed in H. congruence. }
  unfold incrementEvent, setAnnouncement.
  constructor; rd; try reflexivity; try lia; try apply incl_refl.
  - intros []. constructor; unfold levelFor in *; rd_all; auto.
    + apply in_or_app. auto.
    + apply in_or_app. auto.
    + apply NoDup_snoc; assumption.
  - apply incl_appl, incl_refl.
Qed.

Lemma frame_grantBadge badgeId message s : frame_rel s (grantBadge badgeId message s).
Proof.
  unfold grantBadge. destruct (existsb _ _) eqn:E; [apply frame_rel_refl|].
  assert (N : ~ In badgeId (badges s)).
  { intro H. apply badge_listed in H. congruence. }
  unfold incrementEvent, setAnnouncement.
  constructor; rd; try reflexivity; try lia; try apply incl_refl.
  - intros []. constructor; unfold levelFor in *; rd_all; auto.
    apply NoDup_snoc; assumption.
  - apply incl_appl, incl_refl.
Qed.

#[local] Hint Resolve frame_unlockSkin frame_grantBadge : frame.

Lemma frame_checkUnlocksAndBadges s : frame_rel s (checkUnlocksAndBadges s).
Proof. unfold checkUnlocksAndBadges. walk. Qed.

#[local] Hint Resolve frame_checkUnlocksAndBadges : frame.

(** *** Scoring and missions *)

Lemma frame_addScore (p : Z) (s : GameState) :
  (Sound s -> (0 <= p)%Z) ->
  frame_rel s (maybeLevelUp (refreshHighScore (set_score (score s + p) s))).
Proof.
  intro Hp. pose proof (levelScoreStep_pos (difficulty s)) as P.
  unfold maybeLevelUp, refreshHighScore, incrementEvent, setAnnouncement. cbv zeta. rd.
  destruct (highScore s <? score s + p)%Z; rd;
    (destruct (level s <? _)%Z eqn:L;
     [apply Z.ltb_lt in L | apply Z.ltb_ge in L]);
    constructor; rd; try reflexivity; try lia; try apply incl_refl;
    intro S; specialize (Hp S); destruct S;
    (assert (D : (score s / levelScoreStep (getDifficultyConfig (difficulty s))
                  <= (score s + p) / levelScoreStep (getDifficultyConfig (difficulty s)))%Z)
       by (apply Z.div_le_mono; lia));
    constructor; unfold levelFor in *; rd_all; auto; lia.
Qed.

Lemma createMission_clock (seed : Z) (d : Difficulty) :
  MissionState.timeLeftMs (createMission seed d)
  = MissionState.timeLimitMs (createMission seed d)
  /\ 0 <= MissionState.timeLimitMs (createMission seed d).
Proof.
  unfold createMission. cbv zeta. rd. split; [reflexivity|].
  change (Z.of_nat (List.length MISSION_TEMPLATES)) with 4%Z.
  pose proof (Z.mod_pos_bound seed 4 ltac:(lia)) as B.
  destruct (Z.to_nat (seed mod 4)) as [|[|[|[|n]]]] eqn:E; try lia; cbn; lra.
Qed.

Lemma sameTemplate_refl (m : MissionState) : sameTemplate m m.
Proof. unfold sameTemplate. tauto. Qed.

Lemma Sound_reward (s : GameState) :
  Sound s -> (0 <= MissionState.rewardPoints (currentMission s))%Z.
Proof.
  intros []. destruct sd_mission0 as (_ & _ & _ & _ & R & _).
  destruct (createMission_fresh (missionSeed s) (difficulty s)) as (_ & _ & B).
  lia.
Qed.

Lemma frame_createNextMission s : frame_rel s (createNextMission s).
Proof.
  unfold createNextMission.
  destruct (createMission_clock (missionSeed s + 1) (difficulty s)) as (C & L).
  constructor; rd; try reflexivity; try lia; try apply incl_refl.
  intros []. constructor; unfold levelFor in *; rd_all; auto; try lia.
  - apply sameTemplate_refl.
  - rewrite C. split; [exact L | apply Qle_refl].
Qed.

#[local] Hint Resolve frame_createNextMission : frame.
#[local] Hint Extern 1
  (frame_rel ?s (maybeLevelUp (refreshHighScore (set_score _ ?s)))) =>
  apply frame_addScore; first [ intros _; lia | apply Sound_reward ] : frame.

Lemma frame_completeMission s : frame_rel s (completeMission s).
Proof. unfold completeMission. cbv zeta. walk. Qed.

Lemma frame_failMission s : frame_rel s (failMission s).
Proof. unfold failMission. walk. Qed.

#[local] Hint Resolve frame_completeMission frame_failMission : frame.

Lemma frame_progressMission kind amount s : frame_rel s (progressMission kind amount s).
Proof.
  unfold progressMission. destruct (negb _); [apply frame_rel_refl|].
  cbv zeta. walk.
Qed.

Lemma frame_collectPoints points text s : frame_rel s (collectPoints points text s).
Proof. unfold collectPoints. cbv zeta. walk. Qed.

#[local] Hint Resolve frame_progressMission frame_collectPoints : frame.

Section Walks.

Variable hypot : Q -> Q -> Q.
Variable pow : Q -> Q -> Q.

(** *** The moving bodies *)

Lemma frame_upd_player f s : frame_rel s (upd_player f s).
Proof. frame_leaf. Qed.

Lemma frame_upd_sparkBody f s : frame_rel s (upd_sparkBody f s).
Proof. frame_leaf. Qed.

Lemma frame_upd_cometBody f s : frame_rel s (upd_cometBody f s).
Proof. frame_leaf. Qed.

Lemma frame_upd_hazardBody f s : frame_rel s (upd_hazardBody f s).
Proof. frame_leaf. Qed.

Lemma frame_upd_home f s : frame_rel s (upd_home f s).
Proof. frame_leaf. Qed.

Lemma frame_upd_extraPlanets f s :
  (forall p, ExtraPlanet.id (f p) = ExtraPlanet.id p) ->
  frame_rel s (upd_extraPlanets f s).
Proof.
  intro K. constructor; rd; try reflexivity; try lia; try apply incl_refl.
  intros []. constructor; unfold levelFor in *; rd_all; auto.
  rewrite planet_ids_map by exact K. assumption.
Qed.

Lemma frame_upd_extraBodyAt i f s : frame_rel s (upd_extraBodyAt i f s).
Proof. frame_leaf. Qed.

Lemma frame_upd_collectibleBody slot f s : frame_rel s (upd_collectibleBody slot f s).
Proof. destruct slot; frame_leaf. Qed.

Hint Resolve frame_upd_player frame_upd_sparkBody frame_upd_cometBody
  frame_upd_hazardBody frame_upd_home frame_upd_extraBodyAt
  frame_upd_collectibleBody : frame.
Hint Extern 1 (frame_rel _ (upd_extraPlanets _ _)) =>
  apply frame_upd_extraPlanets; intro; reflexivity : frame.

Lemma frame_upd_movingBodies f s : frame_rel s (upd_movingBodies f s).
Proof. unfold upd_movingBodies. walk. Qed.

Hint Resolve frame_upd_movingBodies : frame.

Lemma frame_triggerPlanetImpact source s :
  frame_rel s (triggerPlanetImpact hypot source s).
Proof. unfold triggerPlanetImpact. cbv zeta. walk. Qed.

Lemma frame_applySolarInfluence frameScale s :
  frame_rel s (applySolarInfluence hypot frameScale s).
Proof. unfold applySolarInfluence. cbv zeta. walk. Qed.

Lemma frame_putMovingPlanets planets s : frame_rel s (putMovingPlanets planets s).
Proof.
  unfold putMovingPlanets.
  destruct planets as [|a [|b [|c rest]]]; try apply frame_rel_refl.
  frame_leaf.
Qed.

Lemma frame_resolvePlanetCollisions s : frame_rel s (resolvePlanetCollisions hypot s).
Proof. unfold resolvePlanetCollisions. apply frame_putMovingPlanets. Qed.

Hint Resolve frame_triggerPlanetImpact frame_applySolarInfluence
  frame_resolvePlanetCollisions : frame.

Lemma frame_applyExtraPlanetEffect id s : frame_rel s (applyExtraPlanetEffect id s).
Proof. unfold applyExtraPlanetEffect. destruct id; walk. Qed.

Hint Resolve frame_applyExtraPlanetEffect : frame.

(** *** Pickups *)

Lemma frame_advanceCollectible slot frameScale s :
  frame_rel s (advanceCollectible hypot slot frameScale s).
Proof. unfold advanceCollectible. cbv zeta. walk. Qed.

Lemma frame_pickupCollectible slot w :
  frame_rel (fst w) (fst (pickupCollectible hypot slot w)).
Proof.
  unfold pickupCollectible. cbv zeta. cbn [fst snd].
  destruct (Collectible.id (getCollectible slot (fst w))); walk.
Qed.

Lemma frame_moveCollectible slot deltaMs frameScale w :
  frame_rel (fst w) (fst (moveCollectible hypot slot deltaMs frameScale w)).
Proof.
  unfold moveCollectible. cbv zeta.
  pose proof (frame_advanceCollectible slot frameScale (fst w)) as A.
  destruct (collectibleCoolingDown _ _).
  - cbn [fst]. eapply frame_rel_trans; [exact A|]. auto with frame.
  - destruct (collectibleTouched _ _ _).
    + eapply frame_rel_trans; [exact A|].
      apply (frame_pickupCollectible slot (_, snd w)).
    + exact A.
Qed.

Lemma frame_advanceExtraPlanet index frameScale planet s :
  frame_rel s (advanceExtraPlanet hypot index frameScale planet s).
Proof. unfold advanceExtraPlanet. cbv zeta. walk. Qed.

Lemma frame_pickupExtraPlanet index planet w :
  frame_rel (fst w) (fst (pickupExtraPlanet hypot index planet w)).
Proof.
  unfold pickupExtraPlanet. cbv zeta. cbn [fst snd].
  destruct (ExtraPlanet.id planet); walk.
Qed.

Lemma frame_moveExtraPlanetAt deltaMs frameScale w index :
  frame_rel (fst w) (fst (moveExtraPlanetAt hypot deltaMs frameScale w index)).
Proof.
  unfold moveExtraPlanetAt.
  destruct (nth_error (extraPlanets (fst w)) index) as [planet0|];
    [|apply frame_rel_refl].
  cbv zeta.
  pose proof (frame_advanceExtraPlanet index frameScale planet0 (fst w)) as A.
  destruct (nth_error _ index) as [planet|]; [|exact A].
  destruct (extraPlanetCoolingDown planet).
  - cbn [fst]. eapply frame_rel_trans; [exact A|]. auto with frame.
  - destruct (extraPlanetOutOfReach _ _ _); [exact A|].
    eapply frame_rel_trans; [exact A|].
    apply (frame_pickupExtraPlanet index planet (_, snd w)).
Qed.

Lemma frame_fold_moveExtraPlanetAt deltaMs frameScale indices w :
  frame_rel (fst w)
    (fst (fold_left (moveExtraPlanetAt hypot deltaMs frameScale) indices w)).
Proof.
  revert w. induction indices as [|i rest IH]; intro w; cbn [fold_left].
  - apply frame_rel_refl.
  - eapply frame_rel_trans; [apply frame_moveExtraPlanetAt | apply IH].
Qed.

Lemma frame_moveExtraPlanets deltaMs frameScale w :
  frame_rel (fst w) (fst (moveExtraPlanets hypot deltaMs frameScale w)).
Proof. unfold moveExtraPlanets. apply frame_fold_moveExtraPlanetAt. Qed.

Lemma frame_pickupHome w : frame_rel (fst w) (fst (pickupHome hypot w)).
Proof. unfold pickupHome. cbv zeta. cbn [fst snd]. walk. Qed.

Lemma frame_moveHome deltaMs w : frame_rel (fst w) (fst (moveHome hypot deltaMs w)).
Proof.
  unfold moveHome. cbv zeta.
  pose proof (frame_upd_home (HomePortal.set_visible true) (fst w)) as A.
  destruct (homeCoolingDown _).
  - cbn [fst]. eapply frame_rel_trans; [exact A|]. auto with frame.
  - destruct (homeTouched _ _).
    + eapply frame_rel_trans; [exact A|]. apply (frame_pickupHome (_, snd w)).
    + exact A.
Qed.

(** *** The player, the timers, the hazard *)

Lemma frame_steerPlayer frameScale s : frame_rel s (steerPlayer hypot pow frameScale s).
Proof. unfold steerPlayer. cbv zeta. walk. Qed.

Lemma frame_breakReminder text timerMs s :
  frame_rel s (setAnnouncement text timerMs (set_isPaused true (set_showBreakReminder true s))).
Proof. unfold setAnnouncement. frame_leaf. Qed.

Hint Resolve frame_breakReminder : frame.

Lemma frame_missionClock deltaMs s :
  0 <= deltaMs ->
  frame_rel s
    (set_currentMission
       (MissionState.set_timeLeftMs
          (Qmax 0 (MissionState.timeLeftMs (currentMission s) - deltaMs))
          (currentMission s)) s).
Proof.
  intro D. constructor; rd; try reflexivity; try lia; try apply incl_refl.
  intros []. constructor; unfold levelFor in *; rd_all; auto.
  split; [apply Q.le_max_l|]. apply Q.max_lub; lra.
Qed.

Lemma frame_decayTimers deltaMs s : 0 <= deltaMs -> frame_rel s (decayTimers deltaMs s).
Proof.
  intro D. pose proof (frame_missionClock deltaMs) as C.
  unfold decayTimers. cbv zeta. walk.
Qed.

Lemma frame_advanceHazard frameScale s : frame_rel s (advanceHazard hypot frameScale s).
Proof. unfold advanceHazard. cbv zeta. walk. Qed.

Lemma frame_outOfLives s : frame_rel s (outOfLives s).
Proof.
  unfold outOfLives, incrementEvent, setAnnouncement. destruct (negb _); frame_leaf.
Qed.

Hint Resolve frame_outOfLives : frame.

Lemma frame_collideHazard w : frame_rel (fst w) (fst (collideHazard hypot w)).
Proof.
  destruct w as [s r]. unfold collideHazard. cbv zeta. cbn [fst snd].
  destruct (Qltb 0 _); [cbn [fst]; walk|].
  destruct (0 <? _)%Z; cbn [fst]; walk.
Qed.

Lemma frame_moveHazard deltaMs frameScale w :
  frame_rel (fst w) (fst (moveHazard hypot deltaMs frameScale w)).
Proof.
  unfold moveHazard. cbv zeta.
  pose proof (frame_advanceHazard frameScale (fst w)) as A.
  destruct (hazardCoolingDown _).
  - cbn [fst]. eapply frame_rel_trans; [exact A|]. auto with frame.
  - destruct (hazardTouched _ _).
    + eapply frame_rel_trans; [exact A|]. apply (frame_collideHazard (_, _)).
    + exact A.
Qed.

(** *** The tick and the other reducers *)

Lemma frame_tick payloadDeltaMs w :
  frame_rel (fst w) (fst (tick hypot pow payloadDeltaMs w)).
Proof.
  destruct (tickBlocked (fst w)) eqn:B.
  - rewrite tick_blocked by exact B. apply frame_rel_refl.
  - rewrite (tick_phases hypot pow payloadDeltaMs w B).
    unfold tickAfterHazard, liftW. cbn [fst snd].
    eapply frame_rel_trans;
      [|apply frame_decayTimers; pose proof (clamped_delta payloadDeltaMs);
        unfold clampDelta; lra].
    eapply frame_rel_trans; [|apply frame_resolvePlanetCollisions].
    eapply frame_rel_trans; [|apply frame_moveHazard].
    unfold tickUntilHazard. cbv zeta.
    eapply frame_rel_trans; [|apply frame_moveHome].
    eapply frame_rel_trans; [|apply frame_moveExtraPlanets].
    eapply frame_rel_trans; [|apply frame_moveCollectible].
    eapply frame_rel_trans; [|apply frame_moveCollectible].
    unfold liftW; cbn [fst snd].
    eapply frame_rel_trans; [|apply frame_applySolarInfluence].
    apply frame_steerPlayer.
Qed.

End Walks.

(** *** Round setup, commands, reachable states *)

Lemma createExtraPlanetsFrom_ids blueprints width height baseSpawnSpeed r :
  map ExtraPlanet.id (fst (createExtraPlanetsFrom blueprints width height baseSpawnSpeed r))
  = map bp_id blueprints.
Proof.
  revert r. induction blueprints as [|b rest IH]; intro r; cbn [createExtraPlanetsFrom].
  - reflexivity.
  - cbv zeta. cbn [fst map]. rewrite IH. reflexivity.
Qed.

(** What [setupRound] needs of the state it starts from. *)
Record Carried (s : GameState) : Prop := mkCarried {
  ca_seed : (0 <= missionSeed s)%Z;
  ca_classic : In Classic (unlockedSkins s);
  ca_selected : In (selectedSkin s) (unlockedSkins s);
  ca_skins : NoDup (unlockedSkins s);
  ca_badges : NoDup (badges s)
}.

Lemma Carried_Sound (s : GameState) : Sound s -> Carried s.
Proof. intros []. constructor; assumption. Qed.

Lemma Sound_setupRound message w : Carried (fst w) -> Sound (fst (setupRound message w)).
Proof.
  intros [].
  pose proof (baseLives_pos (difficulty (fst w))).
  pose proof (baseShieldCharges_le (difficulty (fst w))).
  destruct (createMission_clock (missionSeed (fst w) + 1) (difficulty (fst w))) as (C & L).
  unfold setupRound, setAnnouncement. cbv zeta.
  constructor; unfold levelFor; rd; auto; try lia; try discriminate;
    first [ apply sameTemplate_refl
          | rewrite C; split; [exact L | apply Qle_refl]
          | apply createExtraPlanetsFrom_ids ].
Qed.

Lemma Sound_initial stored r : Sound (fst (createInitialState stored r)).
Proof.
  destruct (createMission_clock 0 Normal) as (C & L).
  unfold createInitialState. cbv zeta.
  constructor; unfold levelFor; rd; auto; try (cbn; lia); try discriminate;
    first [ apply sameTemplate_refl
          | rewrite C; split; [exact L | apply Qle_refl]
          | apply createExtraPlanetsFrom_ids
          | solve [cbn; auto]
          | solve [repeat constructor; intros []] ].
Qed.

Section Session.

Variable hypot : Q -> Q -> Q.
Variable pow : Q -> Q -> Q.

Lemma Sound_command a s r :
  isTick a = false -> resetsRound a s = false ->
  Sound s -> Sound (fst (reducer hypot pow a (s, r))).
Proof.
  destruct a; cbn [isTick resetsRound reducer liftW fst snd]; try discriminate;
    intros _ R S.
  - unfold setArenaSize. cbv zeta. destruct (_ || _); [exact S|].
    revert S. sound_leaf.
  - revert S. unfold setInput. sound_leaf.
  - unfold setDifficulty. cbn [fst]. apply negb_false_iff in R. rewrite R. exact S.
  - revert S. unfold setControlSide. sound_leaf.
  - revert S. unfold setSoundVolume. cbv zeta. sound_leaf.
  - revert S. unfold setVibrationEnabled. sound_leaf.
  - revert S. unfold setSessionReminderEnabled, when.
    destruct (negb payload); sound_leaf; discriminate.
  - revert S. unfold setSessionReminderMinutes. cbv zeta. sound_leaf.
  - revert S. unfold dismissBreakReminder, when, setAnnouncement. rd.
    destruct (isGameOver s) eqn:G; cbn [negb]; sound_leaf; try discriminate; congruence.
  - unfold selectRocketSkin. destruct (existsb _ _) eqn:E; cbn [negb]; [|exact S].
    apply skin_listed in E. revert S. sound_leaf.
  - unfold nudgePlayer, when. cbv zeta. destruct (_ || _); [exact S|].
    match goal with |- context [if ?c then _ else _] => destruct c end;
      revert S; sound_leaf.
  - revert S. unfold stopPlayer. sound_leaf.
  - revert S. unfold resetPlayerPosition, setAnnouncement. sound_leaf.
  - unfold togglePause, setAnnouncement.
    destruct (isGameOver s) eqn:G, (showBreakReminder s) eqn:B; cbn [orb];
      try exact S.
    revert S. sound_leaf; congruence.
Qed.

Lemma Sound_reducer a s r : Sound s -> Sound (fst (reducer hypot pow a (s, r))).
Proof.
  intro S. destruct (reducer_tick_or_not a) as [[d ->]|T].
  - cbn [reducer]. apply (fm_sound _ _ (frame_tick hypot pow d (s, r))). exact S.
  - destruct (resetsRound a s) eqn:R.
    + apply Carried_Sound in S. destruct a; try discriminate.
      * cbn [reducer]. unfold setDifficulty. cbn [fst].
        cbn [resetsRound] in R. apply negb_true_iff in R. rewrite R.
        apply Sound_setupRound. destruct S. constructor; assumption.
      * cbn [reducer]. unfold restartGame. apply Sound_setupRound. exact S.
    + apply Sound_command; assumption.
Qed.

Lemma Sound_reachable s : reachable hypot pow s -> Sound s.
Proof.
  induction 1 as [stored r|s a r _ IH].
  - apply Sound_initial.
  - apply Sound_reducer. exact IH.
Qed.

End Session.

Section Sessions.

Variable hypot : Q -> Q -> Q.
Variable pow : Q -> Q -> Q.

Lemma progress_reducer a s r :
  let s' := fst (reducer hypot pow a (s, r)) in
  incl (badges s) (badges s')
  /\ incl (unlockedSkins s) (unlockedSkins s')
  /\ (missionsCompleted s <= missionsCompleted s')%Z
  /\ (missionSeed s <= missionSeed s')%Z.
Proof.
  cbv zeta. destruct (reducer_tick_or_not a) as [[d ->]|T].
  - cbn [reducer]. destruct (frame_tick hypot pow d (s, r)). cbn [fst] in *. auto.
  - destruct (resetsRound a s) eqn:R.
    + pose proof (reducer_resets hypot pow a s r R) as F.
      rewrite (fr_badges _ _ F), (fr_unlockedSkins _ _ F),
        (fr_missionsCompleted _ _ F), (fr_missionSeed _ _ F).
      destruct a; try discriminate; cbn [roundBase]; rd;
        repeat apply conj; try apply incl_refl; lia.
    + pose proof (command_reducer hypot pow a s r T R) as K.
      rewrite (cr_badges _ _ K), (cr_unlockedSkins _ _ K).
      repeat apply conj; try apply incl_refl;
        destruct a; try discriminate; cbn [reducer liftW fst snd];
        unfold setArenaSize, setInput, setDifficulty, setControlSide, setSoundVolume,
          setVibrationEnabled, setSessionReminderEnabled, setSessionReminderMinutes,
          dismissBreakReminder, selectRocketSkin, nudgePlayer, stopPlayer,
          resetPlayerPosition, togglePause, when, setAnnouncement;
        cbv zeta; cbn [fst snd];
        try (cbn [resetsRound] in R; apply negb_false_iff in R; rewrite R);
        repeat match goal with
        | |- context [if ?c then _ else _] => destruct c
        end; rd; lia.
Qed.

(** X17: no reducer takes a badge or an unlocked skin away, and none lowers
    the count of completed missions or the mission seed: not a tick, not a
    restart, not a change of difficulty; the same holds along any run of
    actions. *)
Theorem progress_is_never_lost (actions : list Action) (w : W) :
  let s := fst w in
  let s' := fst (run hypot pow actions w) in
  incl (badges s) (badges s')
  /\ incl (unlockedSkins s) (unlockedSkins s')
  /\ (missionsCompleted s <= missionsCompleted s')%Z
  /\ (missionSeed s <= missionSeed s')%Z.
Proof.
  cbv zeta. revert w. induction actions as [|a rest IH]; intros [s r];
    cbn [run fold_left fst].
  - repeat apply conj; try apply incl_refl; lia.
  - destruct (progress_reducer a s r) as (B & K & D & M).
    destruct (IH (reducer hypot pow a (s, r))) as (B' & K' & D' & M').
    unfold run in *.
    repeat apply conj; try (eapply incl_tran; eassumption); lia.
Qed.

(** X18: in every reachable state the level is the one the score calls
    for, [floor(score / levelScoreStep) + 1] on the current difficulty, and
    so at least 1. *)
Theorem level_follows_score (s : GameState) :
  reachable hypot pow s ->
  level s = (score s / levelScoreStep (getDifficultyConfig (difficulty s)) + 1)%Z
  /\ (1 <= level s)%Z.
Proof.
  intro R. pose proof (Sound_reachable hypot pow s R) as SD.
  pose proof (levelScoreStep_pos (difficulty s)) as P.
  pose proof (sd_level _ SD) as L. unfold levelFor in L. split; [exact L|].
  rewrite L. pose proof (Z.div_pos (score s) _ (sd_score _ SD) P). lia.
Qed.

(** X19: in every reachable state lives are at most two above the base
    lives of the difficulty, and there are at most 5 shield charges. *)
Theorem lives_and_shields_are_capped (s : GameState) :
  reachable hypot pow s ->
  (lives s <= baseLives (getDifficultyConfig (difficulty s)) + 2)%Z
  /\ (shieldCharges s <= 5)%Z.
Proof. intro R. destruct (Sound_reachable hypot pow s R). auto. Qed.

(** X20: in every reachable state the current mission is the instance of
    the template for the current seed and difficulty: same id, label, kind,
    target, reward and time limit; the seed is not negative, and the time
    left is between 0 and the time limit. *)
Theorem mission_matches_its_seed (s : GameState) :
  reachable hypot pow s ->
  let m := currentMission s in
  let t := createMission (missionSeed s) (difficulty s) in
  (0 <= missionSeed s)%Z
  /\ MissionState.id m = MissionState.id t
  /\ MissionState.label m = MissionState.label t
  /\ MissionState.kind m = MissionState.kind t
  /\ MissionState.target m = MissionState.target t
  /\ MissionState.rewardPoints m = MissionState.rewardPoints t
  /\ MissionState.timeLimitMs m = MissionState.timeLimitMs t
  /\ 0 <= MissionState.timeLeftMs m <= MissionState.timeLimitMs m.
Proof.
  intro R. cbv zeta.
  pose proof (Sound_reachable hypot pow s R) as SD.
  pose proof (sd_mission _ SD) as M. pose proof (sd_seed _ SD) as N.
  pose proof (sd_clock _ SD) as K. unfold sameTemplate in M. tauto.
Qed.

(** X21: in every reachable state a game that is over, or that shows the
    break reminder, is paused; so a tick is blocked exactly when the game is
    paused. *)
Theorem blocked_games_are_paused (s : GameState) :
  reachable hypot pow s ->
  (isGameOver s = true -> isPaused s = true)
  /\ (showBreakReminder s = true -> isPaused s = true)
  /\ tickBlocked s = isPaused s.
Proof.
  intro R. pose proof (Sound_reachable hypot pow s R) as SD.
  pose proof (sd_over _ SD) as O. pose proof (sd_break _ SD) as K. clear SD.
  repeat apply conj; try assumption.
  unfold tickBlocked.
  destruct (isPaused s), (isGameOver s) eqn:G, (showBreakReminder s) eqn:B;
    try reflexivity.
  - specialize (O eq_refl). discriminate.
  - specialize (O eq_refl). discriminate.
  - specialize (K eq_refl). discriminate.
Qed.

(** X22: in every reachable state the selected skin is an unlocked one, the
    classic skin is unlocked, and neither the unlocked skins nor the badges
    list an entry twice. *)
Theorem selected_skin_is_unlocked (s : GameState) :
  reachable hypot pow s ->
  In (selectedSkin s) (unlockedSkins s)
  /\ In Classic (unlockedSkins s)
  /\ NoDup (unlockedSkins s)
  /\ NoDup (badges s).
Proof. intro R. destruct (Sound_reachable hypot pow s R). auto. Qed.

(** X23: in every reachable state the extra planets are the five of the
    blueprints, in their order: mercury, venus, saturn, uranus, neptune. *)
Theorem extra_planets_are_the_blueprints (s : GameState) :
  reachable hypot pow s ->
  map ExtraPlanet.id (extraPlanets s) = [XMercury; XVenus; XSaturn; XUranus; XNeptune]
  /\ List.length (extraPlanets s) = 5%nat.
Proof.
  intro R. pose proof (sd_planets _ (Sound_reachable hypot pow s R)) as P.
  split; [exact P|].
  rewrite <- (length_map ExtraPlanet.id), P. reflexivity.
Qed.

(** X24: the parental settings change only by the four settings
    reducers, the control side only by [setControlSide], the selected skin
    only by [selectRocketSkin], and then only to an unlocked skin, and the
    arena size only by [setArenaSize]: ticks, restarts and changes of
    difficulty leave all of them as they are. *)
Theorem setup_changes_only_by_its_reducers (a : Action) (s : GameState) (r : Rand) :
  let s' := fst (reducer hypot pow a (s, r)) in
  match a with
  | SetSoundVolume _ | SetVibrationEnabled _ | SetSessionReminderEnabled _
  | SetSessionReminderMinutes _ => True
  | _ => settings s' = settings s
  end
  /\ match a with
     | SetControlSide payload => controlSide s' = payload
     | _ => controlSide s' = controlSide s
     end
  /\ match a with
     | SelectRocketSkin payload =>
         selectedSkin s'
         = if existsb (RocketSkin_eqb payload) (unlockedSkins s) then payload
           else selectedSkin s
     | _ => selectedSkin s' = selectedSkin s
     end
  /\ match a with
     | SetArenaSize _ _ => True
     | _ => arenaWidth s' = arenaWidth s /\ arenaHeight s' = arenaHeight s
     end.
Proof.
  cbv zeta. destruct (reducer_tick_or_not a) as [[d ->]|T].
  - cbn [reducer]. destruct (frame_tick hypot pow d (s, r)). cbn [fst] in *. auto.
  - destruct (resetsRound a s) eqn:R.
    + pose proof (reducer_resets hypot pow a s r R) as F.
      rewrite (fr_settings _ _ F), (fr_controlSide _ _ F), (fr_selectedSkin _ _ F),
        (fr_arenaWidth _ _ F), (fr_arenaHeight _ _ F).
      destruct a; try discriminate; cbn [roundBase]; rd; auto.
    + destruct a; try discriminate; cbn [reducer liftW fst snd];
        unfold setArenaSize, setInput, setDifficulty, setControlSide, setSoundVolume,
          setVibrationEnabled, setSessionReminderEnabled, setSessionReminderMinutes,
          dismissBreakReminder, selectRocketSkin, nudgePlayer, stopPlayer,
          resetPlayerPosition, togglePause, when, setAnnouncement;
        cbv zeta; cbn [fst snd];
        try (cbn [resetsRound] in R; apply negb_false_iff in R; rewrite R);
        try match goal with
        | |- context [existsb ?f ?l] => destruct (existsb f l); cbn [negb]
        end;
        repeat match goal with
        | |- context [if ?c then _ else _] => destruct c
        end; rd; auto.
Qed.

End Sessions.

Lemma level_follows_score_witness :
  level afterFirstTick
  = (score afterFirstTick
     / levelScoreStep (getDifficultyConfig (difficulty afterFirstTick)) + 1)%Z.
Proof.
  apply (level_follows_score hypotQ powQ afterFirstTick).
  apply reachable_step, reachable_init.
Defined.

Lemma lives_and_shields_are_capped_witness :
  (lives afterFirstTick
   <= baseLives (getDifficultyConfig (difficulty afterFirstTick)) + 2)%Z
  /\ (shieldCharges afterFirstTick <= 5)%Z.
Proof.
  apply (lives_and_shields_are_capped hypotQ powQ afterFirstTick).
  apply reachable_step, reachable_init.
Defined.

Lemma mission_matches_its_seed_witness :
  MissionState.kind (currentMission afterFirstTick)
  = MissionState.kind
      (createMission (missionSeed afterFirstTick) (difficulty afterFirstTick)).
Proof.
  apply (mission_matches_its_seed hypotQ powQ afterFirstTick).
  apply reachable_step, reachable_init.
Defined.

(** A game paused after its first tick. *)
Definition pausedGame : GameState :=
  fst (run hypotQ powQ [Tick 16; TogglePause] (createInitialState None halves)).

Lemma blocked_games_are_paused_witness :
  tickBlocked pausedGame = isPaused pausedGame.
Proof.
  apply (blocked_games_are_paused hypotQ powQ pausedGame).
  apply (reachable_run hypotQ powQ _ (createInitialState None halves)).
  apply reachable_init.
Defined.

Lemma selected_skin_is_unlocked_witness :
  In (selectedSkin afterFirstTick) (unlockedSkins afterFirstTick)
  /\ NoDup (badges afterFirstTick).
Proof.
  destruct (selected_skin_is_unlocked hypotQ powQ afterFirstTick)
    as (S & _ & _ & B).
  - apply reachable_step, reachable_init.
  - split; [exact S | exact B].
Defined.

Lemma extra_planets_are_the_blueprints_witness :
  List.length (extraPlanets afterFirstTick) = 5%nat.
Proof.
  apply (extra_planets_are_the_blueprints hypotQ powQ afterFirstTick).
  apply reachable_step, reachable_init.
Defined.

(** ** What only the steering and the timers touch *)

(** What every part of the tick but the steering and the break reminder
    leaves alone: where the player is, the state of the session reminder and
    the settings; none of them lifts the pause. *)
Record calm_rel (s s' : GameState) : Prop := mkCalm {
  cm_x : DynamicEntity.x (player s') = DynamicEntity.x (player s);
  cm_y : DynamicEntity.y (player s') = DynamicEntity.y (player s);
  cm_radius : DynamicEntity.radius (player s') = DynamicEntity.radius (player s);
  cm_reminder : showBreakReminder s' = showBreakReminder s;
  cm_elapsed : sessionElapsedMs s' = sessionElapsedMs s;
  cm_settings : settings s' = settings s;
  cm_paused : isPaused s = true -> isPaused s' = true
}.

Lemma calm_rel_refl (s : GameState) : calm_rel s s.
Proof. constructor; auto. Qed.

Lemma calm_rel_trans (a b c : GameState) : calm_rel a b -> calm_rel b c -> calm_rel a c.
Proof. intros [] []. constructor; try congruence; auto. Qed.

Lemma calm_when (c : GameState -> bool) (f : GameState -> GameState) (s : GameState) :
  (forall y, calm_rel y (f y)) -> calm_rel s (when c f s).
Proof. intro H. unfold when. destruct (c s); [apply H | apply calm_rel_refl]. Qed.

Ltac calm_leaf := constructor; rd; try reflexivity; auto.

Create HintDb calm discriminated.

(** [stroll] is [chain] for [calm_rel]. *)
Ltac stroll :=
  lazymatch goal with
  | |- calm_rel ?s ?s => apply calm_rel_refl
  | |- calm_rel ?s (?f ?x) =>
      first
        [ solve [auto 2 with calm]
        | apply (calm_rel_trans s x (f x));
          [ stroll
          | generalize x; intro;
            first [ solve [auto 2 with calm] | solve [calm_leaf] ] ] ]
  end.

#[local] Hint Extern 1 (calm_rel _ (when _ _ _)) =>
  apply calm_when; intro; cbv beta; stroll : calm.

Lemma calm_setAnnouncement text timerMs s : calm_rel s (setAnnouncement text timerMs s).
Proof. unfold setAnnouncement. calm_leaf. Qed.

Lemma calm_setLearningFact key s : calm_rel s (setLearningFact key s).
Proof. unfold setLearningFact. calm_leaf. Qed.

Lemma calm_incrementEvent key s : calm_rel s (incrementEvent key s).
Proof. unfold incrementEvent. calm_leaf. Qed.

Lemma calm_bumpCatch key s : calm_rel s (bumpCatch key s).
Proof. unfold bumpCatch. calm_leaf. Qed.

Lemma calm_refreshHighScore s : calm_rel s (refreshHighScore s).
Proof. unfold refreshHighScore. destruct (_ <? _)%Z; calm_leaf. Qed.

#[local] Hint Resolve calm_setAnnouncement calm_setLearningFact calm_incrementEvent
  calm_bumpCatch calm_refreshHighScore : calm.

Lemma calm_unlockSkin skin message s : calm_rel s (unlockSkin skin message s).
Proof. unfold unlockSkin. destruct (existsb _ _); [apply calm_rel_refl | stroll]. Qed.

Lemma calm_grantBadge badgeId message s : calm_rel s (grantBadge badgeId message s).
Proof. unfold grantBadge. destruct (existsb _ _); [apply calm_rel_refl | stroll]. Qed.

Lemma calm_maybeLevelUp s : calm_rel s (maybeLevelUp s).
Proof.
  unfold maybeLevelUp. cbv zeta. destruct (_ <? _)%Z; [stroll | apply calm_rel_refl].
Qed.

#[local] Hint Resolve calm_unlockSkin calm_grantBadge calm_maybeLevelUp : calm.

Lemma calm_checkUnlocksAndBadges s : calm_rel s (checkUnlocksAndBadges s).
Proof. unfold checkUnlocksAndBadges. stroll. Qed.

Lemma calm_createNextMission s : calm_rel s (createNextMission s).
Proof. unfold createNextMission. calm_leaf. Qed.

#[local] Hint Resolve calm_checkUnlocksAndBadges calm_createNextMission : calm.

Lemma calm_completeMission s : calm_rel s (completeMission s).
Proof. unfold completeMission. cbv zeta. stroll. Qed.

Lemma calm_failMission s : calm_rel s (failMission s).
Proof. unfold failMission. stroll. Qed.

#[local] Hint Resolve calm_completeMission calm_failMission : calm.

Lemma calm_progressMission kind amount s : calm_rel s (progressMission kind amount s).
Proof.
  unfold progressMission. destruct (negb _); [apply calm_rel_refl|].
  cbv zeta. stroll.
Qed.

Lemma calm_collectPoints points text s : calm_rel s (collectPoints points text s).
Proof. unfold collectPoints. cbv zeta. stroll. Qed.

#[local] Hint Resolve calm_progressMission calm_collectPoints : calm.

Section Strolls.

Variable hypot : Q -> Q -> Q.
Variable pow : Q -> Q -> Q.

Lemma calm_upd_sparkBody f s : calm_rel s (upd_sparkBody f s).
Proof. calm_leaf. Qed.

Lemma calm_upd_cometBody f s : calm_rel s (upd_cometBody f s).
Proof. calm_leaf. Qed.

Lemma calm_upd_hazardBody f s : calm_rel s (upd_hazardBody f s).
Proof. calm_leaf. Qed.

Lemma calm_upd_home f s : calm_rel s (upd_home f s).
Proof. calm_leaf. Qed.

Lemma calm_upd_extraPlanets f s : calm_rel s (upd_extraPlanets f s).
Proof. calm_leaf. Qed.

Lemma calm_upd_extraBodyAt i f s : calm_rel s (upd_extraBodyAt i f s).
Proof. calm_leaf. Qed.

Lemma calm_upd_collectibleBody slot f s : calm_rel s (upd_collectibleBody slot f s).
Proof. destruct slot; calm_leaf. Qed.

Hint Resolve calm_upd_sparkBody calm_upd_cometBody calm_upd_hazardBody calm_upd_home
  calm_upd_extraPlanets calm_upd_extraBodyAt calm_upd_collectibleBody : calm.

Lemma calm_upd_movingBodies f s : calm_rel s (upd_movingBodies f s).
Proof. unfold upd_movingBodies. stroll. Qed.

Hint Resolve calm_upd_movingBodies : calm.

Lemma calm_triggerPlanetImpact source s :
  calm_rel s (triggerPlanetImpact hypot source s).
Proof. unfold triggerPlanetImpact. cbv zeta. stroll. Qed.

Lemma calm_applySolarInfluence frameScale s :
  calm_rel s (applySolarInfluence hypot frameScale s).
Proof. unfold applySolarInfluence. cbv zeta. stroll. Qed.

Lemma calm_putMovingPlanets planets s : calm_rel s (putMovingPlanets planets s).
Proof.
  unfold putMovingPlanets.
  destruct planets as [|a [|b [|c rest]]]; try apply calm_rel_refl.
  calm_leaf.
Qed.

Lemma calm_resolvePlanetCollisions s : calm_rel s (resolvePlanetCollisions hypot s).
Proof. unfold resolvePlanetCollisions. apply calm_putMovingPlanets. Qed.

Hint Resolve calm_triggerPlanetImpact calm_applySolarInfluence
  calm_resolvePlanetCollisions : calm.

Lemma calm_applyExtraPlanetEffect id s : calm_rel s (applyExtraPlanetEffect id s).
Proof. unfold applyExtraPlanetEffect. destruct id; stroll. Qed.

Hint Resolve calm_applyExtraPlanetEffect : calm.

Lemma calm_advanceCollectible slot frameScale s :
  calm_rel s (advanceCollectible hypot slot frameScale s).
Proof. unfold advanceCollectible. cbv zeta. stroll. Qed.

Lemma calm_pickupCollectible slot w :
  calm_rel (fst w) (fst (pickupCollectible hypot slot w)).
Proof.
  unfold pickupCollectible. cbv zeta. cbn [fst snd].
  destruct (Collectible.id (getCollectible slot (fst w))); stroll.
Qed.

Lemma calm_moveCollectible slot deltaMs frameScale w :
  calm_rel (fst w) (fst (moveCollectible hypot slot deltaMs frameScale w)).
Proof.
  unfold moveCollectible. cbv zeta.
  pose proof (calm_advanceCollectible slot frameScale (fst w)) as A.
  destruct (collectibleCoolingDown _ _).
  - cbn [fst]. eapply calm_rel_trans; [exact A|]. auto with calm.
  - destruct (collectibleTouched _ _ _).
    + eapply calm_rel_trans; [exact A|].
      apply (calm_pickupCollectible slot (_, snd w)).
    + exact A.
Qed.

Lemma calm_advanceExtraPlanet index frameScale planet s :
  calm_rel s (advanceExtraPlanet hypot index frameScale planet s).
Proof. unfold advanceExtraPlanet. cbv zeta. stroll. Qed.

Lemma calm_pickupExtraPlanet index planet w :
  calm_rel (fst w) (fst (pickupExtraPlanet hypot index planet w)).
Proof.
  unfold pickupExtraPlanet. cbv zeta. cbn [fst snd].
  destruct (ExtraPlanet.id planet); stroll.
Qed.

Lemma calm_moveExtraPlanetAt deltaMs frameScale w index :
  calm_rel (fst w) (fst (moveExtraPlanetAt hypot deltaMs frameScale w index)).
Proof.
  unfold moveExtraPlanetAt.
  destruct (nth_error (extraPlanets (fst w)) index) as [planet0|];
    [|apply calm_rel_refl].
  cbv zeta.
  pose proof (calm_advanceExtraPlanet index frameScale planet0 (fst w)) as A.
  destruct (nth_error _ index) as [planet|]; [|exact A].
  destruct (extraPlanetCoolingDown planet).
  - cbn [fst]. eapply calm_rel_trans; [exact A|]. auto with calm.
  - destruct (extraPlanetOutOfReach _ _ _); [exact A|].
    eapply calm_rel_trans; [exact A|].
    apply (calm_pickupExtraPlanet index planet (_, snd w)).
Qed.

Lemma calm_fold_moveExtraPlanetAt deltaMs frameScale indices w :
  calm_rel (fst w)
    (fst (fold_left (moveExtraPlanetAt hypot deltaMs frameScale) indices w)).
Proof.
  revert w. induction indices as [|i rest IH]; intro w; cbn [fold_left].
  - apply calm_rel_refl.
  - eapply calm_rel_trans; [apply calm_moveExtraPlanetAt | apply IH].
Qed.

Lemma calm_moveExtraPlanets deltaMs frameScale w :
  calm_rel (fst w) (fst (moveExtraPlanets hypot deltaMs frameScale w)).
Proof. unfold moveExtraPlanets. apply calm_fold_moveExtraPlanetAt. Qed.

Lemma calm_pickupHome w : calm_rel (fst w) (fst (pickupHome hypot w)).
Proof. unfold pickupHome. cbv zeta. cbn [fst snd]. stroll. Qed.

Lemma calm_moveHome deltaMs w : calm_rel (fst w) (fst (moveHome hypot deltaMs w)).
Proof.
  unfold moveHome. cbv zeta.
  pose proof (calm_upd_home (HomePortal.set_visible true) (fst w)) as A.
  destruct (homeCoolingDown _).
  - cbn [fst]. eapply calm_rel_trans; [exact A|]. auto with calm.
  - destruct (homeTouched _ _).
    + eapply calm_rel_trans; [exact A|]. apply (calm_pickupHome (_, snd w)).
    + exact A.
Qed.

Lemma calm_advanceHazard frameScale s : calm_rel s (advanceHazard hypot frameScale s).
Proof. unfold advanceHazard. cbv zeta. stroll. Qed.

Lemma calm_outOfLives s : calm_rel s (outOfLives s).
Proof.
  unfold outOfLives, incrementEvent, setAnnouncement. destruct (negb _); calm_leaf.
Qed.

Hint Resolve calm_outOfLives : calm.

Lemma calm_collideHazard w : calm_rel (fst w) (fst (collideHazard hypot w)).
Proof.
  destruct w as [s r]. unfold collideHazard. cbv zeta. cbn [fst snd].
  destruct (Qltb 0 _); [cbn [fst]; stroll|].
  destruct (0 <? _)%Z; cbn [fst]; stroll.
Qed.

Lemma calm_moveHazard deltaMs frameScale w :
  calm_rel (fst w) (fst (moveHazard hypot deltaMs frameScale w)).
Proof.
  unfold moveHazard. cbv zeta.
  pose proof (calm_advanceHazard frameScale (fst w)) as A.
  destruct (hazardCoolingDown _).
  - cbn [fst]. eapply calm_rel_trans; [exact A|]. auto with calm.
  - destruct (hazardTouched _ _).
    + eapply calm_rel_trans; [exact A|]. apply (calm_collideHazard (_, _)).
    + exact A.
Qed.

End Strolls.

(** *** The closing part of the tick *)

(** [decayTimers] up to the session reminder. *)
Definition timersUntilReminder (deltaMs : Q) (s : GameState) : GameState :=
  let decay e :=
    DynamicEntity.set_impactMs (Qmax 0 (DynamicEntity.impactMs e - deltaMs)) e in
  s |> upd_sparkBody decay
    |> upd_cometBody decay
    |> upd_home (fun h =>
         HomePortal.set_impactMs (Qmax 0 (HomePortal.impactMs h - deltaMs)) h)
    |> upd_hazardBody decay
    |> upd_extraPlanets (ExtraPlanet_upd_body decay)
    |> upd_player decay
    |> (fun s => set_planetChainMs (Qmax 0 (planetChainMs s - deltaMs)) s)
    |> when (fun s => Qltb 0 (invulnerabilityMs s))
         (fun s => set_invulnerabilityMs (Qmax 0 (invulnerabilityMs s - deltaMs)) s)
    |> when (fun s => MissionKind_eqb (MissionState.kind (currentMission s)) KSurvive)
         (progressMission KSurvive (deltaMs / 1000))
    |> (fun s =>
          set_currentMission
            (MissionState.set_timeLeftMs
               (Qmax 0 (MissionState.timeLeftMs (currentMission s) - deltaMs))
               (currentMission s)) s)
    |> when (fun s =>
               Qeqb (MissionState.timeLeftMs (currentMission s)) 0
               && Qltb (MissionState.progress (currentMission s))
                       (inject_Z (MissionState.target (currentMission s))))
         failMission
    |> when (fun s => Qltb 0 (comboTimerMs s))
         (fun s =>
            s |> set_comboTimerMs (Qmax 0 (comboTimerMs s - deltaMs))
              |> when (fun s => Qeqb (comboTimerMs s) 0) (set_combo 1))
    |> when (fun s => Qltb 0 (announcementTimerMs s))
         (fun s =>
            s |> set_announcementTimerMs (Qmax 0 (announcementTimerMs s - deltaMs))
              |> when (fun s => Qeqb (announcementTimerMs s) 0 && negb (isGameOver s))
                   (set_announcement ""))
    |> when (fun s => Qltb 0 (learningFactTimerMs s))
         (fun s =>
            s |> set_learningFactTimerMs (Qmax 0 (learningFactTimerMs s - deltaMs))
              |> when (fun s => Qeqb (learningFactTimerMs s) 0) (set_learningFact "")).

(** The session reminder of [decayTimers]. *)
Definition sessionReminder (deltaMs : Q) (s : GameState) : GameState :=
  s |> when (fun s => ParentSettings.sessionReminderEnabled (settings s))
         (fun s =>
            s |> set_sessionElapsedMs (sessionElapsedMs s + deltaMs)
              |> when (fun s =>
                         Qleb (ParentSettings.sessionReminderMs (settings s))
                              (sessionElapsedMs s))
                   (fun s =>
                      s |> set_showBreakReminder true
                        |> set_isPaused true
                        |> setAnnouncement
                             "Mola zamani! Su icip gozlerini dinlendirelim." 1800)).

Lemma decayTimers_reminder deltaMs s :
  decayTimers deltaMs s
  = checkUnlocksAndBadges (sessionReminder deltaMs (timersUntilReminder deltaMs s)).
Proof. unfold decayTimers, sessionReminder, timersUntilReminder. cbv zeta. reflexivity. Qed.

Lemma calm_timersUntilReminder deltaMs s : calm_rel s (timersUntilReminder deltaMs s).
Proof. unfold timersUntilReminder. cbv zeta. stroll. Qed.

(** What [decayTimers] does to the session reminder and to the player. *)
Lemma sessionReminder_between deltaMs (s : GameState) :
  let s' := decayTimers deltaMs s in
  let enabled := ParentSettings.sessionReminderEnabled (settings s) in
  let due :=
    Qleb (ParentSettings.sessionReminderMs (settings s)) (sessionElapsedMs s + deltaMs) in
  sessionElapsedMs s'
  = (if enabled then sessionElapsedMs s + deltaMs else sessionElapsedMs s)
  /\ showBreakReminder s' = (if enabled && due then true else showBreakReminder s)
  /\ (enabled && due = true -> isPaused s' = true)
  /\ DynamicEntity.x (player s') = DynamicEntity.x (player s)
  /\ DynamicEntity.y (player s') = DynamicEntity.y (player s)
  /\ DynamicEntity.radius (player s') = DynamicEntity.radius (player s).
Proof.
  cbv zeta. rewrite decayTimers_reminder.
  pose proof (calm_timersUntilReminder deltaMs s) as P.
  revert P. generalize (timersUntilReminder deltaMs s). intros s1 [].
  rewrite <- cm_settings0, <- cm_elapsed0, <- cm_reminder0, <- cm_x0, <- cm_y0,
    <- cm_radius0.
  clear.
  match goal with
  | |- context [checkUnlocksAndBadges ?y] =>
      pose proof (calm_checkUnlocksAndBadges y) as C
  end.
  revert C. generalize (checkUnlocksAndBadges (sessionReminder deltaMs s1)) at 1 2 3 4 5 6 7.
  intros s2 [].
  rewrite cm_elapsed0, cm_reminder0, cm_x0, cm_y0, cm_radius0.
  assert (K : isPaused (sessionReminder deltaMs s1) = true -> isPaused s2 = true)
    by exact cm_paused0.
  clear - K.
  unfold sessionReminder, when, setAnnouncement in *.
  destruct (ParentSettings.sessionReminderEnabled (settings s1)); rd_all;
    [|repeat apply conj; try reflexivity; intro; discriminate].
  destruct (Qleb _ _); rd_all; repeat apply conj; try reflexivity; auto;
    intro; discriminate.
Qed.

Section Closing.

Variable hypot : Q -> Q -> Q.
Variable pow : Q -> Q -> Q.

(** X25: with the session reminder enabled, the closing part of the tick
    adds [deltaMs] to the session time and, once the session time has
    reached the reminder interval, shows the break reminder and pauses the
    game, which blocks the next tick; below the interval, and with the
    reminder disabled, it leaves the break reminder as it is, and with the
    reminder disabled it leaves the session time as it is. *)
Theorem session_reminder_pauses_the_game (deltaMs : Q) (s : GameState) :
  let s' := decayTimers deltaMs s in
  let interval := ParentSettings.sessionReminderMs (settings s) in
  (ParentSettings.sessionReminderEnabled (settings s) = true ->
   sessionElapsedMs s' = sessionElapsedMs s + deltaMs
   /\ (interval <= sessionElapsedMs s + deltaMs ->
       showBreakReminder s' = true /\ isPaused s' = true /\ tickBlocked s' = true)
   /\ (sessionElapsedMs s + deltaMs < interval ->
       showBreakReminder s' = showBreakReminder s))
  /\ (ParentSettings.sessionReminderEnabled (settings s) = false ->
      sessionElapsedMs s' = sessionElapsedMs s
      /\ showBreakReminder s' = showBreakReminder s).
Proof.
  cbv zeta. destruct (sessionReminder_between deltaMs s) as (E & R & P & _).
  cbv zeta in E, R, P. split.
  - intro On. rewrite On in E, R, P. cbn [andb] in R, P.
    repeat apply conj.
    + exact E.
    + intro Due. apply Qleb_true in Due. rewrite Due in R, P.
      unfold tickBlocked. rewrite R, (P eq_refl). repeat split; reflexivity.
    + intro Early. apply Qleb_false in Early. rewrite Early in R. exact R.
  - intro Off. rewrite Off in E, R. split; assumption.
Qed.

(** The steering of [steerPlayer], up to the move of the player. *)
Definition steerVelocity (frameScale : Q) (s : GameState) : GameState :=
  let config := getDifficultyConfig (difficulty s) in
  let inputMagnitude := hypot (vec_x (input s)) (vec_y (input s)) in
  let normalizedX :=
    if Qltb 0 inputMagnitude then vec_x (input s) / inputMagnitude else 0 in
  let normalizedY :=
    if Qltb 0 inputMagnitude then vec_y (input s) / inputMagnitude else 0 in
  let targetVx := normalizedX * cruiseSpeed config in
  let targetVy := normalizedY * cruiseSpeed config in
  let steeringBlend := Qmin 1 (steeringResponse config * frameScale) in
  s |> when (fun _ => Qltb 0 inputMagnitude)
         (set_lastDirection {| vec_x := normalizedX; vec_y := normalizedY |})
    |> upd_player (fun p =>
         p |> DynamicEntity.set_vx
                (DynamicEntity.vx p + (targetVx - DynamicEntity.vx p) * steeringBlend)
           |> DynamicEntity.set_vy
                (DynamicEntity.vy p + (targetVy - DynamicEntity.vy p) * steeringBlend))
    |> when (fun _ => Qeqb inputMagnitude 0)
         (fun s =>
            let idleDamping := pow (idleDamping config) frameScale in
            s |> upd_player (scaleVelocity idleDamping)
              |> when (fun s =>
                         let driftSpeed :=
                           hypot (DynamicEntity.vx (player s))
                                 (DynamicEntity.vy (player s)) in
                         let hasLastDirection :=
                           Qltb 0 (Qabs (vec_x (lastDirection s)))
                           || Qltb 0 (Qabs (vec_y (lastDirection s))) in
                         hasLastDirection && Qltb 0 driftSpeed
                         && Qltb driftSpeed (minDriftSpeed config))
                   (fun s =>
                      upd_player (fun p =>
                        p |> DynamicEntity.set_vx
                               (vec_x (lastDirection s) * minDriftSpeed config)
                          |> DynamicEntity.set_vy
                               (vec_y (lastDirection s) * minDriftSpeed config)) s))
    |> when (fun s =>
               let currentSpeed :=
                 hypot (DynamicEntity.vx (player s)) (DynamicEntity.vy (player s)) in
               Qltb (maxSpeed config) currentSpeed && Qltb 0 currentSpeed)
         (fun s =>
            let currentSpeed :=
              hypot (DynamicEntity.vx (player s)) (DynamicEntity.vy (player s)) in
            upd_player (scaleVelocity (maxSpeed config / currentSpeed)) s)
    |> when (fun s => Qltb (Qabs (DynamicEntity.vx (player s))) 0.05)
         (upd_player (DynamicEntity.set_vx 0))
    |> when (fun s => Qltb (Qabs (DynamicEntity.vy (player s))) 0.05)
         (upd_player (DynamicEntity.set_vy 0)).

Lemma steerPlayer_parts frameScale s :
  steerPlayer hypot pow frameScale s
  = (fun s1 =>
       set_windMode
         (Qleb (windThreshold (getDifficultyConfig (difficulty s)))
            (hypot (DynamicEntity.vx (player s1)) (DynamicEntity.vy (player s1)))) s1)
      (upd_player
         (bounceInsideArena (arenaWidth (steerVelocity frameScale s))
            (arenaHeight (steerVelocity frameScale s)) frameScale
            (playerBounceDamping (getDifficultyConfig (difficulty s))))
         (steerVelocity frameScale s)).
Proof.
  unfold steerPlayer, steerVelocity. cbv zeta.
  unfold when at 1. unfold Number_isFinite. cbn [negb orb]. reflexivity.
Qed.

(** What the steering leaves alone: the size of the player and of the
    arena. *)
Record trim_rel (s s' : GameState) : Prop := mkTrim {
  tm_radius : DynamicEntity.radius (player s') = DynamicEntity.radius (player s);
  tm_arenaWidth : arenaWidth s' = arenaWidth s;
  tm_arenaHeight : arenaHeight s' = arenaHeight s
}.

Lemma trim_rel_refl (s : GameState) : trim_rel s s.
Proof. constructor; reflexivity. Qed.

Lemma trim_rel_trans (a b c : GameState) : trim_rel a b -> trim_rel b c -> trim_rel a c.
Proof. intros [] []. constructor; congruence. Qed.

Lemma trim_when (c : GameState -> bool) (f : GameState -> GameState) (s : GameState) :
  (forall y, trim_rel y (f y)) -> trim_rel s (when c f s).
Proof. intro H. unfold when. destruct (c s); [apply H | apply trim_rel_refl]. Qed.

Ltac trim_leaf := unfold scaleVelocity; constructor; rd; reflexivity.

Ltac trim :=
  lazymatch goal with
  | |- trim_rel ?s ?s => apply trim_rel_refl
  | |- trim_rel ?s (when ?c ?f ?x) =>
      apply (trim_rel_trans s x (when c f x));
      [ trim | generalize x; intro; apply trim_when; intro; cbv beta zeta; trim ]
  | |- trim_rel ?s (?f ?x) =>
      first
        [ solve [trim_leaf]
        | apply (trim_rel_trans s x (f x));
          [ trim | generalize x; intro; solve [trim_leaf] ] ]
  end.

Lemma trim_steerVelocity frameScale s : trim_rel s (steerVelocity frameScale s).
Proof. unfold steerVelocity. cbv zeta. trim. Qed.

Lemma steerPlayer_player frameScale s :
  exists p : DynamicEntity,
    DynamicEntity.radius p = DynamicEntity.radius (player s)
    /\ player (steerPlayer hypot pow frameScale s)
       = bounceInsideArena (arenaWidth s) (arenaHeight s) frameScale
           (playerBounceDamping (getDifficultyConfig (difficulty s))) p.
Proof.
  rewrite steerPlayer_parts. destruct (trim_steerVelocity frameScale s) as [R W H].
  rewrite W, H. exists (player (steerVelocity frameScale s)).
  split; [exact R | reflexivity].
Qed.

(** X26: after a tick that runs the player has the radius it had and lies
    inside the arena: at least its radius from the left and the top edge,
    and at most [max(radius, size - radius)] along each axis. *)
Theorem tick_keeps_the_player_inside (payloadDeltaMs : Q) (w : W) :
  let s := fst w in
  let p := player (fst (tick hypot pow payloadDeltaMs w)) in
  tickBlocked s = false ->
  DynamicEntity.radius p = DynamicEntity.radius (player s)
  /\ DynamicEntity.radius p <= DynamicEntity.x p
     <= Qmax (DynamicEntity.radius p) (arenaWidth s - DynamicEntity.radius p)
  /\ DynamicEntity.radius p <= DynamicEntity.y p
     <= Qmax (DynamicEntity.radius p) (arenaHeight s - DynamicEntity.radius p).
Proof.
  cbv zeta. intro B. rewrite (tick_phases hypot pow payloadDeltaMs w B).
  unfold tickAfterHazard, liftW. cbn [fst snd].
  destruct (sessionReminder_between (clampDelta payloadDeltaMs)
              (resolvePlanetCollisions hypot
                 (fst (moveHazard hypot (clampDelta payloadDeltaMs)
                         (frameScaleOf payloadDeltaMs)
                         (tickUntilHazard hypot pow payloadDeltaMs w)))))
    as (_ & _ & _ & X & Y & R).
  cbv zeta in X, Y, R. rewrite X, Y, R. clear X Y R.
  assert (C : calm_rel (steerPlayer hypot pow (frameScaleOf payloadDeltaMs) (fst w))
                (resolvePlanetCollisions hypot
                   (fst (moveHazard hypot (clampDelta payloadDeltaMs)
                           (frameScaleOf payloadDeltaMs)
                           (tickUntilHazard hypot pow payloadDeltaMs w))))).
  { eapply calm_rel_trans; [|apply calm_resolvePlanetCollisions].
    eapply calm_rel_trans; [|apply calm_moveHazard].
    unfold tickUntilHazard. cbv zeta.
    eapply calm_rel_trans; [|apply calm_moveHome].
    eapply calm_rel_trans; [|apply calm_moveExtraPlanets].
    eapply calm_rel_trans; [|apply calm_moveCollectible].
    eapply calm_rel_trans; [|apply calm_moveCollectible].
    unfold liftW; cbn [fst snd].
    apply calm_applySolarInfluence. }
  destruct C as [X Y R _ _ _ _]. rewrite X, Y, R. clear X Y R.
  destruct (steerPlayer_player (frameScaleOf payloadDeltaMs) (fst w)) as (p & Rp & E).
  rewrite E.
  destruct (bounceInsideArena_body (arenaWidth (fst w)) (arenaHeight (fst w))
              (frameScaleOf payloadDeltaMs)
              (playerBounceDamping (getDifficultyConfig (difficulty (fst w)))) p)
    as (BX & BY & BR & _).
  cbv zeta in BX, BY, BR. rewrite BR, Rp in *.
  repeat apply conj; tauto.
Qed.

End Closing.

(** The centred game with the session reminder due at the next tick. *)
Definition reminderDueGame : GameState :=
  set_sessionElapsedMs (20 * 60 * 1000 - 10) centredGame.

Lemma session_reminder_pauses_the_game_witness :
  showBreakReminder (decayTimers 16 reminderDueGame) = true
  /\ isPaused (decayTimers 16 reminderDueGame) = true.
Proof.
  destruct (session_reminder_pauses_the_game 16 reminderDueGame) as [On _].
  destruct (On ltac:(Qcompute)) as (_ & Due & _).
  destruct (Due ltac:(Qcompute)) as (R & P & _).
  split; [exact R | exact P].
Defined.

Lemma tick_keeps_the_player_inside_witness :
  DynamicEntity.radius (player (fst (tick hypotQ powQ 16 (centredGame, halves))))
  = DynamicEntity.radius (player centredGame).
Proof.
  apply (tick_keeps_the_player_inside hypotQ powQ 16 (centredGame, halves)).
  Qcompute.
Defined.

(** ** Unlocks, once *)

(** X27: [unlockSkin] and [grantBadge] add the entry when it is new, at the
    end of the list, and count one event; when it is listed they return the
    state as it is, so a second call with the same entry changes nothing,
    whatever its message. *)
Theorem unlocks_happen_once (skin : RocketSkin) (badgeId message again : string)
  (s : GameState) :
  let u := unlockSkin skin message s in
  let g := grantBadge badgeId message s in
  In skin (unlockedSkins u)
  /\ unlockSkin skin again u = u
  /\ (In skin (unlockedSkins s) -> u = s)
  /\ (~ In skin (unlockedSkins s) ->
      unlockedSkins u = (unlockedSkins s ++ [skin])%list
      /\ EventSignal.unlock (eventSignal u) = (EventSignal.unlock (eventSignal s) + 1)%Z)
  /\ In badgeId (badges g)
  /\ grantBadge badgeId again g = g
  /\ (In badgeId (badges s) -> g = s)
  /\ (~ In badgeId (badges s) ->
      badges g = (badges s ++ [badgeId])%list
      /\ EventSignal.badge (eventSignal g) = (EventSignal.badge (eventSignal s) + 1)%Z).
Proof.
  cbv zeta.
  assert (U : In skin (unlockedSkins (unlockSkin skin message s))).
  { unfold unlockSkin. destruct (existsb _ _) eqn:E.
    - apply skin_listed. exact E.
    - unfold incrementEvent, setAnnouncement. rd. apply in_or_app. right. left.
      reflexivity. }
  assert (G : In badgeId (badges (grantBadge badgeId message s))).
  { unfold grantBadge. destruct (existsb _ _) eqn:E.
    - apply badge_listed. exact E.
    - unfold incrementEvent, setAnnouncement. rd. apply in_or_app. right. left.
      reflexivity. }
  repeat apply conj.
  - exact U.
  - apply skin_listed in U. unfold unlockSkin at 1. rewrite U. reflexivity.
  - intro H. apply skin_listed in H. unfold unlockSkin. rewrite H. reflexivity.
  - intro H. unfold unlockSkin.
    destruct (existsb _ _) eqn:E; [apply skin_listed in E; contradiction|].
    unfold incrementEvent, setAnnouncement. rd. split; reflexivity.
  - exact G.
  - apply badge_listed in G. unfold grantBadge at 1. rewrite G. reflexivity.
  - intro H. apply badge_listed in H. unfold grantBadge. rewrite H. reflexivity.
  - intro H. unfold grantBadge.
    destruct (existsb _ _) eqn:E; [apply badge_listed in E; contradiction|].
    unfold incrementEvent, setAnnouncement. rd. split; reflexivity.
Qed.

(** ** The break reminder, dismissed *)

(** X28: [dismissBreakReminder] hides the break reminder and restarts the
    session time; when the game is not over it also lifts the pause,
    whoever paused the game, so that ticks run again; when the game is over
    it stays blocked.  Score, lives and mission stay as they are. *)
Theorem dismissBreakReminder_resumes (s : GameState) :
  let s' := dismissBreakReminder s in
  showBreakReminder s' = false
  /\ sessionElapsedMs s' = 0
  /\ isGameOver s' = isGameOver s
  /\ isPaused s' = (if isGameOver s then isPaused s else false)
  /\ tickBlocked s' = isGameOver s
  /\ score s' = score s /\ lives s' = lives s
  /\ currentMission s' = currentMission s.
Proof.
  cbv zeta. unfold dismissBreakReminder, when, setAnnouncement, tickBlocked. rd.
  destruct (isGameOver s) eqn:G; cbn [negb]; rd; rewrite ?G;
    repeat apply conj; try reflexivity.
  destruct (isPaused s); reflexivity.
Qed.

Section Pickups.

Variable hypot : Q -> Q -> Q.

(** ** The sun bonus and the extra planets *)

Lemma book_upd_home f s : book_rel s (upd_home f s).
Proof. constructor; reflexivity. Qed.

Lemma pickupHome_scoring w :
  let s := fst w in
  let s' := fst (pickupHome hypot w) in
  score s'
  = (score s + Z.max 0 (HomePortal.points (home s) * combo s)
     + if missionCompletesBy KSun 1 s
       then MissionState.rewardPoints (currentMission s) else 0)%Z
  /\ combo s' = Z.min 9 (combo s + 1)
  /\ comboTimerMs s' = COMBO_WINDOW_MS
  /\ EventSignal.collect (eventSignal s')
     = (EventSignal.collect (eventSignal s) + 1)%Z.
Proof.
  destruct w as [s r]. cbv zeta. cbn [fst].
  unfold pickupHome. cbv zeta. cbn [fst snd].
  match goal with
  | |- context [upd_home ?f ?x] =>
      rewrite (br_score _ _ (book_upd_home f x)), (br_combo _ _ (book_upd_home f x)),
        (br_comboTimerMs _ _ (book_upd_home f x)),
        (br_collect _ _ (book_upd_home f x))
  end.
  match goal with
  | |- context [triggerPlanetImpact hypot ?k ?x] =>
      pose proof (book_triggerPlanetImpact hypot k x) as B;
      rewrite (br_score _ _ B), (br_combo _ _ B), (br_comboTimerMs _ _ B),
        (br_collect _ _ B);
      clear B
  end.
  set (points := inject_Z (HomePortal.points (home s) * combo s)).
  assert (G : Z.max 0 (Math_round points)
              = Z.max 0 (HomePortal.points (home s) * combo s))
    by (unfold points; rewrite Math_round_inject_Z; reflexivity).
  rewrite <- G. clearbody points. clear G.
  match goal with
  | |- context [progressMission ?k ?a ?x] =>
      destruct (progressMission_scoring k a x) as (PS & PC & PT & PE);
      rewrite PS, PC, PT, PE; clear PS PC PT PE;
      assert (M : currentMission x = currentMission s)
        by (rewrite (br_currentMission _ _ (book_setLearningFact _ _)),
              (br_currentMission _ _ (book_bumpCatch _ _));
            apply (cl_currentMission _ _ _ (collectPoints_fields _ _ s)));
      rewrite (missionCompletesBy_ext k a s x M), M; clear M
  end.
  rewrite (br_score _ _ (book_setLearningFact _ _)),
    (br_score _ _ (book_bumpCatch _ _)),
    (br_combo _ _ (book_setLearningFact _ _)),
    (br_combo _ _ (book_bumpCatch _ _)),
    (br_comboTimerMs _ _ (book_setLearningFact _ _)),
    (br_comboTimerMs _ _ (book_bumpCatch _ _)),
    (br_collect _ _ (book_setLearningFact _ _)),
    (br_collect _ _ (book_bumpCatch _ _)).
  match goal with
  | |- context [collectPoints ?p ?t s] =>
      pose proof (collectPoints_fields p t s) as C;
      rewrite (cl_score _ _ _ C), (cl_combo _ _ _ C), (cl_comboTimerMs _ _ _ C),
        (cl_collect _ _ _ C)
  end.
  repeat apply conj; reflexivity.
Qed.

(** X29: when the home body is off cooldown and within reach, [moveHome]
    adds its points times the combo to the score, plus the reward of the
    current mission when this bonus completes a sun mission; it counts one
    collect event, raises the combo by one up to 9 and restarts the combo
    window. *)
Theorem moveHome_scores_the_sun_bonus (deltaMs : Q) (w : W) :
  let s := fst w in
  let shown := upd_home (HomePortal.set_visible true) s in
  let s' := fst (moveHome hypot deltaMs w) in
  homeCoolingDown shown = false ->
  homeTouched hypot shown = true ->
  score s'
  = (score s + Z.max 0 (HomePortal.points (home s) * combo s)
     + if missionCompletesBy KSun 1 s
       then MissionState.rewardPoints (currentMission s) else 0)%Z
  /\ combo s' = Z.min 9 (combo s + 1)
  /\ comboTimerMs s' = 3200
  /\ EventSignal.collect (eventSignal s') = (EventSignal.collect (eventSignal s) + 1)%Z.
Proof.
  cbv zeta. intros C T. unfold moveHome. cbv zeta. rewrite C, T.
  destruct (pickupHome_scoring (upd_home (HomePortal.set_visible true) (fst w), snd w))
    as (HS & HC & HT & HE).
  cbn [fst] in HS, HC, HT, HE.
  rewrite (missionCompletesBy_ext KSun 1 (fst w)
             (upd_home (HomePortal.set_visible true) (fst w)) eq_refl) in HS.
  split; [exact HS | split; [exact HC | split; [exact HT | exact HE]]].
Qed.

End Pickups.

(** Only the home body is off cooldown; combo is 2. *)
Definition sunReadyGame : GameState :=
  upd_home (HomePortal.set_cooldownMs 0) (allCooling (set_combo 2 centredGame)).

Lemma moveHome_scores_the_sun_bonus_witness :
  score (fst (moveHome hypotQ 16 (sunReadyGame, halves))) = (0 + 240 + 0)%Z
  /\ combo (fst (moveHome hypotQ 16 (sunReadyGame, halves))) = 3%Z.
Proof.
  destruct (moveHome_scores_the_sun_bonus hypotQ 16 (sunReadyGame, halves))
    as (S & K & _); [Qcompute | Qcompute |].
  split.
  - rewrite S. vm_compute. reflexivity.
  - rewrite K. vm_compute. reflexivity.
Defined.

Section Planets.

Variable hypot : Q -> Q -> Q.

Lemma book_upd_extraBodyAt index f s : book_rel s (upd_extraBodyAt index f s).
Proof. constructor; reflexivity. Qed.

Lemma applyExtraPlanetEffect_fields id s :
  let s' := applyExtraPlanetEffect id s in
  score s' = score s
  /\ EventSignal.collect (eventSignal s') = EventSignal.collect (eventSignal s)
  /\ currentMission s' = currentMission s
  /\ missionsCompleted s' = missionsCompleted s
  /\ lives s'
     = match id with
       | XUranus =>
           Z.min (baseLives (getDifficultyConfig (difficulty s)) + 2) (lives s + 1)
       | _ => lives s
       end
  /\ shieldCharges s'
     = match id with
       | XVenus => Z.min 5 (shieldCharges s + 1)
       | _ => shieldCharges s
       end
  /\ combo s' = match id with XNeptune => Z.min 9 (combo s + 1) | _ => combo s end.
Proof.
  cbv zeta.
  destruct id; unfold applyExtraPlanetEffect, upd_movingBodies, setAnnouncement; rd;
    repeat apply conj; reflexivity.
Qed.

(** X30: the pickup of an extra planet adds its points times the combo to
    the score and counts one collect event, without advancing or completing
    a mission; on top of the level-up and the combo step of every pickup,
    Venus adds a shield charge up to 5, Uranus a life up to two above the
    base lives, and Neptune one more combo step up to 9. *)
Theorem pickupExtraPlanet_scores_and_rewards (index : nat) (planet : ExtraPlanet) (w : W) :
  let s := fst w in
  let s' := fst (pickupExtraPlanet hypot index planet w) in
  let gained := Z.max 0 (ExtraPlanet.points planet * combo s) in
  let leveled :=
    if (level s <? levelFor s (score s + gained))%Z
    then Z.min 5 (shieldCharges s + 1) else shieldCharges s in
  score s' = (score s + gained)%Z
  /\ EventSignal.collect (eventSignal s') = (EventSignal.collect (eventSignal s) + 1)%Z
  /\ currentMission s' = currentMission s
  /\ missionsCompleted s' = missionsCompleted s
  /\ lives s'
     = match ExtraPlanet.id planet with
       | XUranus =>
           Z.min (baseLives (getDifficultyConfig (difficulty s)) + 2) (lives s + 1)
       | _ => lives s
       end
  /\ shieldCharges s'
     = match ExtraPlanet.id planet with
       | XVenus => Z.min 5 (leveled + 1)
       | _ => leveled
       end
  /\ combo s'
     = match ExtraPlanet.id planet with
       | XNeptune => Z.min 9 (Z.min 9 (combo s + 1) + 1)
       | _ => Z.min 9 (combo s + 1)
       end.
Proof.
  destruct w as [s r]. cbv zeta. cbn [fst].
  unfold pickupExtraPlanet. cbv zeta. cbn [fst snd].
  match goal with
  | |- context [upd_extraBodyAt index ?f ?x] =>
      pose proof (book_upd_extraBodyAt index f x) as B;
      rewrite (br_score _ _ B), (br_collect _ _ B), (br_currentMission _ _ B),
        (br_missionsCompleted _ _ B), (br_lives _ _ B), (br_shieldCharges _ _ B),
        (br_combo _ _ B);
      clear B
  end.
  match goal with
  | |- context [triggerPlanetImpact hypot ?k ?x] =>
      pose proof (book_triggerPlanetImpact hypot k x) as B;
      rewrite (br_score _ _ B), (br_collect _ _ B), (br_currentMission _ _ B),
        (br_missionsCompleted _ _ B), (br_lives _ _ B), (br_shieldCharges _ _ B),
        (br_combo _ _ B);
      clear B
  end.
  match goal with
  | |- context [applyExtraPlanetEffect ?i ?x] =>
      destruct (applyExtraPlanetEffect_fields i x) as (ES & EC & EM & ED & EL & EH & EK)
  end.
  cbv zeta in ES, EC, EM, ED, EL, EH, EK.
  rewrite ES, EC, EM, ED, EL, EH, EK. clear ES EC EM ED EL EH EK.
  rewrite (br_score _ _ (book_bumpCatch _ _)),
    (br_score _ _ (book_setLearningFact _ _)),
    (br_collect _ _ (book_bumpCatch _ _)),
    (br_collect _ _ (book_setLearningFact _ _)),
    (br_currentMission _ _ (book_bumpCatch _ _)),
    (br_currentMission _ _ (book_setLearningFact _ _)),
    (br_missionsCompleted _ _ (book_bumpCatch _ _)),
    (br_missionsCompleted _ _ (book_setLearningFact _ _)),
    (br_lives _ _ (book_bumpCatch _ _)),
    (br_lives _ _ (book_setLearningFact _ _)),
    (br_shieldCharges _ _ (book_bumpCatch _ _)),
    (br_shieldCharges _ _ (book_setLearningFact _ _)),
    (br_combo _ _ (book_bumpCatch _ _)),
    (br_combo _ _ (book_setLearningFact _ _)),
    (br_difficulty _ _ (book_bumpCatch _ _)),
    (br_difficulty _ _ (book_setLearningFact _ _)).
  set (points := inject_Z (ExtraPlanet.points planet * combo s)).
  assert (G : Z.max 0 (Math_round points)
              = Z.max 0 (ExtraPlanet.points planet * combo s))
    by (unfold points; rewrite Math_round_inject_Z; reflexivity).
  rewrite <- G. clearbody points. clear G.
  match goal with
  | |- context [collectPoints ?p ?t s] =>
      pose proof (collectPoints_fields p t s) as C;
      rewrite (cl_score _ _ _ C), (cl_collect _ _ _ C), (cl_currentMission _ _ _ C),
        (cl_missionsCompleted _ _ _ C), (cl_lives _ _ _ C), (cl_shieldCharges _ _ _ C),
        (cl_combo _ _ _ C), (cl_difficulty _ _ _ C)
  end.
  repeat apply conj; reflexivity.
Qed.

End Planets.
